(** * device_controll: alert classifier, alert router and the SmartVol
      partial-close strategy

    A shallow embedding of

      - [toAlert] and [AlertsRouter] (alerts router source), and
      - [SmartVolPartialCloseStrategy]
        (bot-core/strategies/smartvol.partial-close.strategy.ts),

    followed by the properties of the specification that concern them.

    Conventions of the embedding.

      - JavaScript values that reach the code untyped (the webhook payload,
        [alert.timeframe]) are values of [JsVal].
      - JavaScript numbers are IEEE doubles; the development is parametric
        in them ([JsNumber]): only the operations the source applies are
        named, none is interpreted.
      - Thrown values are [Error] objects carrying a [message], which is what
        the [catch] blocks of the source read. The router is modelled a
        second time ([Rejections]) with handlers that reject with any
        value, where reading [.message] can itself throw.
      - An [async] method is a computation [M W A]: a function of the world
        [W] returning a result ([Ok] or [Throw]) and the world it leaves.
        Mutations done before a [throw] stay done, as in JavaScript.
      - Every call that leaves the class (logger, clock, notifier, exchange,
        position store, bot handlers) is recorded, with its outcome, in the
        trace of the world, in program order. *)

From Stdlib Require Import ZArith Lia.
From Stdlib Require QArith.
From stdpp Require Import base decidable option list strings gmap.

Open Scope Z_scope.

(** ** JavaScript numbers *)

Class JsNumber := {
  num : Type;
  num_nan : num;                       (* NaN *)
  num_zero : num;                      (* 0 *)
  num_one : num;                       (* 1 *)
  num_half : num;                      (* 0.5 *)
  num_of_string : string -> num;       (* Number(s) *)
  parseFloat : string -> num;          (* parseFloat(s) *)
  num_to_string : num -> string;       (* String(n) *)
  num_isNaN : num -> bool;             (* isNaN(n) *)
  num_truthy : num -> bool;            (* ToBoolean(n): false for 0 and NaN *)
  num_mul : num -> num -> num;         (* a * b *)
  num_div : num -> num -> num;         (* a / b *)
  num_sub : num -> num -> num;         (* a - b *)
  toFixed : num -> nat -> string;      (* n.toFixed(d) *)
}.

(** ** Untyped JavaScript values *)

Section JsValues.
Context `{JsNumber}.

#[warnings="-register-all"]
Inductive JsVal :=
| JUndefined
| JNull
| JBool (b : bool)
| JNum (n : num)
| JStr (s : string)
| JObj (fields : list (string * JsVal)).

(** [k in p] for an object [p]. *)
Fixpoint has_field (k : string) (fs : list (string * JsVal)) : bool :=
  match fs with
  | [] => false
  | (k', _) :: fs' => if decide (k = k') then true else has_field k fs'
  end.

(** [p.k] for an object [p]: [undefined] when the property is absent. *)
Fixpoint get_field (k : string) (fs : list (string * JsVal)) : JsVal :=
  match fs with
  | [] => JUndefined
  | (k', v) :: fs' => if decide (k = k') then v else get_field k fs'
  end.

(** [p.k] on any value that was tested to be an object. *)
Definition js_get (p : JsVal) (k : string) : JsVal :=
  match p with
  | JObj fs => get_field k fs
  | _ => JUndefined
  end.

(** ToBoolean: what [!v], [v || d] and [if (v)] test. *)
Definition js_truthy (v : JsVal) : bool :=
  match v with
  | JUndefined | JNull => false
  | JBool b => b
  | JNum n => num_truthy n
  | JStr s => if decide (s = "") then false else true
  | JObj _ => true
  end.

(** [v == null]. *)
Definition js_nullish (v : JsVal) : bool :=
  match v with
  | JUndefined | JNull => true
  | _ => false
  end.

(** [String(v)]. *)
Definition js_String (v : JsVal) : string :=
  match v with
  | JUndefined => "undefined"
  | JNull => "null"
  | JBool true => "true"
  | JBool false => "false"
  | JNum n => num_to_string n
  | JStr s => s
  | JObj _ => "[object Object]"
  end.

(** [Number(v)]. *)
Definition js_Number (v : JsVal) : num :=
  match v with
  | JUndefined => num_nan
  | JNull => num_zero
  | JBool true => num_one
  | JBool false => num_zero
  | JNum n => n
  | JStr s => num_of_string s
  | JObj _ => num_nan
  end.

(** [a || b]. *)
Definition js_or (a b : JsVal) : JsVal := if js_truthy a then a else b.

(** [v === s] for a string literal [s]. *)
Definition js_is_str (v : JsVal) (s : string) : bool :=
  match v with
  | JStr s' => if decide (s' = s) then true else false
  | _ => false
  end.

End JsValues.

(** ** Errors, results and the monad of [async] methods *)

Inductive Error :=
| BadRequestException (msg : string)
| RuntimeError (msg : string).

(** [e.message]. *)
Definition message (e : Error) : string :=
  match e with
  | BadRequestException m => m
  | RuntimeError m => m
  end.

Inductive Res (A : Type) :=
| Ok (a : A)
| Throw (e : Error).
Arguments Ok {A} a.
Arguments Throw {A} e.

Definition is_ok {A} (r : Res A) : bool :=
  match r with Ok _ => true | Throw _ => false end.

Definition M (W A : Type) : Type := W -> Res A * W.

Definition ret {W A} (a : A) : M W A := fun w => (Ok a, w).

Definition throw {W A} (e : Error) : M W A := fun w => (Throw e, w).

Definition bind {W A B} (m : M W A) (k : A -> M W B) : M W B :=
  fun w =>
    match m w with
    | (Ok a, w') => k a w'
    | (Throw e, w') => (Throw e, w')
    end.

(** [try { m } catch (e) { h(e) }]. *)
Definition try_catch {W A} (m : M W A) (h : Error -> M W A) : M W A :=
  fun w =>
    match m w with
    | (Ok a, w') => (Ok a, w')
    | (Throw e, w') => h e w'
    end.

(** A synchronous computation that may throw, used inside an [async] one. *)
Definition lift {W A} (r : Res A) : M W A := fun w => (r, w).

Notation "x <- m ;; k" := (bind m (fun x => k))
  (at level 90, m at level 80, right associativity).
Notation "m ;;; k" := (bind m (fun _ => k))
  (at level 90, right associativity).

(** ** The alert classifier: [toAlert] *)

Inductive AlertKind := smartvol | domination.

Section Classifier.
Context `{JsNumber}.

Record Alert := mkAlert {
  kind : AlertKind;
  type : string;
  symbol : string;
  price : string;
  timeframe : JsVal;
  volume : option num;
}.

Definition smartvol_types : list string :=
  [ "SmartOpen"; "SmartVolAdd"; "SmartClose"; "SmartBigClose"; "SmartBigAdd";
    "SmartVolumeOpen"; "BullishVolume"; "VolumeUp" ].

Definition domination_types : list string :=
  [ "Buyer domination"; "Seller domination";
    "Continuation of buyer dominance"; "Continuation of seller dominance" ].

(** [list.includes(s)]. *)
Definition includes (l : list string) (s : string) : bool :=
  if decide (s ∈ l) then true else false.

Definition toAlert (p : JsVal) : Res Alert :=
  match p with
  | JObj fs =>
    if negb (has_field "alertName" fs) then
      Throw (BadRequestException
               "Only SmartVol and Domination alerts are supported")
    else
      let type := js_String (js_get p "alertName") in
      if includes smartvol_types type then
        if negb (js_truthy (js_get p "symbol")) || js_nullish (js_get p "price")
        then Throw (BadRequestException "symbol and price are required")
        else if decide (type = "VolumeUp") then
          if js_nullish (js_get p "volume") then
            Throw (BadRequestException "volume is required for VolumeUp alerts")
          else if negb (js_truthy (js_get p "timeframe")) then
            Throw (BadRequestException
                     "timeframe is required for VolumeUp alerts")
          else
            Ok {| kind := smartvol; type := type;
                  symbol := js_String (js_get p "symbol");
                  price := js_String (js_get p "price");
                  timeframe := JStr (js_String (js_get p "timeframe"));
                  volume := Some (js_Number (js_get p "volume")) |}
        else
          Ok {| kind := smartvol; type := type;
                symbol := js_String (js_get p "symbol");
                price := js_String (js_get p "price");
                timeframe := js_get p "timeframe";
                volume := None |}
      else if includes domination_types type then
        if negb (js_truthy (js_get p "symbol")) || js_nullish (js_get p "price")
        then Throw (BadRequestException "symbol and price are required")
        else
          Ok {| kind := domination; type := type;
                symbol := js_String (js_get p "symbol");
                price := js_String (js_get p "price");
                timeframe := js_get p "timeframe";
                volume := None |}
      else
        Throw (BadRequestException ("Unknown alert type: " +:+ type))
  | _ => Throw (BadRequestException "Invalid payload")
  end.

(** *** Vocabulary of the specification for a payload *)

(** The payload is a record that has the discriminator field. *)
Definition has_discriminator (p : JsVal) : bool :=
  match p with
  | JObj fs => has_field "alertName" fs
  | _ => false
  end.

(** The alert type the discriminator names. *)
Definition named_type (p : JsVal) : string := js_String (js_get p "alertName").

(** A textual field (symbol, timeframe) is missing when the record gives no
    text for it: the property is absent, [null], or empty (JavaScript-falsy). *)
Definition missing_text (p : JsVal) (k : string) : bool :=
  negb (js_truthy (js_get p k)).

(** A value field (price, volume) is missing when the property is absent or
    [null]. *)
Definition missing_value (p : JsVal) (k : string) : bool :=
  js_nullish (js_get p k).

(** The conditions under which the specification lets classification fail. *)
Definition must_fail (p : JsVal) : bool :=
  negb (has_discriminator p)
  || negb (includes smartvol_types (named_type p)
           || includes domination_types (named_type p))
  || missing_text p "symbol" || missing_value p "price"
  || ((if decide (named_type p = "VolumeUp") then true else false)
      && (missing_value p "volume" || missing_text p "timeframe")).

Definition validation_error {A} (r : Res A) : Prop :=
  exists msg, r = Throw (BadRequestException msg).

End Classifier.

(** ** Bots *)

Section Bots.
Context `{JsNumber}.

(** [bot.exchange]: every method is optional and called as [m?.(...)]. *)
Record Exchange := mkExchange {
  has_isAllowed : bool;
  has_ensureLeverage : bool;
  has_calcSizeFromUsd : bool;
  has_placeMarket : bool;
  has_flashClose : bool;
}.

Record BotCfg := mkBotCfg {
  symbol_filter : option (list string);   (* cfg.symbol_filter, may be unset *)
  strategy : string;                      (* cfg.strategy *)
  maxFills : option Z;                    (* cfg.maxFills, may be unset *)
  leverage : num;                         (* cfg.smartvol.leverage *)
}.

Record Bot := mkBot {
  name : string;
  cfg : BotCfg;
  exchange : Exchange;
  baseUsd : num;                          (* bot.baseUsd() *)
  addUsd : num;                           (* bot.addUsd() *)
}.

(** [const filter = bot.cfg.symbol_filter || [];
     filter.length && !filter.includes(alert.symbol)] *)
Definition filtered_out (bot : Bot) (a : Alert) : bool :=
  let filter := default [] (symbol_filter (cfg bot)) in
  negb (Nat.eqb (length filter) 0) && negb (includes filter (symbol a)).

End Bots.

Inductive LogLevel := LLog | LWarn | LError.

(** [for (const x of l) body(x)] *)
Fixpoint for_each {W A} (l : list A) (body : A -> M W unit) : M W unit :=
  match l with
  | [] => ret tt
  | x :: l' => body x ;;; for_each l' body
  end.

(** ** The alert router: [AlertsRouter] *)

Module Router.
Section Router.
Context `{JsNumber}.

Inductive DomHandler :=
| onBuyerDomination
| onSellerDomination
| onBuyerContinuation
| onSellerContinuation.

(** The lines the router writes to its logger; the constructor fixes the
    template, the arguments are the interpolated values. *)
Inductive RouterLog :=
| RL_failed (bot msg : string)               (* `${bot.name} failed: ${e.message}` *)
| RL_domination_alert (type symbol : string)
| RL_no_domination_bots
| RL_domination_bots (n : nat) (names : list string)
| RL_domination_error (bot msg : string)
| RL_not_domination_strategy (bot strategy : string)
| RL_skips_symbol (bot symbol : string) (filter : list string)
| RL_handles (bot type symbol : string)
| RL_unknown_domination_type (type : string).

Inductive REvent :=
| RLog (lvl : LogLevel) (m : RouterLog)
| RProcess (bot : Bot) (a : Alert) (r : Res unit)
| RDomination (h : DomHandler) (bot : Bot) (a : Alert) (r : Res unit).

(** What the router calls and does not define: [bot.process] and the four
    entry points of the domination strategy. Each may do anything to the
    rest of the system ([Handlers]) and either return or throw. *)
Class Handlers := {
  Sys : Type;
  process_port : Bot -> Alert -> Sys -> Res unit * Sys;
  domination_port : DomHandler -> Bot -> Alert -> Sys -> Res unit * Sys;
}.
Context `{Handlers}.

Record RWorld := mkRWorld {
  sys : Sys;
  rtrace : list REvent;
}.

Definition rlog (lvl : LogLevel) (m : RouterLog) : M RWorld unit :=
  fun w => (Ok tt, {| sys := sys w; rtrace := rtrace w ++ [RLog lvl m] |}).

(** [await bot.process(alert)] *)
Definition process (bot : Bot) (a : Alert) : M RWorld unit :=
  fun w =>
    let '(r, s') := process_port bot a (sys w) in
    (r, {| sys := s'; rtrace := rtrace w ++ [RProcess bot a r] |}).

(** [await this.dominationStrategy.h(bot, alert)] *)
Definition domination_call (h : DomHandler) (bot : Bot) (a : Alert)
  : M RWorld unit :=
  fun w =>
    let '(r, s') := domination_port h bot a (sys w) in
    (r, {| sys := s'; rtrace := rtrace w ++ [RDomination h bot a r] |}).

Definition is_domination_bot (bot : Bot) : bool :=
  if decide (strategy (cfg bot) = "domination") then true else false.

Definition processDominationAlert (bot : Bot) (a : Alert) : M RWorld unit :=
  if negb (is_domination_bot bot) then
    rlog LWarn (RL_not_domination_strategy (name bot) (strategy (cfg bot)))
  else
    let filter := default [] (symbol_filter (cfg bot)) in
    if filtered_out bot a then
      rlog LLog (RL_skips_symbol (name bot) (symbol a) filter)
    else
      rlog LLog (RL_handles (name bot) (type a) (symbol a)) ;;;
      if decide (type a = "Buyer domination") then
        domination_call onBuyerDomination bot a
      else if decide (type a = "Seller domination") then
        domination_call onSellerDomination bot a
      else if decide (type a = "Continuation of buyer dominance") then
        domination_call onBuyerContinuation bot a
      else if decide (type a = "Continuation of seller dominance") then
        domination_call onSellerContinuation bot a
      else
        rlog LWarn (RL_unknown_domination_type (type a)).

Definition handleDominationAlert (registry : list Bot) (a : Alert)
  : M RWorld unit :=
  rlog LLog (RL_domination_alert (type a) (symbol a)) ;;;
  let bots := List.filter is_domination_bot registry in
  if Nat.eqb (length bots) 0 then
    rlog LWarn RL_no_domination_bots
  else
    rlog LLog (RL_domination_bots (length bots) (List.map name bots)) ;;;
    for_each bots (fun bot =>
      try_catch (processDominationAlert bot a)
        (fun error =>
           rlog LError (RL_domination_error (name bot) (message error)))).

(** The body of [handle] after classification. *)
Definition dispatch (registry : list Bot) (a : Alert) : M RWorld unit :=
  match kind a with
  | domination => handleDominationAlert registry a
  | smartvol =>
    for_each registry (fun bot =>
      if filtered_out bot a then ret tt
      else
        try_catch (process bot a)
          (fun e => rlog LWarn (RL_failed (name bot) (message e))))
  end.

(** [registry] is what [this.registry.all()] returns. *)
Definition handle (registry : list Bot) (payload : JsVal) : M RWorld unit :=
  a <- lift (toAlert payload) ;;
  dispatch registry a.

(** *** Observations on a router trace *)

(** The bots whose handler was invoked, in order. *)
Fixpoint invoked (d : list REvent) : list Bot :=
  match d with
  | [] => []
  | RProcess b _ _ :: d' => b :: invoked d'
  | RDomination _ b _ _ :: d' => b :: invoked d'
  | RLog _ _ :: d' => invoked d'
  end.

(** Every failed invocation is followed at once by the router's log line
    for it, carrying the bot's name and the error's message. *)
Fixpoint failures_logged (d : list REvent) : Prop :=
  match d with
  | [] => True
  | RProcess b _ (Throw e) :: d' =>
      (exists d'', d' = RLog LWarn (RL_failed (name b) (message e)) :: d'')
      /\ failures_logged d'
  | RDomination _ b _ (Throw e) :: d' =>
      (exists d'',
         d' = RLog LError (RL_domination_error (name b) (message e)) :: d'')
      /\ failures_logged d'
  | _ :: d' => failures_logged d'
  end.

(** The domination entry point an alert type selects, if any. *)
Definition domination_handler_of (ty : string) : option DomHandler :=
  if decide (ty = "Buyer domination") then Some onBuyerDomination
  else if decide (ty = "Seller domination") then Some onSellerDomination
  else if decide (ty = "Continuation of buyer dominance")
       then Some onBuyerContinuation
  else if decide (ty = "Continuation of seller dominance")
       then Some onSellerContinuation
  else None.

(** The bots an alert is for: in the general fan-out the bots whose symbol
    filter lets the symbol through; on the domination pathway the bots
    tagged "domination" whose filter lets it through. *)
Definition eligible (registry : list Bot) (a : Alert) : list Bot :=
  match kind a with
  | smartvol => List.filter (fun b => negb (filtered_out b a)) registry
  | domination =>
      match domination_handler_of (type a) with
      | Some _ =>
          List.filter (fun b => is_domination_bot b && negb (filtered_out b a))
                      registry
      | None => []
      end
  end.

(** What one run of a router computation adds to the world: it returns
    normally, and appends [d] to the trace. *)
Definition returns_adding (m : M RWorld unit) (w : RWorld)
  (d : list REvent) : Prop :=
  exists w', m w = (Ok tt, w') /\ rtrace w' = rtrace w ++ d.




End Router.
End Router.

(** ** The router when a handler rejects with any value

    [Router] takes what a handler throws to be an [Error] object, so that
    [e.message] in the two [catch] blocks is a string. JavaScript lets a
    handler reject with any value ([Promise.reject()], [throw null]); the
    [catch] parameter is typed [any], and reading [.message] off
    [undefined] or [null] is itself a [TypeError], raised inside the
    [catch] block. This module is the router again with the thrown value
    kept as it is. *)

Module Rejections.
Section Rejections.
Context `{JsNumber}.

(** What is thrown: an [Error] object, or any other value. *)
Inductive Thrown :=
| TError (e : Error)
| TValue (v : JsVal).

Inductive Outcome (A : Type) :=
| Returned (a : A)
| Rejected (t : Thrown).
Arguments Returned {A} a.
Arguments Rejected {A} t.

Definition MT (W A : Type) : Type := W -> Outcome A * W.

Definition ret_t {W A} (a : A) : MT W A := fun w => (Returned a, w).

Definition bind_t {W A B} (m : MT W A) (k : A -> MT W B) : MT W B :=
  fun w =>
    match m w with
    | (Returned a, w') => k a w'
    | (Rejected t, w') => (Rejected t, w')
    end.

(** [try { m } catch (e) { h(e) }]; what [h] throws is not caught. *)
Definition try_catch_t {W A} (m : MT W A) (h : Thrown -> MT W A) : MT W A :=
  fun w =>
    match m w with
    | (Returned a, w') => (Returned a, w')
    | (Rejected t, w') => h t w'
    end.

(** A synchronous computation that throws [Error] objects only. *)
Definition lift_t {W A} (r : Res A) : MT W A :=
  fun w =>
    match r with
    | Ok a => (Returned a, w)
    | Throw e => (Rejected (TError e), w)
    end.

Fixpoint for_each_t {W A} (l : list A) (body : A -> MT W unit) : MT W unit :=
  match l with
  | [] => ret_t tt
  | x :: l' => bind_t (body x) (fun _ => for_each_t l' body)
  end.

(** The [TypeError] of a property read on [undefined] or [null]. *)
Definition cannot_read (what prop : string) : Error :=
  RuntimeError
    ("Cannot read properties of " +:+ what +:+ " (reading '" +:+ prop
     +:+ "')").

(** [e.message] for a caught [e]: the message of an [Error] object, the
    property of an object, [undefined] on another primitive, and a
    [TypeError] on [undefined] and [null]. *)
Definition read_message (t : Thrown) : Outcome JsVal :=
  match t with
  | TError e => Returned (JStr (message e))
  | TValue JUndefined => Rejected (TError (cannot_read "undefined" "message"))
  | TValue JNull => Rejected (TError (cannot_read "null" "message"))
  | TValue v => Returned (js_get v "message")
  end.

Inductive REvent :=
| RLog (lvl : LogLevel) (m : Router.RouterLog)
| RProcess (bot : Bot) (a : Alert) (r : Outcome unit)
| RDomination (h : Router.DomHandler) (bot : Bot) (a : Alert)
    (r : Outcome unit).

(** [bot.process] and the entry points of the domination strategy, which
    return or reject with a value of their choice. *)
Class Handlers := {
  Sys : Type;
  process_port : Bot -> Alert -> Sys -> Outcome unit * Sys;
  domination_port :
    Router.DomHandler -> Bot -> Alert -> Sys -> Outcome unit * Sys;
}.
Context `{Handlers}.

Record RWorld := mkRWorld {
  sys : Sys;
  rtrace : list REvent;
}.

Definition rlog (lvl : LogLevel) (m : Router.RouterLog) : MT RWorld unit :=
  fun w =>
    (Returned tt, {| sys := sys w; rtrace := rtrace w ++ [RLog lvl m] |}).

(** [this.log.lvl(`...${e.message}`)]: the template is evaluated first, and
    nothing is logged when that throws. *)
Definition rlog_message (lvl : LogLevel) (line : string -> Router.RouterLog)
  (e : Thrown) : MT RWorld unit :=
  match read_message e with
  | Returned v => rlog lvl (line (js_String v))
  | Rejected t => fun w => (Rejected t, w)
  end.

Definition process (bot : Bot) (a : Alert) : MT RWorld unit :=
  fun w =>
    let '(r, s') := process_port bot a (sys w) in
    (r, {| sys := s'; rtrace := rtrace w ++ [RProcess bot a r] |}).

Definition domination_call (h : Router.DomHandler) (bot : Bot) (a : Alert)
  : MT RWorld unit :=
  fun w =>
    let '(r, s') := domination_port h bot a (sys w) in
    (r, {| sys := s'; rtrace := rtrace w ++ [RDomination h bot a r] |}).

Definition processDominationAlert (bot : Bot) (a : Alert)
  : MT RWorld unit :=
  if negb (Router.is_domination_bot bot) then
    rlog LWarn
      (Router.RL_not_domination_strategy (name bot) (strategy (cfg bot)))
  else
    let filter := default [] (symbol_filter (cfg bot)) in
    if filtered_out bot a then
      rlog LLog (Router.RL_skips_symbol (name bot) (symbol a) filter)
    else
      bind_t (rlog LLog (Router.RL_handles (name bot) (type a) (symbol a)))
        (fun _ =>
           if decide (type a = "Buyer domination") then
             domination_call Router.onBuyerDomination bot a
           else if decide (type a = "Seller domination") then
             domination_call Router.onSellerDomination bot a
           else if decide (type a = "Continuation of buyer dominance") then
             domination_call Router.onBuyerContinuation bot a
           else if decide (type a = "Continuation of seller dominance") then
             domination_call Router.onSellerContinuation bot a
           else
             rlog LWarn (Router.RL_unknown_domination_type (type a))).

Definition handleDominationAlert (registry : list Bot) (a : Alert)
  : MT RWorld unit :=
  bind_t (rlog LLog (Router.RL_domination_alert (type a) (symbol a)))
    (fun _ =>
       let bots := List.filter Router.is_domination_bot registry in
       if Nat.eqb (length bots) 0 then
         rlog LWarn Router.RL_no_domination_bots
       else
         bind_t
           (rlog LLog
              (Router.RL_domination_bots (length bots) (List.map name bots)))
           (fun _ =>
              for_each_t bots (fun bot =>
                try_catch_t (processDominationAlert bot a)
                  (rlog_message LError
                     (Router.RL_domination_error (name bot)))))).

Definition dispatch (registry : list Bot) (a : Alert) : MT RWorld unit :=
  match kind a with
  | domination => handleDominationAlert registry a
  | smartvol =>
    for_each_t registry (fun bot =>
      if filtered_out bot a then ret_t tt
      else
        try_catch_t (process bot a)
          (rlog_message LWarn (Router.RL_failed (name bot))))
  end.

Definition handle (registry : list Bot) (payload : JsVal)
  : MT RWorld unit :=
  bind_t (lift_t (toAlert payload)) (fun a => dispatch registry a).

(** The bots whose handler was invoked, in order. *)
Fixpoint invoked (d : list REvent) : list Bot :=
  match d with
  | [] => []
  | RProcess b _ _ :: d' => b :: invoked d'
  | RDomination _ b _ _ :: d' => b :: invoked d'
  | RLog _ _ :: d' => invoked d'
  end.

(** The lines written to the logger at [warn] or [error]. *)
Fixpoint complaints (d : list REvent) : list Router.RouterLog :=
  match d with
  | [] => []
  | RLog LLog _ :: d' => complaints d'
  | RLog _ m :: d' => m :: complaints d'
  | _ :: d' => complaints d'
  end.

(** The run of [m] from [w] rejects with [t], having added [d] to the
    trace. *)
Definition rejects_adding (m : MT RWorld unit) (w : RWorld) (t : Thrown)
  (d : list REvent) : Prop :=
  exists w', m w = (Rejected t, w') /\ rtrace w' = rtrace w ++ d.

(** Failure isolation in one run of [handle] on a classified alert: the
    caller gets no exception, and every bot of [bots] is invoked. *)
Definition isolates (registry : list Bot) (payload : JsVal) (w : RWorld)
  (bots : list Bot) : Prop :=
  exists w' d,
    handle registry payload w = (Returned tt, w')
    /\ rtrace w' = rtrace w ++ d
    /\ Forall (fun b => b ∈ invoked d) bots.

End Rejections.

Arguments Returned {_ _} a.
Arguments Rejected {_ _} t.

End Rejections.

(** ** The partial-close strategy: [SmartVolPartialCloseStrategy] *)

Module Strategy.
Section Strategy.
Context `{JsNumber}.

(** *** Data *)

(** A position as the store hands it out. *)
Record Position := mkPosition {
  pos_id : Z;
  fillsCount : Z;
  avgEntryPrice : string;
  amountUsd : string;
}.

(** What [calculatePnL] returns. *)
Record PnL := mkPnL {
  totalSize : JsVal;
  pnl_avgEntryPrice : JsVal;
  currentPrice : JsVal;
  pnl : JsVal;
  pnlPercent : JsVal;
}.

(** What [getPositionInfo] returns; [pnl] may be unset. *)
Record PositionInfo := mkPositionInfo {
  info_pnl : option PnL;
}.

Record PartialCloseState := mkPartialCloseState {
  pc_symbol : string;
  pc_botName : string;
  smartVolCloseCount : Z;
  lastUpdate : Z;
}.

Record EntryBlockState := mkEntryBlockState {
  eb_symbol : string;
  eb_botName : string;
  blockedUntil : Z;
}.

Inductive Side := buy | sell.

(** A client order id, rendered `${bot}-${tag}-${time}`. *)
Record OrderId := mkOrderId {
  oid_bot : string;
  oid_tag : string;
  oid_time : Z;
}.

(** What [getTimeUntilUnblock] returns: two fixed texts, or
    `${hours}ч ${minutes}м`. *)
Inductive UnblockTime :=
| NotBlocked
| Unblocked
| Remaining (hours minutes : Z).

(** The texts sent with [bot.notify]; the constructor fixes the template,
    the arguments are the interpolated values. *)
Inductive Notice :=
| NEntryBlocked (bot symbol : string) (t : UnblockTime)
| NTimeframeSkipped (bot : string) (timeframe : JsVal)
| NMaxFills (bot symbol : string)     (* `${bot}: max fills reached for ${symbol}` *)
| NNotAllowed (bot symbolId : string)
| NBaseUsdMissing (bot : string)
| NOpened (bot symbol price : string) (usd : num) (info : PositionInfo)
| NAddUsdMissing (bot : string)
| NAdded (bot symbol price : string) (usd : num) (info : PositionInfo)
| NAddedPlain (bot symbol price : string) (usd : num)
| NClosed4h (bot symbol price : string) (final : PnL)
| NFirstClose (bot symbol : string)
| NPartialClose (bot symbol price closed remaining : string)
| NFinalClose (bot symbol price : string) (final : PnL)
| NBigClose (bot symbol price : string) (final : PnL)
| NBigAdd (bot symbol price : string)
| NFixedShortSync (bot symbol price : string) (unblockAt : Z)
| NLiveShortSync (bot symbol price : string) (unblockAt : Z).

(** The lines written to the logger. *)
Inductive LogMsg :=
| L_onOpen (symbol price : string)
| L_entry_blocked (symbol bot : string) (t : UnblockTime)
| L_open_timeframe_skipped (timeframe : JsVal)
| L_checking_existing (symbol : string)
| L_found_existing (fills maxFills : Z)
| L_max_fills
| L_going_to_add
| L_opening_new
| L_symbol_id (symbolId : string)
| L_not_allowed (symbolId : string)
| L_allowed (symbolId : string)
| L_set_leverage (leverage : num)
| L_calc_size (usd : num)
| L_size (size : JsVal)
| L_placing_order
| L_baseUsd_error (usd : num)
| L_creating_position (bot symbol price : string) (usd : num)
| L_position_created (id : Z)
| L_onAdd (symbol price : string)
| L_add_no_position (symbol bot : string)
| L_addUsd_error (usd : num)
| L_onClose (timeframe : JsVal) (symbol : string)
| L_close_no_position (symbol bot : string)
| L_close_4h (symbol : string)
| L_close_error (symbol msg : string)
| L_first_close (symbol : string)
| L_second_close (symbol : string)
| L_partial_close_error (symbol msg : string)
| L_nth_close (n : Z) (symbol : string)
| L_onBigClose (symbol : string)
| L_big_close_error (symbol msg : string)
| L_onBigAdd (symbol : string)
| L_smartVolumeOpen_unused
| L_bullishVolume_unused
| L_volumeUp_unused
| L_fixed_short (symbol bot : string)
| L_fixed_short_skipped (timeframe : JsVal)
| L_live_short (symbol bot : string)
| L_live_short_skipped (timeframe : JsVal)
| L_entry_block_set (symbol bot reason : string) (blockedUntil : Z).

(** *** The collaborators of the strategy

    The clock, the notifier and the exchange live outside the process
    ([Env]); the positions store has a state of its own ([Store]). Every
    call may throw. [findOpen], [calculatePnL] and [getPositionInfo] read
    the store and leave it as it is. *)
Class Externals := {
  Env : Type;
  Store : Type;
  toBitgetSymbolId : string -> string;
  clock_port : Env -> Z * Env;                               (* Date.now() *)
  notify_port : Bot -> Notice -> Env -> Res unit * Env;
  isAllowed_port : Bot -> string -> Env -> Res bool * Env;
  ensureLeverage_port : Bot -> string -> string -> Env -> Res unit * Env;
  calcSizeFromUsd_port :
    Bot -> string -> num -> num -> Env -> Res JsVal * Env;
  placeMarket_port :
    Bot -> string -> Side -> string -> OrderId -> Env -> Res unit * Env;
  flashClose_port : Bot -> string -> string -> Env -> Res unit * Env;
  findOpen_port : Store -> string -> string -> Res (option Position);
  open_port :
    Store -> string -> string -> string -> string -> Res Position * Store;
  add_port : Store -> Position -> string -> string -> Res unit * Store;
  close_port : Store -> Position -> string -> Res unit * Store;
  calculatePnL_port : Store -> Position -> num -> Res PnL;
  getPositionInfo_port : Store -> Position -> num -> Res PositionInfo;
}.
Context `{Externals}.

(** The calls that leave the class, with their outcome. *)
Inductive Event :=
| ELog (lvl : LogLevel) (m : LogMsg)
| ENow (t : Z)
| ENotify (bot : string) (n : Notice) (r : Res unit)
| EIsAllowed (bot symbolId : string) (r : Res bool)
| EEnsureLeverage (bot symbolId leverage : string) (r : Res unit)
| ECalcSizeFromUsd (bot symbolId : string) (price usd : num) (r : Res JsVal)
| EPlaceMarket (bot symbolId : string) (side : Side) (size : string)
               (oid : OrderId) (r : Res unit)
| EFlashClose (bot symbol holdSide : string) (r : Res unit)
| EFindOpen (bot symbol : string) (r : Res (option Position))
| EStoreOpen (bot symbol price usd : string) (r : Res Position)
| EStoreAdd (pos : Position) (price usd : string) (r : Res unit)
| EStoreClose (pos : Position) (price : string) (r : Res unit)
| ECalculatePnL (pos : Position) (price : num) (r : Res PnL)
| EGetPositionInfo (pos : Position) (price : num) (r : Res PositionInfo).

(** The strategy object's two maps, and the world around it. *)
Record World := mkWorld {
  env : Env;
  store : Store;
  partialCloseStates : gmap string PartialCloseState;
  entryBlockStates : gmap string EntryBlockState;
  trace : list Event;
}.

(** *** Primitive computations *)

Definition emit (ev : Event) (w : World) : World :=
  {| env := env w; store := store w;
     partialCloseStates := partialCloseStates w;
     entryBlockStates := entryBlockStates w;
     trace := trace w ++ [ev] |}.

Definition with_env (e : Env) (w : World) : World :=
  {| env := e; store := store w;
     partialCloseStates := partialCloseStates w;
     entryBlockStates := entryBlockStates w;
     trace := trace w |}.

Definition with_store (s : Store) (w : World) : World :=
  {| env := env w; store := s;
     partialCloseStates := partialCloseStates w;
     entryBlockStates := entryBlockStates w;
     trace := trace w |}.

Definition with_partialCloseStates (m : gmap string PartialCloseState)
  (w : World) : World :=
  {| env := env w; store := store w;
     partialCloseStates := m;
     entryBlockStates := entryBlockStates w;
     trace := trace w |}.

Definition with_entryBlockStates (m : gmap string EntryBlockState)
  (w : World) : World :=
  {| env := env w; store := store w;
     partialCloseStates := partialCloseStates w;
     entryBlockStates := m;
     trace := trace w |}.

(** A call on something in [Env]. *)
Definition env_call {A} (port : Env -> Res A * Env) (ev : Res A -> Event)
  : M World A :=
  fun w => let '(r, e') := port (env w) in (r, emit (ev r) (with_env e' w)).

(** A call that changes the store. *)
Definition store_call {A} (port : Store -> Res A * Store)
  (ev : Res A -> Event) : M World A :=
  fun w => let '(r, s') := port (store w) in (r, emit (ev r) (with_store s' w)).

(** A call that reads the store. *)
Definition store_read {A} (port : Store -> Res A) (ev : Res A -> Event)
  : M World A :=
  fun w => let r := port (store w) in (r, emit (ev r) w).

Definition log (lvl : LogLevel) (m : LogMsg) : M World unit :=
  fun w => (Ok tt, emit (ELog lvl m) w).

(** [Date.now()] *)
Definition date_now : M World Z :=
  fun w => let '(t, e') := clock_port (env w) in
           (Ok t, emit (ENow t) (with_env e' w)).

(** [await bot.notify(text)] *)
Definition notify (bot : Bot) (n : Notice) : M World unit :=
  env_call (notify_port bot n) (ENotify (name bot) n).

(** [bot.exchange.isAllowed && !bot.exchange.isAllowed(symbolId)] *)
Definition not_allowed (bot : Bot) (symbolId : string) : M World bool :=
  if has_isAllowed (exchange bot) then
    ok <- env_call (isAllowed_port bot symbolId)
                   (EIsAllowed (name bot) symbolId) ;;
    ret (negb ok)
  else ret false.

(** [await bot.exchange.ensureLeverage?.(symbolId, leverage)] *)
Definition ensureLeverage (bot : Bot) (symbolId lev : string) : M World unit :=
  if has_ensureLeverage (exchange bot) then
    env_call (ensureLeverage_port bot symbolId lev)
             (EEnsureLeverage (name bot) symbolId lev)
  else ret tt.

(** [await bot.exchange.calcSizeFromUsd?.(symbolId, price, usd)] *)
Definition calcSizeFromUsd (bot : Bot) (symbolId : string) (price usd : num)
  : M World JsVal :=
  if has_calcSizeFromUsd (exchange bot) then
    env_call (calcSizeFromUsd_port bot symbolId price usd)
             (ECalcSizeFromUsd (name bot) symbolId price usd)
  else ret JUndefined.

(** [await bot.exchange.placeMarket?.(symbolId, side, size,
      `${bot.name}-${tag}-${Date.now()}`)]:
    the arguments, and with them the clock, are evaluated only when the
    method exists. *)
Definition placeMarket (bot : Bot) (symbolId : string) (side : Side)
  (size tag : string) : M World unit :=
  if has_placeMarket (exchange bot) then
    now <- date_now ;;
    let oid := {| oid_bot := name bot; oid_tag := tag; oid_time := now |} in
    env_call (placeMarket_port bot symbolId side size oid)
             (EPlaceMarket (name bot) symbolId side size oid)
  else ret tt.

(** [await bot.exchange.flashClose?.(symbol, 'long')] *)
Definition flashClose (bot : Bot) (symbol : string) : M World unit :=
  if has_flashClose (exchange bot) then
    env_call (flashClose_port bot symbol "long")
             (EFlashClose (name bot) symbol "long")
  else ret tt.

(** [await this.store.findOpen(botName, symbol)] *)
Definition findOpen (botName symbol : string) : M World (option Position) :=
  store_read (fun s => findOpen_port s botName symbol)
             (EFindOpen botName symbol).

(** [await this.store.open(botName, symbol, price, usd)] *)
Definition store_open (botName symbol price usd : string) : M World Position :=
  store_call (fun s => open_port s botName symbol price usd)
             (EStoreOpen botName symbol price usd).

(** [await this.store.add(position, price, usd)] *)
Definition store_add (p : Position) (price usd : string) : M World unit :=
  store_call (fun s => add_port s p price usd) (EStoreAdd p price usd).

(** [await this.store.close(position, price)] *)
Definition store_close (p : Position) (price : string) : M World unit :=
  store_call (fun s => close_port s p price) (EStoreClose p price).

(** [this.store.calculatePnL(position, price)] *)
Definition calculatePnL (p : Position) (price : num) : M World PnL :=
  store_read (fun s => calculatePnL_port s p price) (ECalculatePnL p price).

(** [this.store.getPositionInfo(position, price)] *)
Definition getPositionInfo (p : Position) (price : num)
  : M World PositionInfo :=
  store_read (fun s => getPositionInfo_port s p price)
             (EGetPositionInfo p price).

Definition get_partialCloseState (key : string)
  : M World (option PartialCloseState) :=
  fun w => (Ok (partialCloseStates w !! key), w).

Definition set_partialCloseState (key : string) (st : PartialCloseState)
  : M World unit :=
  fun w => (Ok tt,
            with_partialCloseStates (<[key := st]> (partialCloseStates w)) w).

Definition delete_partialCloseState (key : string) : M World unit :=
  fun w => (Ok tt,
            with_partialCloseStates (delete key (partialCloseStates w)) w).

Definition get_entryBlockState (key : string)
  : M World (option EntryBlockState) :=
  fun w => (Ok (entryBlockStates w !! key), w).

Definition set_entryBlockState (key : string) (st : EntryBlockState)
  : M World unit :=
  fun w => (Ok tt,
            with_entryBlockStates (<[key := st]> (entryBlockStates w)) w).

Definition delete_entryBlockState (key : string) : M World unit :=
  fun w => (Ok tt,
            with_entryBlockStates (delete key (entryBlockStates w)) w).

(** *** The methods of the class *)

Definition getStateKey (botName symbol : string) : string :=
  botName +:+ ":" +:+ symbol.

Definition getOrCreateState (botName symbol : string)
  : M World PartialCloseState :=
  let key := getStateKey botName symbol in
  state <- get_partialCloseState key ;;
  match state with
  | Some st => ret st
  | None =>
    now <- date_now ;;
    let st := {| pc_symbol := symbol; pc_botName := botName;
                 smartVolCloseCount := 0; lastUpdate := now |} in
    set_partialCloseState key st ;;;
    ret st
  end.

(** [state.smartVolCloseCount = n; state.lastUpdate = Date.now()], where
    [state] is the object [getOrCreateState] returned: the one the map holds
    under the key. *)
Definition set_close_count (botName symbol : string) (state : PartialCloseState)
  (n : Z) : M World unit :=
  now <- date_now ;;
  set_partialCloseState (getStateKey botName symbol)
    {| pc_symbol := pc_symbol state; pc_botName := pc_botName state;
       smartVolCloseCount := n; lastUpdate := now |}.

Definition clearState (botName symbol : string) : M World unit :=
  delete_partialCloseState (getStateKey botName symbol).

Definition isEntryBlocked (botName symbol : string) : M World bool :=
  let key := getStateKey botName symbol in
  blockState <- get_entryBlockState key ;;
  match blockState with
  | None => ret false
  | Some bs =>
    now <- date_now ;;
    if now >=? blockedUntil bs then
      delete_entryBlockState key ;;;
      ret false
    else ret true
  end.

Definition hour_ms : Z := 60 * 60 * 1000.

Definition blockEntry (botName symbol reason : string) : M World unit :=
  let key := getStateKey botName symbol in
  now <- date_now ;;
  let until := now + hour_ms in
  set_entryBlockState key
    {| eb_symbol := symbol; eb_botName := botName; blockedUntil := until |} ;;;
  log LLog (L_entry_block_set symbol botName reason until).

Definition getTimeUntilUnblock (botName symbol : string)
  : M World UnblockTime :=
  let key := getStateKey botName symbol in
  blockState <- get_entryBlockState key ;;
  match blockState with
  | None => ret NotBlocked
  | Some bs =>
    now <- date_now ;;
    if now >=? blockedUntil bs then ret Unblocked
    else
      let remainingMs := blockedUntil bs - now in
      let hours := remainingMs / (1000 * 60 * 60) in
      let minutes := (remainingMs mod (1000 * 60 * 60)) / (1000 * 60) in
      ret (Remaining hours minutes)
  end.

(** [bot.cfg.maxFills ?? 4] *)
Definition maxFills_or_4 (bot : Bot) : Z := default 4 (maxFills (cfg bot)).

(** [!usd || isNaN(usd)] *)
Definition usd_unusable (usd : num) : bool :=
  negb (num_truthy usd) || num_isNaN usd.

(** [alert.timeframe || '1h'] *)
Definition timeframe_or_1h (a : Alert) : JsVal :=
  js_or (timeframe a) (JStr "1h").

Definition onAdd (bot : Bot) (a : Alert) : M World unit :=
  log LLog (L_onAdd (symbol a) (price a)) ;;;
  existing <- findOpen (name bot) (symbol a) ;;
  match existing with
  | None => log LLog (L_add_no_position (symbol a) (name bot))
  | Some existing =>
    if fillsCount existing >=? maxFills_or_4 bot then
      notify bot (NMaxFills (name bot) (symbol a))
    else
      let addUsd := addUsd bot in
      if usd_unusable addUsd then
        log LError (L_addUsd_error addUsd) ;;;
        notify bot (NAddUsdMissing (name bot))
      else
        let symbolId := toBitgetSymbolId (symbol a) in
        size <- calcSizeFromUsd bot symbolId (num_of_string (price a)) addUsd ;;
        placeMarket bot symbolId buy (js_String size) "add" ;;;
        store_add existing (price a) (num_to_string addUsd) ;;;
        updatedPosition <- findOpen (name bot) (symbol a) ;;
        match updatedPosition with
        | Some updated =>
          positionInfo <- getPositionInfo updated (num_of_string (price a)) ;;
          notify bot (NAdded (name bot) (symbol a) (price a) addUsd positionInfo)
        | None =>
          notify bot (NAddedPlain (name bot) (symbol a) (price a) addUsd)
        end
  end.

Definition onOpen (bot : Bot) (a : Alert) : M World unit :=
  log LLog (L_onOpen (symbol a) (price a)) ;;;
  blocked <- isEntryBlocked (name bot) (symbol a) ;;
  if blocked then
    timeUntilUnblock <- getTimeUntilUnblock (name bot) (symbol a) ;;
    log LLog (L_entry_blocked (symbol a) (name bot) timeUntilUnblock) ;;;
    notify bot (NEntryBlocked (name bot) (symbol a) timeUntilUnblock)
  else
    let timeframe := timeframe_or_1h a in
    if negb (js_is_str timeframe "1h") then
      log LLog (L_open_timeframe_skipped timeframe) ;;;
      notify bot (NTimeframeSkipped (name bot) timeframe)
    else
      log LLog (L_checking_existing (symbol a)) ;;;
      existing <- findOpen (name bot) (symbol a) ;;
      match existing with
      | Some existing =>
        log LLog (L_found_existing (fillsCount existing) (maxFills_or_4 bot)) ;;;
        if fillsCount existing >=? maxFills_or_4 bot then
          log LLog L_max_fills ;;;
          notify bot (NMaxFills (name bot) (symbol a))
        else
          log LLog L_going_to_add ;;;
          onAdd bot a
      | None =>
        log LLog L_opening_new ;;;
        let symbolId := toBitgetSymbolId (symbol a) in
        log LLog (L_symbol_id symbolId) ;;;
        refused <- not_allowed bot symbolId ;;
        if refused then
          log LLog (L_not_allowed symbolId) ;;;
          notify bot (NNotAllowed (name bot) symbolId)
        else
          log LLog (L_allowed symbolId) ;;;
          log LLog (L_set_leverage (leverage (cfg bot))) ;;;
          ensureLeverage bot symbolId (num_to_string (leverage (cfg bot))) ;;;
          log LLog (L_calc_size (baseUsd bot)) ;;;
          size <- calcSizeFromUsd bot symbolId (num_of_string (price a))
                                  (baseUsd bot) ;;
          log LLog (L_size size) ;;;
          log LLog L_placing_order ;;;
          placeMarket bot symbolId buy (js_String size) "open" ;;;
          let baseUsd := baseUsd bot in
          if usd_unusable baseUsd then
            log LError (L_baseUsd_error baseUsd) ;;;
            notify bot (NBaseUsdMissing (name bot))
          else
            log LLog (L_creating_position (name bot) (symbol a) (price a)
                                          baseUsd) ;;;
            position <- store_open (name bot) (symbol a) (price a)
                                   (num_to_string baseUsd) ;;
            log LLog (L_position_created (pos_id position)) ;;;
            getOrCreateState (name bot) (symbol a) ;;;
            positionInfo <- getPositionInfo position
                                            (num_of_string (price a)) ;;
            notify bot (NOpened (name bot) (symbol a) (price a) baseUsd
                                positionInfo)
      end.

Definition onClose (bot : Bot) (a : Alert) : M World unit :=
  log LLog (L_onClose (timeframe_or_1h a) (symbol a)) ;;;
  existing <- findOpen (name bot) (symbol a) ;;
  match existing with
  | None => log LLog (L_close_no_position (symbol a) (name bot))
  | Some existing =>
    let timeframe := timeframe_or_1h a in
    if js_is_str timeframe "4h" then
      log LLog (L_close_4h (symbol a)) ;;;
      try_catch
        (flashClose bot (symbol a) ;;;
         finalPnL <- calculatePnL existing (num_of_string (price a)) ;;
         store_close existing (price a) ;;;
         clearState (name bot) (symbol a) ;;;
         notify bot (NClosed4h (name bot) (symbol a) (price a) finalPnL))
        (fun error =>
           log LError (L_close_error (symbol a) (message error)) ;;;
           throw error)
    else
      state <- getOrCreateState (name bot) (symbol a) ;;
      let currentCount := smartVolCloseCount state in
      if currentCount =? 0 then
        log LLog (L_first_close (symbol a)) ;;;
        set_close_count (name bot) (symbol a) state 1 ;;;
        notify bot (NFirstClose (name bot) (symbol a))
      else if currentCount =? 1 then
        log LLog (L_second_close (symbol a)) ;;;
        try_catch
          (let currentSize := parseFloat (amountUsd existing) in
           let closeSize := num_mul currentSize num_half in
           let avgPrice := parseFloat (avgEntryPrice existing) in
           let closeTokens := num_div closeSize avgPrice in
           placeMarket bot (toBitgetSymbolId (symbol a)) sell
                       (toFixed closeTokens 8) "partial-close" ;;;
           set_close_count (name bot) (symbol a) state 2 ;;;
           notify bot (NPartialClose (name bot) (symbol a) (price a)
                         (toFixed closeSize 2)
                         (toFixed (num_sub currentSize closeSize) 2)))
          (fun error =>
             log LError (L_partial_close_error (symbol a) (message error)) ;;;
             throw error)
      else if currentCount >=? 2 then
        log LLog (L_nth_close (currentCount + 1) (symbol a)) ;;;
        try_catch
          (flashClose bot (symbol a) ;;;
           finalPnL <- calculatePnL existing (num_of_string (price a)) ;;
           store_close existing (price a) ;;;
           clearState (name bot) (symbol a) ;;;
           notify bot (NFinalClose (name bot) (symbol a) (price a) finalPnL))
          (fun error =>
             log LError (L_close_error (symbol a) (message error)) ;;;
             throw error)
      else ret tt
  end.

Definition onBigClose (bot : Bot) (a : Alert) : M World unit :=
  log LLog (L_onBigClose (symbol a)) ;;;
  existing <- findOpen (name bot) (symbol a) ;;
  match existing with
  | None => log LLog (L_close_no_position (symbol a) (name bot))
  | Some existing =>
    try_catch
      (flashClose bot (symbol a) ;;;
       finalPnL <- calculatePnL existing (num_of_string (price a)) ;;
       store_close existing (price a) ;;;
       clearState (name bot) (symbol a) ;;;
       notify bot (NBigClose (name bot) (symbol a) (price a) finalPnL))
      (fun error =>
         log LError (L_big_close_error (symbol a) (message error)) ;;;
         throw error)
  end.

Definition onBigAdd (bot : Bot) (a : Alert) : M World unit :=
  log LLog (L_onBigAdd (symbol a)) ;;;
  notify bot (NBigAdd (name bot) (symbol a) (price a)).

Definition onSmartVolumeOpen (bot : Bot) (a : Alert) : M World unit :=
  log LLog L_smartVolumeOpen_unused.

Definition onBullishVolume (bot : Bot) (a : Alert) : M World unit :=
  log LLog L_bullishVolume_unused.

Definition onVolumeUp (bot : Bot) (a : Alert) : M World unit :=
  log LLog L_volumeUp_unused.

Definition onFixedShortSynchronization (bot : Bot) (a : Alert)
  : M World unit :=
  log LLog (L_fixed_short (symbol a) (name bot)) ;;;
  let timeframe := timeframe_or_1h a in
  if negb (js_is_str timeframe "1h") then
    log LLog (L_fixed_short_skipped timeframe)
  else
    blockEntry (name bot) (symbol a) "Fixed Short Synchronization" ;;;
    now <- date_now ;;
    notify bot (NFixedShortSync (name bot) (symbol a) (price a)
                                (now + hour_ms)).

Definition onLiveShortSynchronization (bot : Bot) (a : Alert)
  : M World unit :=
  log LLog (L_live_short (symbol a) (name bot)) ;;;
  let timeframe := timeframe_or_1h a in
  if negb (js_is_str timeframe "1h") then
    log LLog (L_live_short_skipped timeframe)
  else
    blockEntry (name bot) (symbol a) "Live Short Synchronization" ;;;
    now <- date_now ;;
    notify bot (NLiveShortSync (name bot) (symbol a) (price a)
                               (now + hour_ms)).

(** *** Observations on a trace *)

(** An order sent to the exchange. *)
Definition is_order (ev : Event) : bool :=
  match ev with
  | EPlaceMarket _ _ _ _ _ _ | EFlashClose _ _ _ _ => true
  | _ => false
  end.

(** A call that changes the positions store. *)
Definition is_store_mutation (ev : Event) : bool :=
  match ev with
  | EStoreOpen _ _ _ _ _ | EStoreAdd _ _ _ _ | EStoreClose _ _ _ => true
  | _ => false
  end.

(** Any call on the positions store. *)
Definition is_store_call (ev : Event) : bool :=
  match ev with
  | EFindOpen _ _ _ | EStoreOpen _ _ _ _ _ | EStoreAdd _ _ _ _
  | EStoreClose _ _ _ | ECalculatePnL _ _ _ | EGetPositionInfo _ _ _ => true
  | _ => false
  end.

Definition is_notification (ev : Event) : bool :=
  match ev with
  | ENotify _ _ _ => true
  | _ => false
  end.

(** An order the exchange refused by throwing. *)
Definition is_failed_order (ev : Event) : bool :=
  match ev with
  | EPlaceMarket _ _ _ _ _ (Throw _) | EFlashClose _ _ _ (Throw _) => true
  | _ => false
  end.

(** The notices sent, in order. *)
Fixpoint notices (d : list Event) : list Notice :=
  match d with
  | [] => []
  | ENotify _ n _ :: d' => n :: notices d'
  | _ :: d' => notices d'
  end.

(** The partial-close counter of a key: 0 while no state is held. *)
Definition closeCount (w : World) (botName symbol : string) : Z :=
  match partialCloseStates w !! getStateKey botName symbol with
  | Some st => smartVolCloseCount st
  | None => 0
  end.

(** The key is blocked for a reader whose clock shows [now]. *)
Definition blocked_at (w : World) (botName symbol : string) (now : Z) : Prop :=
  exists bs, entryBlockStates w !! getStateKey botName symbol = Some bs
             /\ now < blockedUntil bs.

(** The world with [d] appended to its trace and nothing else changed. *)
Definition add_events (d : list Event) (w : World) : World :=
  {| env := env w; store := store w;
     partialCloseStates := partialCloseStates w;
     entryBlockStates := entryBlockStates w;
     trace := trace w ++ d |}.

(** The orders sent and the store mutations issued, in order. *)
Definition orders (d : list Event) : list Event := List.filter is_order d.

Definition store_mutations (d : list Event) : list Event :=
  List.filter is_store_mutation d.

Definition store_calls (d : list Event) : list Event :=
  List.filter is_store_call d.




(** The exchange of the bot implements the two order methods. *)
Definition takes_orders (bot : Bot) : Prop :=
  has_placeMarket (exchange bot) = true /\ has_flashClose (exchange bot) = true.

(** The exchange accepts every order of the bot. *)
Definition accepts_orders (bot : Bot) : Prop :=
  (forall sid side size oid e,
      (placeMarket_port bot sid side size oid e).1 = Ok tt)
  /\ (forall sym hold e, (flashClose_port bot sym hold e).1 = Ok tt).

(** The exchange allows every symbol and answers every preparatory call. *)
Definition prepares_orders (bot : Bot) : Prop :=
  (forall sid e, (isAllowed_port bot sid e).1 = Ok true)
  /\ (forall sid lev e, (ensureLeverage_port bot sid lev e).1 = Ok tt)
  /\ (forall sid p u e, is_ok (calcSizeFromUsd_port bot sid p u e).1 = true).

(** The alert's timeframe counts as "1h": it is "1h", or it is not given
    (absent, [null], empty, or any other falsy value). *)
Definition timeframe_unset (a : Alert) : Prop := js_truthy (timeframe a) = false.

(** The same alert with another timeframe. *)
Definition with_timeframe (a : Alert) (tf : JsVal) : Alert :=
  {| kind := kind a; type := type a; symbol := symbol a; price := price a;
     timeframe := tf; volume := volume a |}.

(** What the method adds to the trace of [w]. *)
Definition adds (m : M World unit) (w : World) (d : list Event) : Prop :=
  trace (m w).2 = trace w ++ d.

(** The words of the specification for a SmartOpen that is "silently
    ignored": no order, no store mutation, no change of state, and no
    notification. *)
Definition ignored_in_silence (bot : Bot) (a : Alert) (w : World) : Prop :=
  exists d,
    adds (onOpen bot a) w d
    /\ orders d = [] /\ store_mutations d = [] /\ notices d = []
    /\ store (onOpen bot a w).2 = store w
    /\ partialCloseStates (onOpen bot a w).2 = partialCloseStates w.

(** The words of the specification for an alert arriving at a full
    position: no order, the position as it was, and the "max fills reached"
    notice sent. *)
Definition refused_as_full (m : M World unit) (bot : Bot) (a : Alert)
  (w : World) : Prop :=
  exists d,
    adds m w d
    /\ orders d = [] /\ store_mutations d = []
    /\ store (m w).2 = store w
    /\ NMaxFills (name bot) (symbol a) ∈ notices d.

(** The entry of the key, if any, has run out for a reader of the clock
    of [w]. *)
Definition entry_free (w : World) (botName symbol : string) : Prop :=
  match entryBlockStates w !! getStateKey botName symbol with
  | None => True
  | Some bs => blockedUntil bs <= (clock_port (env w)).1
  end.

(** Every close counter held is 0, 1 or 2. *)
Definition counts_bounded (w : World) : Prop :=
  forall k st, partialCloseStates w !! k = Some st ->
               0 <= smartVolCloseCount st <= 2.

(** The string has no ':' in it. *)
Fixpoint no_colon (s : string) : bool :=
  match s with
  | EmptyString => true
  | String c s' => negb (Ascii.eqb c (Ascii.ascii_of_nat 58)) && no_colon s'
  end.

(** The alert handlers of the strategy. *)
Definition handlers (bot : Bot) (a : Alert) : list (M World unit) :=
  [ onOpen bot a; onAdd bot a; onClose bot a; onBigClose bot a;
    onBigAdd bot a; onSmartVolumeOpen bot a; onBullishVolume bot a;
    onVolumeUp bot a; onFixedShortSynchronization bot a;
    onLiveShortSynchronization bot a ].

(** The handlers other than the two closes. *)
Definition non_closing_handlers (bot : Bot) (a : Alert)
  : list (M World unit) :=
  [ onOpen bot a; onAdd bot a; onBigAdd bot a; onSmartVolumeOpen bot a;
    onBullishVolume bot a; onVolumeUp bot a;
    onFixedShortSynchronization bot a; onLiveShortSynchronization bot a ].

(** The handlers that never look at the entry blocks. *)
Definition unblockable_handlers (bot : Bot) (a : Alert)
  : list (M World unit) :=
  [ onAdd bot a; onClose bot a; onBigClose bot a; onBigAdd bot a ].

(** The calls on the exchange, of any kind. *)
Definition is_exchange_call (ev : Event) : bool :=
  match ev with
  | EIsAllowed _ _ _ | EEnsureLeverage _ _ _ _ | ECalcSizeFromUsd _ _ _ _ _
  | EPlaceMarket _ _ _ _ _ _ | EFlashClose _ _ _ _ => true
  | _ => false
  end.

Definition exchange_calls (d : list Event) : list Event :=
  List.filter is_exchange_call d.

(** The relation [R] holds between the world a computation starts in and
    the world it leaves, whatever it returns. *)
Definition keeps {A} (R : World -> World -> Prop) (m : M World A) : Prop :=
  forall w, R w (m w).2.

(** The two maps agree off the key. *)
Definition agree_off (key : string) (w w' : World) : Prop :=
  forall k, k <> key ->
    partialCloseStates w' !! k = partialCloseStates w !! k
    /\ entryBlockStates w' !! k = entryBlockStates w !! k.

(** Bounded counters stay bounded. *)
Definition bounded_step (w w' : World) : Prop :=
  counts_bounded w -> counts_bounded w'.

(** Every key counts what it counted. *)
Definition same_counts (w w' : World) : Prop :=
  forall botName sym, closeCount w' botName sym = closeCount w botName sym.

(** The entry blocks are the same. *)
Definition same_blocks (w w' : World) : Prop :=
  entryBlockStates w' = entryBlockStates w.

(** Nothing was asked of the exchange or of the store. *)
Definition no_trade (w w' : World) : Prop :=
  store w' = store w
  /\ exists d, trace w' = trace w ++ d
               /\ exchange_calls d = [] /\ store_calls d = [].

(** The handlers that only log, notify or block. *)
Definition passive_handlers (bot : Bot) (a : Alert) : list (M World unit) :=
  [ onBigAdd bot a; onSmartVolumeOpen bot a; onBullishVolume bot a;
    onVolumeUp bot a; onFixedShortSynchronization bot a;
    onLiveShortSynchronization bot a ].

(** The computation runs the same whatever the entry blocks are, and hands
    them on as it found them. *)
Definition blind_to_blocks {A} (m : M World A) : Prop :=
  forall blocks w,
    m (with_entryBlockStates blocks w)
    = ((m w).1, with_entryBlockStates blocks (m w).2).

End Strategy.
End Strategy.

(** ** A small system to run the code on

    Numbers are exact rationals ([None] is NaN) read from unsigned integer
    literals; the clock advances by one millisecond per reading; the
    exchange accepts every order; the store keeps the open positions in a
    list. *)

Module Example.

Abbreviation Q := QArith_base.Q.

Definition digit_of (c : Ascii.ascii) : option Z :=
  let n := Z.of_nat (Ascii.nat_of_ascii c) in
  if (48 <=? n) && (n <=? 57) then Some (n - 48) else None.

Fixpoint parse_digits (s : string) (acc : Z) : option Z :=
  match s with
  | EmptyString => Some acc
  | String c s' =>
    match digit_of c with
    | Some d => parse_digits s' (10 * acc + d)
    | None => None
    end
  end.

Fixpoint show_digits (fuel : nat) (n : Z) (acc : string) : string :=
  match fuel with
  | O => acc
  | S fuel' =>
    let acc' := String (Ascii.ascii_of_nat (Z.to_nat (48 + n mod 10))) acc in
    if n / 10 =? 0 then acc' else show_digits fuel' (n / 10) acc'
  end.

(** Decimal digits of an integer (up to 40 of them). *)
Definition show_Z (z : Z) : string :=
  if z <? 0 then "-" +:+ show_digits 40 (- z) "" else show_digits 40 z "".

Definition q_of_string (s : string) : option Q :=
  (fun z => QArith_base.Qmake z 1) <$> parse_digits s 0.

Definition q_lift2 (f : Q -> Q -> Q) (a b : option Q) : option Q :=
  match a, b with
  | Some x, Some y => Some (f x y)
  | _, _ => None
  end.

Definition q_to_string (a : option Q) : string :=
  match a with
  | Some q => show_Z (QArith_base.Qnum q) +:+ "/"
              +:+ show_Z (Zpos (QArith_base.Qden q))
  | None => "NaN"
  end.

#[export] Instance exact_numbers : JsNumber := {|
  num := option Q;
  num_nan := None;
  num_zero := Some (QArith_base.Qmake 0 1);
  num_one := Some (QArith_base.Qmake 1 1);
  num_half := Some (QArith_base.Qmake 1 2);
  num_of_string := q_of_string;
  parseFloat := fun s => if decide (s = "") then None else q_of_string s;
  num_to_string := q_to_string;
  num_isNaN := fun a => match a with None => true | Some _ => false end;
  num_truthy := fun a =>
    match a with
    | Some q => negb (QArith_base.Qnum q =? 0)
    | None => false
    end;
  num_mul := q_lift2 QArith_base.Qmult;
  num_div := fun a b =>
    match b with
    | Some q => if QArith_base.Qnum q =? 0 then None else q_lift2 QArith_base.Qdiv a b
    | None => None
    end;
  num_sub := q_lift2 QArith_base.Qminus;
  toFixed := fun a d =>
    match a with
    | Some q =>
      show_Z (QArith_base.Qnum q * 10 ^ Z.of_nat d
              / Zpos (QArith_base.Qden q))
      +:+ "e-" +:+ show_Z (Z.of_nat d)
    | None => "NaN"
    end;
|}.

Definition StoreModel : Type := list (string * string * Strategy.Position).

Fixpoint lookup_open (s : StoreModel) (bot sym : string)
  : option Strategy.Position :=
  match s with
  | [] => None
  | (b, y, p) :: s' =>
    if decide (b = bot /\ y = sym) then Some p else lookup_open s' bot sym
  end.

Definition no_pnl : Strategy.PnL :=
  Strategy.mkPnL JUndefined JUndefined JUndefined JUndefined JUndefined.

#[export] Instance calm_market : Strategy.Externals := {|
  Strategy.Env := Z;
  Strategy.Store := StoreModel;
  Strategy.toBitgetSymbolId := fun s => s;
  Strategy.clock_port := fun t => (t, t + 1);
  Strategy.notify_port := fun _ _ t => (Ok tt, t);
  Strategy.isAllowed_port := fun _ _ t => (Ok true, t);
  Strategy.ensureLeverage_port := fun _ _ _ t => (Ok tt, t);
  Strategy.calcSizeFromUsd_port := fun _ _ _ _ t => (Ok (JStr "1"), t);
  Strategy.placeMarket_port := fun _ _ _ _ _ t => (Ok tt, t);
  Strategy.flashClose_port := fun _ _ _ t => (Ok tt, t);
  Strategy.findOpen_port := fun s b y => Ok (lookup_open s b y);
  Strategy.open_port := fun s b y price usd =>
    let p := Strategy.mkPosition (Z.of_nat (length s)) 1 price usd in
    (Ok p, (b, y, p) :: s);
  Strategy.add_port := fun s p price usd =>
    (Ok tt,
     List.map (fun e : string * string * Strategy.Position =>
       if Strategy.pos_id (e.2) =? Strategy.pos_id p
       then (e.1, Strategy.mkPosition (Strategy.pos_id p)
                    (Strategy.fillsCount (e.2) + 1)
                    (Strategy.avgEntryPrice (e.2))
                    (Strategy.amountUsd (e.2)))
       else e) s);
  Strategy.close_port := fun s p price =>
    (Ok tt,
     List.filter (fun e : string * string * Strategy.Position =>
                    negb (Strategy.pos_id (e.2) =? Strategy.pos_id p)) s);
  Strategy.calculatePnL_port := fun _ _ _ => Ok no_pnl;
  Strategy.getPositionInfo_port := fun _ _ _ =>
    Ok (Strategy.mkPositionInfo None);
|}.

(** Bot handlers for the router: a bot named "bad" throws, the others
    return; the system state counts the invocations. *)
#[export] Instance one_bad_bot : Router.Handlers := {|
  Router.Sys := nat;
  Router.process_port := fun b _ n =>
    (if decide (name b = "bad") then Throw (RuntimeError "boom") else Ok tt,
     S n);
  Router.domination_port := fun _ b _ n =>
    (if decide (name b = "bad") then Throw (RuntimeError "boom") else Ok tt,
     S n);
|}.

(** Bot handlers that reject without an [Error]: [bot.process] of the bot
    named "bad" rejects with [undefined] (as [Promise.reject()] does), the
    domination strategy rejects with [null] for it; the others return. *)
#[export] Instance empty_handed_bot : Rejections.Handlers := {|
  Rejections.Sys := nat;
  Rejections.process_port := fun b _ n =>
    (if decide (name b = "bad")
     then Rejections.Rejected (Rejections.TValue JUndefined)
     else Rejections.Returned tt,
     S n);
  Rejections.domination_port := fun _ b _ n =>
    (if decide (name b = "bad")
     then Rejections.Rejected (Rejections.TValue JNull)
     else Rejections.Returned tt,
     S n);
|}.

Definition everything : Exchange := mkExchange true true true true true.

Definition bot_cfg (tag : string) (filter : option (list string)) : BotCfg :=
  mkBotCfg filter tag (Some 2) (Some (QArith_base.Qmake 3 1)).

Definition mk_bot (nm tag : string) (filter : option (list string)) : Bot :=
  mkBot nm (bot_cfg tag filter) everything
        (Some (QArith_base.Qmake 100 1)) (Some (QArith_base.Qmake 50 1)).

Definition alice : Bot := mk_bot "alice" "smartvol" None.

Definition alert_of (ty : string) (tf : JsVal) : Alert :=
  mkAlert smartvol ty "BTCUSDT" "50000" tf None.

Definition btc : Strategy.Position := Strategy.mkPosition 0 1 "50000" "100".
Definition btc_full : Strategy.Position := Strategy.mkPosition 0 2 "50000" "150".

Definition world_of (now : Z) (s : StoreModel)
  (blocks : gmap string Strategy.EntryBlockState) : Strategy.World :=
  Strategy.mkWorld now s ∅ blocks [].

Definition blocked_until (t : Z) : gmap string Strategy.EntryBlockState :=
  {[ "alice:BTCUSDT" := Strategy.mkEntryBlockState "BTCUSDT" "alice" t ]}.

Definition bad : Bot := mk_bot "bad" "smartvol" None.
Definition carol : Bot := mk_bot "carol" "smartvol" (Some ["ETHUSDT"]).
Definition dave : Bot := mk_bot "dave" "smartvol" (Some ["BTCUSDT"]).
Definition bad_dom : Bot := mk_bot "bad" "domination" None.
Definition dora : Bot := mk_bot "dora" "domination" None.

Definition registry : list Bot := [alice; bad; carol; dave; bad_dom; dora].

Definition payload_of (ty : string) : JsVal :=
  JObj [("alertName", JStr ty); ("symbol", JStr "BTCUSDT");
        ("price", JStr "50000")].

Definition still : Rejections.RWorld := Rejections.mkRWorld 0%nat [].

Definition quiet : Router.RWorld := Router.mkRWorld 0%nat [].

Definition smart_open_1h : Alert := alert_of "SmartOpen" (JStr "1h").
Definition smart_open_4h : Alert := alert_of "SmartOpen" (JStr "4h").
Definition smart_open_unset : Alert := alert_of "SmartOpen" JUndefined.
Definition smart_add : Alert := alert_of "SmartVolAdd" JUndefined.
Definition smart_close_1h : Alert := alert_of "SmartClose" (JStr "1h").
Definition smart_close_unset : Alert := alert_of "SmartClose" (JStr "").
Definition synchronization_1h : Alert :=
  alert_of "Fixed Short Synchronization" (JStr "1h").
Definition synchronization_4h : Alert :=
  alert_of "Fixed Short Synchronization" (JStr "4h").

(** No position, nothing counted, nothing blocked; the clock shows 1000. *)
Definition w_empty : Strategy.World := world_of 1000 [] ∅.

(** One open position of alice, one fill. *)
Definition w_open : Strategy.World :=
  world_of 1000 [("alice", "BTCUSDT", btc)] ∅.

(** The position has alice's two fills, her maximum. *)
Definition w_full : Strategy.World :=
  world_of 1000 [("alice", "BTCUSDT", btc_full)] ∅.

(** Alice is blocked until 3 601 000; the clock shows 2000. *)
Definition w_blocked : Strategy.World :=
  world_of 2000 [("alice", "BTCUSDT", btc)] (blocked_until 3601000).

(** The same block, read when it has just run out. *)
Definition w_expired : Strategy.World :=
  world_of 3601000 [] (blocked_until 3601000).

(** An exchange that throws on every order; everything else as in
    [calm_market]. *)
Definition closed_market : Strategy.Externals := {|
  Strategy.Env := Z;
  Strategy.Store := StoreModel;
  Strategy.toBitgetSymbolId := fun s => s;
  Strategy.clock_port := fun t => (t, t + 1);
  Strategy.notify_port := fun _ _ t => (Ok tt, t);
  Strategy.isAllowed_port := fun _ _ t => (Ok true, t);
  Strategy.ensureLeverage_port := fun _ _ _ t => (Ok tt, t);
  Strategy.calcSizeFromUsd_port := fun _ _ _ _ t => (Ok (JStr "1"), t);
  Strategy.placeMarket_port := fun _ _ _ _ _ t =>
    (Throw (RuntimeError "exchange closed"), t);
  Strategy.flashClose_port := fun _ _ _ t =>
    (Throw (RuntimeError "exchange closed"), t);
  Strategy.findOpen_port := fun s b y => Ok (lookup_open s b y);
  Strategy.open_port := fun s b y price usd =>
    let p := Strategy.mkPosition (Z.of_nat (length s)) 1 price usd in
    (Ok p, (b, y, p) :: s);
  Strategy.add_port := fun s p price usd => (Ok tt, s);
  Strategy.close_port := fun s p price => (Ok tt, []);
  Strategy.calculatePnL_port := fun _ _ _ => Ok no_pnl;
  Strategy.getPositionInfo_port := fun _ _ _ =>
    Ok (Strategy.mkPositionInfo None);
|}.

Definition w_open_closed_market : @Strategy.World _ closed_market :=
  @Strategy.mkWorld _ closed_market 1000 [("alice", "BTCUSDT", btc)] ∅ ∅ [].

(** A bot whose USD amounts are not numbers. *)
Definition zoe : Bot :=
  mkBot "zoe" (bot_cfg "smartvol" None) everything None None.

Definition smart_close_4h : Alert := alert_of "SmartClose" (JStr "4h").
Definition smart_close_15m : Alert := alert_of "SmartClose" (JStr "15m").
Definition smart_big_close : Alert := alert_of "SmartBigClose" (JStr "15m").
Definition smart_big_add : Alert := alert_of "SmartBigAdd" JUndefined.

(** Alice's position, with one close counted. *)
Definition w_counted : Strategy.World :=
  Strategy.mkWorld 1000 [("alice", "BTCUSDT", btc)]
    {[ "alice:BTCUSDT" :=
         Strategy.mkPartialCloseState "BTCUSDT" "alice" 1 900 ]}
    ∅ [].

(** Zoe's position. *)
Definition w_zoe : Strategy.World :=
  world_of 1000 [("zoe", "BTCUSDT", btc)] ∅.

(** An exchange that allows no symbol; everything else as in
    [calm_market]. *)
Definition picky_market : Strategy.Externals := {|
  Strategy.Env := Z;
  Strategy.Store := StoreModel;
  Strategy.toBitgetSymbolId := fun s => s;
  Strategy.clock_port := fun t => (t, t + 1);
  Strategy.notify_port := fun _ _ t => (Ok tt, t);
  Strategy.isAllowed_port := fun _ _ t => (Ok false, t);
  Strategy.ensureLeverage_port := fun _ _ _ t => (Ok tt, t);
  Strategy.calcSizeFromUsd_port := fun _ _ _ _ t => (Ok (JStr "1"), t);
  Strategy.placeMarket_port := fun _ _ _ _ _ t => (Ok tt, t);
  Strategy.flashClose_port := fun _ _ _ t => (Ok tt, t);
  Strategy.findOpen_port := fun s b y => Ok (lookup_open s b y);
  Strategy.open_port := fun s b y price usd =>
    let p := Strategy.mkPosition (Z.of_nat (length s)) 1 price usd in
    (Ok p, (b, y, p) :: s);
  Strategy.add_port := fun s p price usd => (Ok tt, s);
  Strategy.close_port := fun s p price => (Ok tt, []);
  Strategy.calculatePnL_port := fun _ _ _ => Ok no_pnl;
  Strategy.getPositionInfo_port := fun _ _ _ =>
    Ok (Strategy.mkPositionInfo None);
|}.

Definition w_empty_picky_market : @Strategy.World _ picky_market :=
  @Strategy.mkWorld _ picky_market 1000 [] ∅ ∅ [].



Definition volume_up_payload : JsVal :=
  JObj [("alertName", JStr "VolumeUp"); ("symbol", JStr "BTCUSDT");
        ("price", JStr "50000"); ("volume", JStr "7");
        ("timeframe", JStr "1h")].

End Example.

(** * Properties *)

(** ** The classifier *)

Ltac orb_true :=
  repeat first [rewrite orb_true_r | progress cbn [andb orb negb]];
  try reflexivity.

Section ClassifierFacts.
Context `{JsNumber}.

Lemma includes_true (l : list string) (s : string) :
  includes l s = true <-> s ∈ l.
Proof. unfold includes. case_decide; naive_solver. Qed.

Lemma smartvol_not_domination (s : string) :
  includes smartvol_types s = true -> includes domination_types s = false.
Proof.
  rewrite includes_true. unfold smartvol_types.
  rewrite !elem_of_cons, elem_of_nil.
  intros Hs.
  repeat (destruct Hs as [-> | Hs]; [reflexivity |]).
  destruct Hs.
Qed.

Lemma VolumeUp_is_smartvol : includes smartvol_types "VolumeUp" = true.
Proof. reflexivity. Qed.

Lemma toAlert_rejects (p : JsVal) :
  must_fail p = true -> validation_error (toAlert p).
Proof.
  unfold must_fail, validation_error, has_discriminator, named_type,
    missing_text, missing_value, toAlert.
  destruct p as [| | b | n | s | fs]; try (intros _; eauto; fail).
  cbn [js_get].
  destruct (has_field "alertName" fs); cbn [negb orb]; [| eauto].
  destruct (includes smartvol_types _) eqn:Hsv; cbn [negb orb].
  - destruct (negb (js_truthy (get_field "symbol" fs))); cbn [orb]; [eauto |].
    destruct (js_nullish (get_field "price" fs)); cbn [orb]; [eauto |].
    case_decide; cbn [andb]; [| discriminate].
    destruct (js_nullish (get_field "volume" fs)); cbn [orb]; [eauto |].
    destruct (negb (js_truthy (get_field "timeframe" fs))); [eauto |].
    discriminate.
  - destruct (includes domination_types _) eqn:Hdom; cbn [negb orb]; [| eauto].
    destruct (negb (js_truthy (get_field "symbol" fs))); cbn [orb]; [eauto |].
    destruct (js_nullish (get_field "price" fs)); cbn [orb]; [eauto |].
    case_decide as Hvu; cbn [andb]; [| discriminate].
    rewrite Hvu in Hsv. discriminate Hsv.
Qed.

Lemma toAlert_accepts (p : JsVal) :
  must_fail p = false ->
  exists a, toAlert p = Ok a
    /\ type a = named_type p
    /\ symbol a = js_String (js_get p "symbol")
    /\ price a = js_String (js_get p "price")
    /\ kind a = (if includes smartvol_types (named_type p)
                 then smartvol else domination).
Proof.
  unfold must_fail, has_discriminator, named_type,
    missing_text, missing_value, toAlert.
  destruct p as [| | b | n | s | fs]; try discriminate.
  cbn [js_get].
  destruct (has_field "alertName" fs); cbn [negb orb]; [| discriminate].
  destruct (includes smartvol_types _) eqn:Hsv; cbn [negb orb].
  - destruct (negb (js_truthy (get_field "symbol" fs))); cbn [orb];
      [discriminate |].
    destruct (js_nullish (get_field "price" fs)); cbn [orb]; [discriminate |].
    case_decide; cbn [andb].
    + destruct (js_nullish (get_field "volume" fs)); cbn [orb];
        [discriminate |].
      destruct (negb (js_truthy (get_field "timeframe" fs)));
        [discriminate |].
      intros _. eexists. repeat split.
    + intros _. eexists. repeat split.
  - destruct (includes domination_types _) eqn:Hdom; cbn [negb orb];
      [| discriminate].
    destruct (negb (js_truthy (get_field "symbol" fs))); cbn [orb];
      [discriminate |].
    destruct (js_nullish (get_field "price" fs)); cbn [orb]; [discriminate |].
    intros _. eexists. repeat split.
Qed.

(** A property that is not there at all is missing in both senses. *)
Lemma absent_field_missing (fs : list (string * JsVal)) (k : string) :
  has_field k fs = false ->
  missing_text (JObj fs) k = true /\ missing_value (JObj fs) k = true.
Proof.
  unfold missing_text, missing_value. cbn [js_get].
  induction fs as [| [k' v] fs IH]; cbn [has_field get_field]; [done |].
  case_decide; [discriminate | exact IH].
Qed.

End ClassifierFacts.

(** ** The router *)

Section RouterFacts.
Context `{JsNumber} `{!Router.Handlers}.
Import Router.

Lemma invoked_app (d1 d2 : list REvent) :
  invoked (d1 ++ d2) = invoked d1 ++ invoked d2.
Proof.
  induction d1 as [| ev d1 IH]; [reflexivity |].
  destruct ev; cbn [app invoked]; rewrite IH; reflexivity.
Qed.

Lemma failures_logged_app (d1 d2 : list REvent) :
  failures_logged d1 -> failures_logged d2 -> failures_logged (d1 ++ d2).
Proof.
  intros H1 H2. induction d1 as [| ev d1 IH]; [exact H2 |].
  destruct ev as [lvl m | b a r | h b a r]; cbn [app failures_logged] in *.
  - auto.
  - destruct r as [u | e]; [auto |].
    destruct H1 as [[d'' ->] H1]. split; [eexists; reflexivity | auto].
  - destruct r as [u | e]; [auto |].
    destruct H1 as [[d'' ->] H1]. split; [eexists; reflexivity | auto].
Qed.

Lemma returns_adding_seq (m1 m2 : M RWorld unit) (w : RWorld)
  (d1 d2 : list REvent) :
  returns_adding m1 w d1 ->
  (forall w1, m1 w = (Ok tt, w1) -> returns_adding m2 w1 d2) ->
  returns_adding (m1 ;;; m2) w (d1 ++ d2).
Proof.
  intros (w1 & E1 & T1) H2. destruct (H2 w1 E1) as (w2 & E2 & T2).
  exists w2. unfold bind. rewrite E1. split; [exact E2 |].
  rewrite T2, T1, app_assoc. reflexivity.
Qed.

Lemma rlog_adds (lvl : LogLevel) (m : RouterLog) (w : RWorld) :
  returns_adding (rlog lvl m) w [RLog lvl m].
Proof. eexists. split; reflexivity. Qed.

(** One turn of the general loop. *)
Lemma general_turn (bot : Bot) (a : Alert) (w : RWorld) :
  exists d,
    returns_adding
      (if filtered_out bot a then ret tt
       else try_catch (process bot a)
              (fun e => rlog LWarn (RL_failed (name bot) (message e)))) w d
    /\ invoked d = (if filtered_out bot a then [] else [bot])
    /\ failures_logged d.
Proof.
  destruct (filtered_out bot a).
  - exists []. split; [| done]. exists w. rewrite app_nil_r. done.
  - unfold returns_adding, try_catch, process, rlog. cbv beta.
    destruct (process_port bot a (sys w)) as [[[] | e] s'] eqn:E.
    + exists [RProcess bot a (Ok tt)]. split; [| done]. eexists. done.
    + exists [RProcess bot a (Throw e);
              RLog LWarn (RL_failed (name bot) (message e))].
      split; [| split; [done | cbn; eauto]].
      eexists. split; [reflexivity |]. cbn. rewrite <- app_assoc. done.
Qed.

Lemma general_loop (registry : list Bot) (a : Alert) (w : RWorld) :
  exists d,
    returns_adding
      (for_each registry (fun bot =>
         if filtered_out bot a then ret tt
         else try_catch (process bot a)
                (fun e => rlog LWarn (RL_failed (name bot) (message e)))))
      w d
    /\ invoked d = List.filter (fun b => negb (filtered_out b a)) registry
    /\ failures_logged d.
Proof.
  revert w. induction registry as [| bot registry IH]; intros w.
  - exists []. split; [| done]. exists w. rewrite app_nil_r. done.
  - destruct (general_turn bot a w) as (d1 & R1 & I1 & F1).
    cbn [for_each List.filter].
    destruct R1 as (w1 & E1 & T1).
    destruct (IH w1) as (d2 & R2 & I2 & F2).
    exists (d1 ++ d2). split; [| split].
    + apply returns_adding_seq; [exists w1; done |].
      intros w1' E1'. rewrite E1 in E1'. injection E1' as <-. exact R2.
    + rewrite invoked_app, I1, I2. destruct (filtered_out bot a); reflexivity.
    + apply failures_logged_app; assumption.
Qed.


Lemma filter_filter_and {A} (p q : A -> bool) (l : list A) :
  List.filter q (List.filter p l) = List.filter (fun x => p x && q x) l.
Proof.
  induction l as [| x l IH]; [reflexivity |].
  cbn [List.filter]. destruct (p x); cbn [andb List.filter];
    [destruct (q x) |]; rewrite IH; reflexivity.
Qed.

Lemma filter_all_true {A} (p : A -> bool) (l : list A) :
  Forall (fun x => p x = true) (List.filter p l).
Proof.
  induction l as [| x l IH]; [constructor |].
  cbn [List.filter]. destruct (p x) eqn:E; [constructor |]; assumption.
Qed.

(** A domination entry point called under the router's [try]. *)
Lemma domination_call_turn (h : DomHandler) (bot : Bot) (a : Alert)
  (m : RouterLog) (w : RWorld) :
  exists d,
    returns_adding
      (try_catch (rlog LLog m ;;; domination_call h bot a)
         (fun error =>
            rlog LError (RL_domination_error (name bot) (message error))))
      w d
    /\ invoked d = [bot]
    /\ failures_logged d.
Proof.
  unfold returns_adding, try_catch, bind, rlog, domination_call.
  cbv beta. cbn [sys rtrace].
  destruct (domination_port h bot a (sys w)) as [[[] | e] s'] eqn:E.
  - exists [RLog LLog m; RDomination h bot a (Ok tt)].
    split; [| done]. eexists. split; [reflexivity |].
    cbn. rewrite <- app_assoc. done.
  - exists [RLog LLog m; RDomination h bot a (Throw e);
            RLog LError (RL_domination_error (name bot) (message e))].
    split; [| split; [done | cbn; eauto]].
    eexists. split; [reflexivity |]. cbn. rewrite <- !app_assoc. done.
Qed.

(** One turn of the domination loop, for a bot tagged "domination". *)
Lemma domination_turn (bot : Bot) (a : Alert) (w : RWorld) :
  is_domination_bot bot = true ->
  exists d,
    returns_adding
      (try_catch (processDominationAlert bot a)
         (fun error =>
            rlog LError (RL_domination_error (name bot) (message error))))
      w d
    /\ invoked d =
         (if negb (filtered_out bot a)
          then match domination_handler_of (type a) with
               | Some _ => [bot]
               | None => []
               end
          else [])
    /\ failures_logged d.
Proof.
  intros Hdom. unfold processDominationAlert, domination_handler_of.
  rewrite Hdom. cbn [negb].
  destruct (filtered_out bot a); cbn [negb].
  { eexists. split; [eexists; split; reflexivity | done]. }
  repeat case_decide; try apply domination_call_turn.
  eexists. split; [| split]; [eexists; split; [reflexivity |] | |].
  - cbn. rewrite <- app_assoc. reflexivity.
  - reflexivity.
  - exact I.
Qed.

Lemma domination_loop (bots : list Bot) (a : Alert) (w : RWorld) :
  Forall (fun b => is_domination_bot b = true) bots ->
  exists d,
    returns_adding
      (for_each bots (fun bot =>
         try_catch (processDominationAlert bot a)
           (fun error =>
              rlog LError (RL_domination_error (name bot) (message error)))))
      w d
    /\ invoked d =
         match domination_handler_of (type a) with
         | Some _ => List.filter (fun b => negb (filtered_out b a)) bots
         | None => []
         end
    /\ failures_logged d.
Proof.
  intros Hall. revert w.
  induction Hall as [| bot bots Hdom Hall IH]; intros w.
  - exists []. split; [| by destruct (domination_handler_of _)].
    exists w. rewrite app_nil_r. done.
  - destruct (domination_turn bot a w Hdom) as (d1 & (w1 & E1 & T1) & I1 & F1).
    destruct (IH w1) as (d2 & R2 & I2 & F2).
    exists (d1 ++ d2). split; [| split].
    + cbn [for_each]. apply returns_adding_seq; [exists w1; done |].
      intros w1' E1'. rewrite E1 in E1'. injection E1' as <-. exact R2.
    + rewrite invoked_app, I1, I2. cbn [List.filter].
      destruct (filtered_out bot a), (domination_handler_of _); reflexivity.
    + apply failures_logged_app; assumption.
Qed.

Lemma dispatch_isolates (registry : list Bot) (a : Alert) (w : RWorld) :
  exists d,
    returns_adding (dispatch registry a) w d
    /\ invoked d = eligible registry a
    /\ failures_logged d.
Proof.
  unfold dispatch, eligible. destruct (kind a).
  - apply general_loop.
  - unfold handleDominationAlert.
    rewrite <- filter_filter_and.
    destruct (Nat.eqb (length (List.filter is_domination_bot registry)) 0)
      eqn:Hlen.
    + apply Nat.eqb_eq, nil_length_inv in Hlen. rewrite Hlen.
      eexists. split; [| split]; [eexists; split; [reflexivity |] | |].
      * cbn. rewrite <- app_assoc. reflexivity.
      * by destruct (domination_handler_of _).
      * exact I.
    + destruct (domination_loop (List.filter is_domination_bot registry) a
                  (rlog LLog (RL_domination_bots
                     (length (List.filter is_domination_bot registry))
                     (List.map name (List.filter is_domination_bot registry)))
                     (rlog LLog (RL_domination_alert (type a) (symbol a)) w).2).2)
        as (d & (w' & E & T) & I & F); [apply filter_all_true |].
      exists (RLog LLog (RL_domination_alert (type a) (symbol a))
              :: RLog LLog (RL_domination_bots
                   (length (List.filter is_domination_bot registry))
                   (List.map name (List.filter is_domination_bot registry)))
              :: d).
      split; [| split; [exact I | exact F]].
      exists w'. unfold bind at 1 2. cbn [rlog]. split; [exact E |].
      rewrite T. cbn. rewrite <- !app_assoc. done.
Qed.

(** With handlers that throw [Error] objects only, as [Router] has them, a
    classified alert is dispatched to the end: [handle] returns normally,
    every bot the alert is for is invoked, in registry order, also after an
    earlier one threw, and each exception is followed at once by the
    router's log line for it. This holds on the general fan-out and on the
    domination pathway. *)
Lemma router_isolates_bot_failures
  (registry : list Bot) (payload : JsVal) (a : Alert) (w : RWorld) :
  toAlert payload = Ok a ->
  exists d,
    returns_adding (handle registry payload) w d
    /\ invoked d = eligible registry a
    /\ failures_logged d.
Proof.
  intros Hcls.
  destruct (dispatch_isolates registry a w) as (d & R & I & F).
  exists d. split; [| done].
  unfold returns_adding, handle, bind, lift. rewrite Hcls. exact R.
Qed.

(** C4. Classification of an untyped record: it fails with a validation
    error when the discriminator is missing, when it names no known type,
    when a smartvol or domination type comes without symbol or price, and
    when VolumeUp comes without volume or timeframe; in every other case it
    returns an alert of the named type whose kind is the family of that type.
    It touches nothing: a rejected payload leaves the world as it was, and
    an accepted one adds only what dispatching adds. *)
Theorem toAlert_validates (p : JsVal) :
  (has_discriminator p = false -> validation_error (toAlert p))
  /\ (includes smartvol_types (named_type p) = false ->
      includes domination_types (named_type p) = false ->
      validation_error (toAlert p))
  /\ (includes smartvol_types (named_type p) = true ->
      missing_text p "symbol" = true \/ missing_value p "price" = true ->
      validation_error (toAlert p))
  /\ (named_type p = "VolumeUp" ->
      missing_value p "volume" = true \/ missing_text p "timeframe" = true ->
      validation_error (toAlert p))
  /\ (includes domination_types (named_type p) = true ->
      missing_text p "symbol" = true \/ missing_value p "price" = true ->
      validation_error (toAlert p))
  /\ (must_fail p = false ->
      exists a, toAlert p = Ok a
        /\ type a = named_type p
        /\ (includes smartvol_types (type a) = true -> kind a = smartvol)
        /\ (includes domination_types (type a) = true -> kind a = domination))
  /\ (forall registry w,
        match toAlert p with
        | Throw e => handle registry p w = (Throw e, w)
        | Ok a => handle registry p w = dispatch registry a w
        end).
Proof.
  repeat split.
  - intros Hd. apply toAlert_rejects. unfold must_fail. rewrite Hd. done.
  - intros Hs Hd. apply toAlert_rejects. unfold must_fail.
    rewrite Hs, Hd. orb_true.
  - intros _ Hm. apply toAlert_rejects. unfold must_fail.
    destruct Hm as [-> | ->]; orb_true.
  - intros Hvu Hm. apply toAlert_rejects. unfold must_fail.
    rewrite Hvu. rewrite decide_True by done.
    destruct Hm as [-> | ->]; orb_true.
  - intros _ Hm. apply toAlert_rejects. unfold must_fail.
    destruct Hm as [-> | ->]; orb_true.
  - intros Hok. destruct (toAlert_accepts p Hok) as (a & E & Ht & _ & _ & Hk).
    exists a. rewrite Ht, Hk. repeat split; [exact E | |].
    + intros ->. reflexivity.
    + intros Hd. destruct (includes smartvol_types _) eqn:Hs; [| reflexivity].
      apply smartvol_not_domination in Hs. congruence.
  - intros registry w. unfold handle, bind, lift.
    destruct (toAlert p); reflexivity.
Qed.

End RouterFacts.

(** ** The router and rejections without an [Error] *)

Section RejectionFacts.
Context `{JsNumber} `{!Rejections.Handlers}.
Import Rejections.

(** An [Error], an object and a primitive other than [undefined] and
    [null] are caught: the [catch] block of the general fan-out logs the
    warning and the loop goes on. *)
Lemma readable_rejection_is_caught (bot : Bot) (a : Alert) (w : RWorld)
  (t : Thrown) (v : JsVal) (s' : Sys) :
  process_port bot a (sys w) = (Rejected t, s') ->
  read_message t = Returned v ->
  try_catch_t (process bot a)
              (rlog_message LWarn (Router.RL_failed (name bot))) w
  = (Returned tt,
     {| sys := s';
        rtrace := rtrace w ++
          [ RProcess bot a (Rejected t);
            RLog LWarn (Router.RL_failed (name bot) (js_String v)) ] |}).
Proof.
  intros Hport Hread.
  unfold try_catch_t, process, rlog_message. rewrite Hport, Hread.
  unfold rlog. cbn. rewrite <- app_assoc. reflexivity.
Qed.

(** Reading [.message] fails on [undefined] and [null] and on nothing
    else. *)
Lemma read_message_fails (t : Thrown) :
  (exists e, read_message t = Rejected e)
  <-> (exists v, t = TValue v /\ js_nullish v = true).
Proof.
  split.
  - intros [e He]. destruct t as [err | v]; [discriminate He |].
    exists v. split; [reflexivity |].
    destruct v; try discriminate He; reflexivity.
  - intros (v & -> & Hv).
    destruct v; try discriminate Hv; eexists; reflexivity.
Qed.

(** C3 fails in the code. A handler that rejects with [undefined] or
    [null] is not isolated: the [catch] block reads [e.message], which
    throws a [TypeError] before anything is logged, and that exception
    leaves [handle]. With such a bot first in the registry, whatever bots
    [rest] come after it: [handle] rejects with the [TypeError], the bot is
    the only one invoked, no warning or error is logged, and so [handle]
    does not isolate the failure. This is so in the general fan-out
    ([bot.process] rejects) and on the domination pathway (the entry point
    of the domination strategy rejects). *)
Theorem nullish_rejection_escapes_router (bot : Bot) (rest : list Bot)
  (payload : JsVal) (a : Alert) (w : RWorld) (v : JsVal) (s' : Sys) :
  toAlert payload = Ok a ->
  filtered_out bot a = false ->
  js_nullish v = true ->
  match kind a with
  | smartvol => process_port bot a (sys w) = (Rejected (TValue v), s')
  | domination =>
      Router.is_domination_bot bot = true
      /\ exists h, Router.domination_handler_of (type a) = Some h
                   /\ domination_port h bot a (sys w)
                      = (Rejected (TValue v), s')
  end ->
  (exists d,
     rejects_adding (handle (bot :: rest) payload) w
       (TError (cannot_read (js_String v) "message")) d
     /\ invoked d = [bot]
     /\ complaints d = [])
  /\ ~ isolates (bot :: rest) payload w rest.
Proof.
  intros Hcls Hfilter Hv Hport.
  assert (exists d,
            rejects_adding (handle (bot :: rest) payload) w
              (TError (cannot_read (js_String v) "message")) d
            /\ invoked d = [bot] /\ complaints d = []) as Hrej.
  { unfold rejects_adding, handle, bind_t, lift_t. rewrite Hcls.
    unfold dispatch. destruct (kind a).
    - cbn [for_each_t]. rewrite Hfilter.
      unfold bind_t, try_catch_t, process. rewrite Hport.
      destruct v; try discriminate Hv;
        (eexists; split; [eexists; split; reflexivity | split; reflexivity]).
    - destruct Hport as (Hdom & h & Hh & Hport).
      unfold handleDominationAlert, bind_t, rlog.
      cbn [List.filter]. rewrite Hdom. cbn [length Nat.eqb for_each_t].
      unfold bind_t, try_catch_t, processDominationAlert.
      rewrite Hdom, Hfilter. cbn [negb]. unfold bind_t, rlog.
      unfold Router.domination_handler_of in Hh.
      repeat case_decide; try discriminate Hh;
        injection Hh as <-;
        unfold domination_call; cbn [sys rtrace];
        rewrite Hport;
        (destruct v; try discriminate Hv;
         (eexists; split;
          [ eexists; split; [reflexivity |];
            cbn [rtrace]; rewrite <- !app_assoc; reflexivity
          | split; reflexivity ])). }
  split; [exact Hrej |].
  destruct Hrej as (d & (w1 & Hrun & _) & _).
  intros (w2 & d2 & Hret & _). rewrite Hrun in Hret. discriminate Hret.
Qed.

End RejectionFacts.

(** ** The strategy *)

Section StrategyFacts.
Context `{JsNumber} `{!Strategy.Externals}.
Import Strategy.

(** Symbolic execution: unfold the methods down to the ports, then split on
    what each port answers. *)
Ltac unfold_ops :=
  unfold getOrCreateState, set_close_count,
    clearState, isEntryBlocked, blockEntry, getTimeUntilUnblock,
    notify, not_allowed, ensureLeverage, calcSizeFromUsd, placeMarket,
    flashClose, findOpen, store_open, store_add, store_close, calculatePnL,
    getPositionInfo, get_partialCloseState, set_partialCloseState,
    delete_partialCloseState, get_entryBlockState, set_entryBlockState,
    delete_entryBlockState, date_now, log, env_call, store_call, store_read,
    try_catch, bind, ret, throw, lift.

Ltac reduce_world :=
  unfold emit, with_env, with_store, with_partialCloseStates,
    with_entryBlockStates, add_events;
  cbn [env store partialCloseStates entryBlockStates trace fst snd].

Ltac split_port :=
  match goal with
  | |- context [clock_port ?e] => destruct (clock_port e) as [? ?] eqn:?
  | |- context [notify_port ?b ?n ?e] =>
      destruct (notify_port b n e) as [[[] | ?] ?] eqn:?
  | |- context [isAllowed_port ?b ?s ?e] =>
      destruct (isAllowed_port b s e) as [[[] | ?] ?] eqn:?
  | |- context [ensureLeverage_port ?b ?s ?l ?e] =>
      destruct (ensureLeverage_port b s l e) as [[[] | ?] ?] eqn:?
  | |- context [calcSizeFromUsd_port ?b ?s ?p ?u ?e] =>
      destruct (calcSizeFromUsd_port b s p u e) as [[? | ?] ?] eqn:?
  | |- context [placeMarket_port ?b ?s ?d ?z ?o ?e] =>
      destruct (placeMarket_port b s d z o e) as [[[] | ?] ?] eqn:?
  | |- context [flashClose_port ?b ?s ?h ?e] =>
      destruct (flashClose_port b s h e) as [[[] | ?] ?] eqn:?
  | |- context [findOpen_port ?s ?b ?y] =>
      destruct (findOpen_port s b y) as [[? |] | ?] eqn:?
  | |- context [open_port ?s ?b ?y ?p ?u] =>
      destruct (open_port s b y p u) as [[? | ?] ?] eqn:?
  | |- context [add_port ?s ?p ?x ?u] =>
      destruct (add_port s p x u) as [[[] | ?] ?] eqn:?
  | |- context [close_port ?s ?p ?x] =>
      destruct (close_port s p x) as [[[] | ?] ?] eqn:?
  | |- context [calculatePnL_port ?s ?p ?x] =>
      destruct (calculatePnL_port s p x) as [? | ?] eqn:?
  | |- context [getPositionInfo_port ?s ?p ?x] =>
      destruct (getPositionInfo_port s p x) as [? | ?] eqn:?
  end.

Ltac flatten_trace := rewrite <- ?app_assoc; cbn [app].

(** C8. An add, a close or a big close for a key the store has no open
    position for: the method writes its two log lines around the one store
    lookup and returns normally; no order, no notification, no change to the
    store, to the partial-close counters or to the entry blocks. *)
Theorem no_position_no_op (bot : Bot) (a : Alert) (w : World) :
  findOpen_port (store w) (name bot) (symbol a) = Ok None ->
  onAdd bot a w =
    (Ok tt, add_events [ ELog LLog (L_onAdd (symbol a) (price a));
                         EFindOpen (name bot) (symbol a) (Ok None);
                         ELog LLog (L_add_no_position (symbol a) (name bot)) ]
                       w)
  /\ onClose bot a w =
    (Ok tt, add_events [ ELog LLog (L_onClose (timeframe_or_1h a) (symbol a));
                         EFindOpen (name bot) (symbol a) (Ok None);
                         ELog LLog (L_close_no_position (symbol a) (name bot)) ]
                       w)
  /\ onBigClose bot a w =
    (Ok tt, add_events [ ELog LLog (L_onBigClose (symbol a));
                         EFindOpen (name bot) (symbol a) (Ok None);
                         ELog LLog (L_close_no_position (symbol a) (name bot)) ]
                       w).
Proof.
  intros Hnone.
  repeat split; unfold onAdd, onClose, onBigClose; unfold_ops; reduce_world;
    rewrite Hnone; reduce_world; flatten_trace; reflexivity.
Qed.


Lemma geb_false (x y : Z) : x < y -> (x >=? y) = false.
Proof. intros. rewrite Z.geb_leb. apply Z.leb_gt. assumption. Qed.

Lemma geb_true (x y : Z) : y <= x -> (x >=? y) = true.
Proof. intros. rewrite Z.geb_leb. apply Z.leb_le. assumption. Qed.

(** A SmartOpen for a blocked key, step by step: the opening log line, the
    clock read by [isEntryBlocked], the clock read by
    [getTimeUntilUnblock], the log line and the notification. *)
Lemma onOpen_blocked (bot : Bot) (a : Alert) (w : World)
  (bs : EntryBlockState) (t : Z) (e1 : Env) :
  entryBlockStates w !! getStateKey (name bot) (symbol a) = Some bs ->
  clock_port (env w) = (t, e1) ->
  t < blockedUntil bs ->
  exists t2 tu r e',
    onOpen bot a w =
      (r, {| env := e'; store := store w;
             partialCloseStates := partialCloseStates w;
             entryBlockStates := entryBlockStates w;
             trace := trace w ++
               [ ELog LLog (L_onOpen (symbol a) (price a));
                 ENow t; ENow t2;
                 ELog LLog (L_entry_blocked (symbol a) (name bot) tu);
                 ENotify (name bot)
                         (NEntryBlocked (name bot) (symbol a) tu) r ] |}).
Proof.
  intros Hbs Hclock Hlt.
  unfold onOpen; unfold_ops; reduce_world.
  rewrite Hbs. reduce_world. rewrite Hclock. reduce_world.
  rewrite (geb_false _ _ Hlt). reduce_world. rewrite Hbs. reduce_world.
  split_port. reduce_world.
  destruct (_ >=? _); reduce_world; split_port; reduce_world; flatten_trace;
    do 4 eexists; reflexivity.
Qed.

(** C10. The entry block is tested before anything else in [onOpen]: for a
    SmartOpen on a blocked key the method stops after the block notice. The
    store is not called at all, not even read, so an open position of that
    key gets no add either; no order is sent and nothing of the state
    changes. *)
Theorem entry_block_precedes_store_lookup (bot : Bot) (a : Alert) (w : World)
  (bs : EntryBlockState) (t : Z) (e1 : Env) :
  entryBlockStates w !! getStateKey (name bot) (symbol a) = Some bs ->
  clock_port (env w) = (t, e1) ->
  t < blockedUntil bs ->
  exists d,
    trace (onOpen bot a w).2 = trace w ++ d
    /\ store_calls d = []
    /\ orders d = []
    /\ (exists tu, notices d = [NEntryBlocked (name bot) (symbol a) tu])
    /\ (exists tu r, last d = Some (ENotify (name bot)
                         (NEntryBlocked (name bot) (symbol a) tu) r)
                     /\ (onOpen bot a w).1 = r)
    /\ store (onOpen bot a w).2 = store w
    /\ partialCloseStates (onOpen bot a w).2 = partialCloseStates w
    /\ entryBlockStates (onOpen bot a w).2 = entryBlockStates w.
Proof.
  intros Hbs Hclock Hlt.
  destruct (onOpen_blocked bot a w bs t e1 Hbs Hclock Hlt)
    as (t2 & tu & r & e' & ->).
  eexists. split; [reflexivity |]. cbn. repeat split; eauto.
Qed.


Lemma timeframe_unset_is_1h (a : Alert) :
  timeframe_unset a -> timeframe_or_1h a = JStr "1h".
Proof. unfold timeframe_unset, timeframe_or_1h, js_or. intros ->. done. Qed.

Lemma timeframe_1h_is_1h (a : Alert) :
  timeframe_or_1h (with_timeframe a (JStr "1h")) = JStr "1h".
Proof. reflexivity. Qed.

(** An alert that gives no timeframe (the field is absent, null, empty or
    otherwise falsy) is handled by [onOpen], [onClose] and the two
    synchronization methods exactly as the same alert with timeframe "1h":
    same result, same calls, same state. *)
Lemma unset_timeframe_runs_as_1h (bot : Bot) (a : Alert) (w : World) :
  timeframe_unset a ->
  let a1h := with_timeframe a (JStr "1h") in
  onOpen bot a w = onOpen bot a1h w
  /\ onClose bot a w = onClose bot a1h w
  /\ onFixedShortSynchronization bot a w = onFixedShortSynchronization bot a1h w
  /\ onLiveShortSynchronization bot a w = onLiveShortSynchronization bot a1h w
  /\ js_is_str (timeframe_or_1h a) "1h" = true
  /\ js_is_str (timeframe_or_1h a) "4h" = false.
Proof.
  intros Hunset a1h.
  pose proof (timeframe_unset_is_1h a Hunset) as E.
  pose proof (timeframe_1h_is_1h a) as E1. fold a1h in E1.
  unfold onOpen, onClose, onFixedShortSynchronization,
    onLiveShortSynchronization, onAdd.
  rewrite E, E1. subst a1h. cbn [symbol price with_timeframe].
  repeat split; reflexivity.
Qed.

(** A SmartOpen with a timeframe other than "1h" on a key that has no
    entry block, step by step. *)
Lemma onOpen_other_timeframe (bot : Bot) (a : Alert) (w : World) :
  entryBlockStates w !! getStateKey (name bot) (symbol a) = None ->
  js_is_str (timeframe_or_1h a) "1h" = false ->
  exists r e',
    onOpen bot a w =
      (r, {| env := e'; store := store w;
             partialCloseStates := partialCloseStates w;
             entryBlockStates := entryBlockStates w;
             trace := trace w ++
               [ ELog LLog (L_onOpen (symbol a) (price a));
                 ELog LLog (L_open_timeframe_skipped (timeframe_or_1h a));
                 ENotify (name bot)
                   (NTimeframeSkipped (name bot) (timeframe_or_1h a)) r ] |}).
Proof.
  intros Hnone Htf.
  unfold onOpen; unfold_ops; reduce_world.
  rewrite Hnone. reduce_world. rewrite Htf. cbn [negb]. reduce_world.
  split_port; reduce_world; flatten_trace; do 2 eexists; reflexivity.
Qed.

(** C6, as the code has it. A SmartOpen whose timeframe is given and is not
    "1h" opens nothing: no order is sent, the store is not called, the
    partial-close counters stay as they are. It is not silent: exactly one
    notification goes out. On a key that is not blocked (no entry, or an
    entry that has run out) it is the notice that the alert was skipped for
    its timeframe; on a key whose block is in force it is the entry-block
    notice. Of the state only an entry block that has run out is dropped. *)
Theorem open_with_other_timeframe_notifies (bot : Bot) (a : Alert) (w : World) :
  js_truthy (timeframe a) = true ->
  js_is_str (timeframe a) "1h" = false ->
  exists d n,
    adds (onOpen bot a) w d
    /\ orders d = [] /\ store_calls d = []
    /\ notices d = [n]
    /\ (entry_free w (name bot) (symbol a) ->
        n = NTimeframeSkipped (name bot) (timeframe a))
    /\ (blocked_at w (name bot) (symbol a) (clock_port (env w)).1 ->
        exists tu, n = NEntryBlocked (name bot) (symbol a) tu)
    /\ store (onOpen bot a w).2 = store w
    /\ partialCloseStates (onOpen bot a w).2 = partialCloseStates w
    /\ (entryBlockStates (onOpen bot a w).2 = entryBlockStates w
        \/ entryBlockStates (onOpen bot a w).2 =
             delete (getStateKey (name bot) (symbol a)) (entryBlockStates w)).
Proof.
  intros Htruthy Hnot1h.
  assert (timeframe_or_1h a = timeframe a) as Htf
    by (unfold timeframe_or_1h, js_or; rewrite Htruthy; reflexivity).
  unfold adds, entry_free, blocked_at.
  destruct (entryBlockStates w !! getStateKey (name bot) (symbol a))
    as [bs |] eqn:Hbs.
  - destruct (clock_port (env w)) as [t e1] eqn:Hclock. cbn [fst].
    destruct (Z.lt_ge_cases t (blockedUntil bs)) as [Hlt | Hge].
    + destruct (onOpen_blocked bot a w bs t e1 Hbs Hclock Hlt)
        as (t2 & tu & r & e' & ->).
      do 2 eexists. split; [reflexivity |]. cbn.
      repeat split; eauto. intros Hfree. lia.
    + unfold onOpen; unfold_ops; reduce_world.
      rewrite Hbs. reduce_world. rewrite Hclock. reduce_world.
      rewrite (geb_true _ _ Hge). reduce_world.
      rewrite Htf, Hnot1h. cbn [negb]. reduce_world.
      split_port; reduce_world; flatten_trace;
        (do 2 eexists; split; [reflexivity |]; cbn;
         repeat split; eauto;
         intros (bs' & [= <-] & Hlt); lia).
  - rewrite <- Htf in Hnot1h.
    destruct (onOpen_other_timeframe bot a w Hbs Hnot1h) as (r & e' & ->).
    rewrite Htf.
    do 2 eexists. split; [reflexivity |]. cbn. repeat split; eauto.
    intros (bs' & Hbs' & _). discriminate Hbs'.
Qed.

(** C7, as the code has it. At a position whose fills have reached the
    bot's maximum ([cfg.maxFills], 4 when unset):
    a SmartVolAdd ([onAdd]) looks the position up and sends the "max fills
    reached" notice, nothing else; a SmartOpen ([onOpen]) sends no order and
    leaves store and counters alone as well, and sends exactly one notice:
    the entry-block notice on a key whose block is in force; on a key that
    is not blocked the timeframe-skip notice when the timeframe is given and
    is not "1h", and the "max fills reached" notice otherwise. *)
Theorem full_position_takes_no_fill (bot : Bot) (a : Alert) (w : World)
  (pos : Position) :
  findOpen_port (store w) (name bot) (symbol a) = Ok (Some pos) ->
  maxFills_or_4 bot <= fillsCount pos ->
  (exists r e',
     onAdd bot a w =
       (r, {| env := e'; store := store w;
              partialCloseStates := partialCloseStates w;
              entryBlockStates := entryBlockStates w;
              trace := trace w ++
                [ ELog LLog (L_onAdd (symbol a) (price a));
                  EFindOpen (name bot) (symbol a) (Ok (Some pos));
                  ENotify (name bot) (NMaxFills (name bot) (symbol a)) r ] |}))
  /\ (exists d n,
        adds (onOpen bot a) w d
        /\ orders d = [] /\ store_mutations d = []
        /\ store (onOpen bot a w).2 = store w
        /\ partialCloseStates (onOpen bot a w).2 = partialCloseStates w
        /\ notices d = [n]
        /\ (blocked_at w (name bot) (symbol a) (clock_port (env w)).1 ->
            exists tu, n = NEntryBlocked (name bot) (symbol a) tu)
        /\ (entry_free w (name bot) (symbol a) ->
            js_is_str (timeframe_or_1h a) "1h" = false ->
            n = NTimeframeSkipped (name bot) (timeframe_or_1h a))
        /\ (entry_free w (name bot) (symbol a) ->
            js_is_str (timeframe_or_1h a) "1h" = true ->
            n = NMaxFills (name bot) (symbol a))).
Proof.
  intros Hfind Hfull. split.
  { unfold onAdd; unfold_ops; reduce_world.
    rewrite Hfind. reduce_world. rewrite (geb_true _ _ Hfull). reduce_world.
    split_port; reduce_world; flatten_trace; do 2 eexists; reflexivity. }
  unfold adds, entry_free, blocked_at.
  destruct (entryBlockStates w !! getStateKey (name bot) (symbol a))
    as [bs |] eqn:Hbs.
  - destruct (clock_port (env w)) as [t e1] eqn:Hclock. cbn [fst].
    destruct (Z.lt_ge_cases t (blockedUntil bs)) as [Hlt | Hge].
    + destruct (onOpen_blocked bot a w bs t e1 Hbs Hclock Hlt)
        as (t2 & tu & r & e' & ->).
      do 2 eexists. split; [reflexivity |]. cbn.
      repeat split; eauto; intros Hfree; lia.
    + unfold onOpen; unfold_ops; reduce_world.
      rewrite Hbs. reduce_world. rewrite Hclock. reduce_world.
      rewrite (geb_true _ _ Hge). reduce_world.
      destruct (js_is_str (timeframe_or_1h a) "1h") eqn:Htf;
        cbn [negb]; reduce_world.
      * rewrite Hfind. reduce_world. rewrite (geb_true _ _ Hfull).
        reduce_world.
        split_port; reduce_world; flatten_trace;
          (do 2 eexists; split; [reflexivity |]; cbn;
           repeat split; eauto;
           first [ intros (bs' & [= <-] & Hlt); lia
                 | intros _ Hno; discriminate Hno ]).
      * split_port; reduce_world; flatten_trace;
          (do 2 eexists; split; [reflexivity |]; cbn;
           repeat split; eauto;
           first [ intros (bs' & [= <-] & Hlt); lia
                 | intros _ Hno; discriminate Hno ]).
  - destruct (js_is_str (timeframe_or_1h a) "1h") eqn:Htf.
    + unfold onOpen; unfold_ops; reduce_world.
      rewrite Hbs. reduce_world. rewrite Htf. cbn [negb]. reduce_world.
      rewrite Hfind. reduce_world. rewrite (geb_true _ _ Hfull).
      reduce_world.
      destruct (notify_port bot (NMaxFills (name bot) (symbol a)) (env w))
        as [[[] | ?] ?] eqn:?;
        reduce_world; flatten_trace;
        (do 2 eexists; split; [reflexivity |]; cbn;
         repeat split; eauto;
         first [ intros (bs' & Hbs' & _); discriminate Hbs'
               | intros _ Hno; discriminate Hno ]).
    + destruct (onOpen_other_timeframe bot a w Hbs Htf) as (r & e' & ->).
      do 2 eexists. split; [reflexivity |]. cbn.
      repeat split; eauto;
        first [ intros (bs' & Hbs' & _); discriminate Hbs'
              | intros _ Hno; discriminate Hno ].
Qed.

(** Use what is assumed of a port in place of a case split. *)
Ltac known_port :=
  match goal with
  | Hp : forall sid e, (isAllowed_port ?b sid e).1 = Ok true
    |- context [isAllowed_port ?b ?s ?e] =>
      let X := fresh in
      pose proof (Hp s e) as X;
      destruct (isAllowed_port b s e) as [? ?]; cbn [fst] in X; subst
  | Hp : forall sid lev e, (ensureLeverage_port ?b sid lev e).1 = Ok tt
    |- context [ensureLeverage_port ?b ?s ?l ?e] =>
      let X := fresh in
      pose proof (Hp s l e) as X;
      destruct (ensureLeverage_port b s l e) as [? ?]; cbn [fst] in X; subst
  | Hp : forall sid p u e, is_ok (calcSizeFromUsd_port ?b sid p u e).1 = true
    |- context [calcSizeFromUsd_port ?b ?s ?p ?u ?e] =>
      let X := fresh in
      pose proof (Hp s p u e) as X;
      destruct (calcSizeFromUsd_port b s p u e) as [[? | ?] ?];
      cbn [fst is_ok] in X; [clear X | discriminate X]
  | Hp : forall sid side size oid e,
           (placeMarket_port ?b sid side size oid e).1 = Ok tt
    |- context [placeMarket_port ?b ?s ?d ?z ?o ?e] =>
      let X := fresh in
      pose proof (Hp s d z o e) as X;
      destruct (placeMarket_port b s d z o e) as [? ?]; cbn [fst] in X; subst
  | Hp : forall sym hold e, (flashClose_port ?b sym hold e).1 = Ok tt
    |- context [flashClose_port ?b ?s ?h ?e] =>
      let X := fresh in
      pose proof (Hp s h e) as X;
      destruct (flashClose_port b s h e) as [? ?]; cbn [fst] in X; subst
  end.

(** [isEntryBlocked] on an entry that has run out. *)
Lemma isEntryBlocked_expired (botName sym : string) (w : World)
  (bs : EntryBlockState) (t : Z) (e1 : Env) :
  entryBlockStates w !! getStateKey botName sym = Some bs ->
  clock_port (env w) = (t, e1) ->
  blockedUntil bs <= t ->
  isEntryBlocked botName sym w =
    (Ok false,
     {| env := e1; store := store w;
        partialCloseStates := partialCloseStates w;
        entryBlockStates := delete (getStateKey botName sym)
                                   (entryBlockStates w);
        trace := trace w ++ [ENow t] |}).
Proof.
  intros Hbs Hclock Hge. unfold_ops; reduce_world.
  rewrite Hbs. reduce_world. rewrite Hclock. reduce_world.
  rewrite (geb_true _ _ Hge). reduce_world. reflexivity.
Qed.

(** [isEntryBlocked] on an entry that still holds. *)
Lemma isEntryBlocked_blocked (botName sym : string) (w : World)
  (bs : EntryBlockState) (t : Z) (e1 : Env) :
  entryBlockStates w !! getStateKey botName sym = Some bs ->
  clock_port (env w) = (t, e1) ->
  t < blockedUntil bs ->
  isEntryBlocked botName sym w =
    (Ok true,
     {| env := e1; store := store w;
        partialCloseStates := partialCloseStates w;
        entryBlockStates := entryBlockStates w;
        trace := trace w ++ [ENow t] |}).
Proof.
  intros Hbs Hclock Hlt. unfold_ops; reduce_world.
  rewrite Hbs. reduce_world. rewrite Hclock. reduce_world.
  rewrite (geb_false _ _ Hlt). reduce_world. reflexivity.
Qed.

(** A SmartOpen on a key whose entry block has run out, with no position
    open and an exchange that takes the order: the position is opened. *)
Lemma onOpen_after_expiry (bot : Bot) (a : Alert) (w : World)
  (bs : EntryBlockState) (t : Z) (e1 : Env) (pos : Position) (s' : Store) :
  entryBlockStates w !! getStateKey (name bot) (symbol a) = Some bs ->
  clock_port (env w) = (t, e1) ->
  blockedUntil bs <= t ->
  js_is_str (timeframe_or_1h a) "1h" = true ->
  findOpen_port (store w) (name bot) (symbol a) = Ok None ->
  takes_orders bot -> accepts_orders bot -> prepares_orders bot ->
  usd_unusable (baseUsd bot) = false ->
  open_port (store w) (name bot) (symbol a) (price a)
            (num_to_string (baseUsd bot)) = (Ok pos, s') ->
  exists d,
    adds (onOpen bot a) w d
    /\ (exists size oid,
          orders d = [EPlaceMarket (name bot) (toBitgetSymbolId (symbol a))
                                   buy size oid (Ok tt)])
    /\ store_mutations d =
         [EStoreOpen (name bot) (symbol a) (price a)
                     (num_to_string (baseUsd bot)) (Ok pos)]
    /\ store (onOpen bot a w).2 = s'
    /\ entryBlockStates (onOpen bot a w).2
         !! getStateKey (name bot) (symbol a) = None
    /\ closeCount (onOpen bot a w).2 (name bot) (symbol a)
       = closeCount w (name bot) (symbol a).
Proof.
  intros Hbs Hclock Hge Htf Hfind [Hpm _] [Hacc _] (Hall & Hlev & Hsize)
    Husd Hopen.
  unfold adds, closeCount.
  unfold onOpen; unfold_ops; reduce_world.
  rewrite Hbs. reduce_world. rewrite Hclock. reduce_world.
  rewrite (geb_true _ _ Hge). reduce_world.
  rewrite Htf. cbn [negb]. reduce_world.
  rewrite Hfind. reduce_world. rewrite Hpm, Husd.
  destruct (has_isAllowed (exchange bot)); reduce_world;
    [known_port; cbn [negb]; reduce_world |];
    (destruct (has_ensureLeverage (exchange bot)); reduce_world;
       [known_port; reduce_world |]);
    (destruct (has_calcSizeFromUsd (exchange bot)); reduce_world;
       [known_port; reduce_world |]);
    split_port; reduce_world; known_port; reduce_world;
    rewrite Hopen; reduce_world;
    (destruct (partialCloseStates w !! getStateKey (name bot) (symbol a))
       as [st |] eqn:Hst; reduce_world; [| split_port; reduce_world]);
    split_port; reduce_world; try split_port; reduce_world; flatten_trace;
    (eexists; split; [reflexivity |]; cbn;
     rewrite ?lookup_delete_eq, ?lookup_insert_eq, ?Hst;
     repeat split; eauto).
Qed.












Ltac eval_counts :=
  cbn [smartVolCloseCount];
  repeat first
    [ progress change (0 =? 0) with true
    | progress change (1 =? 0) with false
    | progress change (1 =? 1) with true
    | progress change (2 =? 0) with false
    | progress change (2 =? 1) with false
    | progress change (2 >=? 2) with true ].

Lemma count_of_lookup (w : World) (botName sym : string) (n : Z) :
  n <> 0 ->
  closeCount w botName sym = n ->
  exists st, partialCloseStates w !! getStateKey botName sym = Some st
             /\ smartVolCloseCount st = n.
Proof.
  unfold closeCount. intros Hn Hc.
  destruct (partialCloseStates w !! _) as [st |]; [eauto | congruence].
Qed.

(** The first SmartClose of the counting path: it only counts. *)
Lemma onClose_first (bot : Bot) (a : Alert) (w : World) (pos : Position) :
  js_is_str (timeframe_or_1h a) "4h" = false ->
  findOpen_port (store w) (name bot) (symbol a) = Ok (Some pos) ->
  closeCount w (name bot) (symbol a) = 0 ->
  exists d,
    adds (onClose bot a) w d
    /\ orders d = [] /\ store_mutations d = []
    /\ notices d = [NFirstClose (name bot) (symbol a)]
    /\ closeCount (onClose bot a w).2 (name bot) (symbol a) = 1
    /\ store (onClose bot a w).2 = store w
    /\ entryBlockStates (onClose bot a w).2 = entryBlockStates w.
Proof.
  intros Htf Hfind Hc. unfold adds, closeCount in *.
  unfold onClose; unfold_ops; reduce_world.
  rewrite Hfind. reduce_world. rewrite Htf. reduce_world.
  destruct (partialCloseStates w !! getStateKey (name bot) (symbol a))
    as [st |] eqn:Hst; reduce_world.
  - rewrite Hc. eval_counts. reduce_world.
    do 2 (split_port; reduce_world); flatten_trace;
      (eexists; split; [reflexivity |]; cbn;
       rewrite lookup_insert_eq; repeat split; reflexivity).
  - split_port. reduce_world. eval_counts. reduce_world.
    do 2 (split_port; reduce_world); flatten_trace;
      (eexists; split; [reflexivity |]; cbn;
       rewrite lookup_insert_eq; repeat split; reflexivity).
Qed.

(** The second SmartClose of the counting path: a sell order for half of
    the position, computed from [amountUsd] and [avgEntryPrice]. *)
Lemma onClose_second (bot : Bot) (a : Alert) (w : World) (pos : Position) :
  js_is_str (timeframe_or_1h a) "4h" = false ->
  findOpen_port (store w) (name bot) (symbol a) = Ok (Some pos) ->
  closeCount w (name bot) (symbol a) = 1 ->
  takes_orders bot -> accepts_orders bot ->
  exists d oid,
    adds (onClose bot a) w d
    /\ orders d =
         [EPlaceMarket (name bot) (toBitgetSymbolId (symbol a)) sell
            (toFixed (num_div (num_mul (parseFloat (amountUsd pos)) num_half)
                              (parseFloat (avgEntryPrice pos))) 8)
            oid (Ok tt)]
    /\ oid_tag oid = "partial-close"
    /\ store_mutations d = []
    /\ closeCount (onClose bot a w).2 (name bot) (symbol a) = 2
    /\ store (onClose bot a w).2 = store w
    /\ entryBlockStates (onClose bot a w).2 = entryBlockStates w.
Proof.
  intros Htf Hfind Hc [Hpm _] [Hacc _].
  destruct (count_of_lookup w _ _ 1 ltac:(lia) Hc) as (st & Hst & Hn).
  unfold adds, closeCount.
  unfold onClose; unfold_ops; reduce_world.
  rewrite Hfind. reduce_world. rewrite Htf. reduce_world.
  rewrite Hst. reduce_world. rewrite Hn, Hpm. eval_counts. reduce_world.
  split_port. reduce_world. known_port. reduce_world.
  do 2 (split_port; reduce_world); flatten_trace;
    (do 2 eexists; split; [reflexivity |]; cbn;
     rewrite lookup_insert_eq; repeat split; reflexivity).
Qed.

(** A further SmartClose of the counting path: everything is closed and the
    counter of the key is dropped. *)
Lemma onClose_final (bot : Bot) (a : Alert) (w : World) (pos : Position)
  (s' : Store) :
  js_is_str (timeframe_or_1h a) "4h" = false ->
  findOpen_port (store w) (name bot) (symbol a) = Ok (Some pos) ->
  2 <= closeCount w (name bot) (symbol a) ->
  takes_orders bot -> accepts_orders bot ->
  is_ok (calculatePnL_port (store w) pos (num_of_string (price a))) = true ->
  close_port (store w) pos (price a) = (Ok tt, s') ->
  exists d,
    adds (onClose bot a) w d
    /\ orders d = [EFlashClose (name bot) (symbol a) "long" (Ok tt)]
    /\ store_mutations d = [EStoreClose pos (price a) (Ok tt)]
    /\ store (onClose bot a w).2 = s'
    /\ partialCloseStates (onClose bot a w).2
         !! getStateKey (name bot) (symbol a) = None
    /\ entryBlockStates (onClose bot a w).2 = entryBlockStates w.
Proof.
  intros Htf Hfind Hc [_ Hfc] [_ Hacc] Hpnl Hclose.
  destruct (count_of_lookup w (name bot) (symbol a)
              (closeCount w (name bot) (symbol a)) ltac:(lia) eq_refl)
    as (st & Hst & Hn).
  rewrite <- Hn in Hc.
  unfold adds.
  unfold onClose; unfold_ops; reduce_world.
  rewrite Hfind. reduce_world. rewrite Htf. reduce_world.
  rewrite Hst. reduce_world.
  rewrite (proj2 (Z.eqb_neq _ 0)) by lia.
  rewrite (proj2 (Z.eqb_neq _ 1)) by lia.
  rewrite (geb_true _ _ Hc), Hfc. reduce_world.
  known_port. reduce_world.
  destruct (calculatePnL_port _ _ _) as [pl | ?]; [| discriminate Hpnl].
  reduce_world. rewrite Hclose. reduce_world.
  split_port; reduce_world; flatten_trace;
    (eexists; split; [reflexivity |]; cbn;
     rewrite lookup_delete_eq; repeat split; reflexivity).
Qed.


Lemma timeframe_1h_not_4h (a : Alert) :
  timeframe a = JStr "1h" ->
  js_is_str (timeframe_or_1h a) "1h" = true
  /\ js_is_str (timeframe_or_1h a) "4h" = false.
Proof. unfold timeframe_or_1h. intros ->. split; reflexivity. Qed.

(** C1. Three SmartClose alerts in a row, timeframe "1h", for a key with an
    open position and no close counted yet, on an exchange that accepts the
    orders. The first sends no order and changes no position: it moves the
    counter from 0 to 1. The second sends one sell order, for
    [(amountUsd * 0.5) / avgEntryPrice] tokens (written with 8 decimals),
    moves the counter from 1 to 2 and leaves the position open in the store.
    The third closes everything: flash-close on the exchange, then
    [store.close], and the counter of the key is dropped. *)
Theorem three_smart_closes (bot : Bot) (a : Alert) (w : World)
  (pos : Position) (s' : Store) :
  timeframe a = JStr "1h" ->
  findOpen_port (store w) (name bot) (symbol a) = Ok (Some pos) ->
  closeCount w (name bot) (symbol a) = 0 ->
  takes_orders bot -> accepts_orders bot ->
  is_ok (calculatePnL_port (store w) pos (num_of_string (price a))) = true ->
  close_port (store w) pos (price a) = (Ok tt, s') ->
  let w1 := (onClose bot a w).2 in
  let w2 := (onClose bot a w1).2 in
  let w3 := (onClose bot a w2).2 in
  exists d1 d2 d3 oid,
    (adds (onClose bot a) w d1
     /\ orders d1 = [] /\ store_mutations d1 = []
     /\ closeCount w1 (name bot) (symbol a) = 1
     /\ store w1 = store w)
    /\ (adds (onClose bot a) w1 d2
        /\ orders d2 =
             [EPlaceMarket (name bot) (toBitgetSymbolId (symbol a)) sell
                (toFixed
                   (num_div (num_mul (parseFloat (amountUsd pos)) num_half)
                            (parseFloat (avgEntryPrice pos))) 8)
                oid (Ok tt)]
        /\ store_mutations d2 = []
        /\ closeCount w2 (name bot) (symbol a) = 2
        /\ findOpen_port (store w2) (name bot) (symbol a) = Ok (Some pos))
    /\ (adds (onClose bot a) w2 d3
        /\ orders d3 = [EFlashClose (name bot) (symbol a) "long" (Ok tt)]
        /\ store_mutations d3 = [EStoreClose pos (price a) (Ok tt)]
        /\ store w3 = s'
        /\ partialCloseStates w3 !! getStateKey (name bot) (symbol a) = None).
Proof.
  intros Htf Hfind Hc Htakes Hacc Hpnl Hclose w1 w2 w3.
  destruct (timeframe_1h_not_4h a Htf) as [_ Hnot4h].
  destruct (onClose_first bot a w pos Hnot4h Hfind Hc)
    as (d1 & A1 & O1 & M1 & _ & C1 & S1 & _).
  fold w1 in C1, S1.
  assert (findOpen_port (store w1) (name bot) (symbol a) = Ok (Some pos))
    as Hfind1 by (rewrite S1; exact Hfind).
  destruct (onClose_second bot a w1 pos Hnot4h Hfind1 C1 Htakes Hacc)
    as (d2 & oid & A2 & O2 & _ & M2 & C2 & S2 & _).
  fold w2 in C2, S2.
  assert (findOpen_port (store w2) (name bot) (symbol a) = Ok (Some pos))
    as Hfind2 by (rewrite S2; exact Hfind1).
  assert (2 <= closeCount w2 (name bot) (symbol a)) as C2' by lia.
  assert (store w2 = store w) as S2' by congruence.
  rewrite <- S2' in Hpnl, Hclose.
  destruct (onClose_final bot a w2 pos s' Hnot4h Hfind2 C2' Htakes Hacc
              Hpnl Hclose)
    as (d3 & A3 & O3 & M3 & S3 & P3 & _).
  exists d1, d2, d3, oid. repeat split; assumption.
Qed.

(** The two synchronization methods at "1h": the entry block is written
    with the clock reading plus one hour. *)
Lemma synchronization_blocks (bot : Bot) (a : Alert) (w : World)
  (t0 : Z) (e1 : Env) :
  js_is_str (timeframe_or_1h a) "1h" = true ->
  clock_port (env w) = (t0, e1) ->
  forall m,
    m = onFixedShortSynchronization bot a
    \/ m = onLiveShortSynchronization bot a ->
    entryBlockStates (m w).2 !! getStateKey (name bot) (symbol a)
      = Some {| eb_symbol := symbol a; eb_botName := name bot;
                blockedUntil := t0 + 3600000 |}
    /\ store (m w).2 = store w
    /\ partialCloseStates (m w).2 = partialCloseStates w.
Proof.
  intros Htf Hclock m [-> | ->];
    unfold onFixedShortSynchronization, onLiveShortSynchronization;
    unfold_ops; reduce_world;
    rewrite Htf; cbn [negb]; reduce_world;
    rewrite Hclock; reduce_world;
    do 2 (split_port; reduce_world);
    rewrite lookup_insert_eq; repeat split; reflexivity.
Qed.

(** The two synchronization methods at another timeframe: two log lines. *)
Lemma synchronization_skipped (bot : Bot) (a : Alert) (w : World) :
  js_is_str (timeframe_or_1h a) "1h" = false ->
  onFixedShortSynchronization bot a w =
    (Ok tt, add_events [ ELog LLog (L_fixed_short (symbol a) (name bot));
                         ELog LLog (L_fixed_short_skipped (timeframe_or_1h a)) ]
                       w)
  /\ onLiveShortSynchronization bot a w =
    (Ok tt, add_events [ ELog LLog (L_live_short (symbol a) (name bot));
                         ELog LLog (L_live_short_skipped (timeframe_or_1h a)) ]
                       w).
Proof.
  intros Htf.
  split; unfold onFixedShortSynchronization, onLiveShortSynchronization;
    unfold_ops; reduce_world; rewrite Htf; cbn [negb]; reduce_world;
    flatten_trace; reflexivity.
Qed.

(** C2. The entry block.
    (1) A fixed-short or live-short synchronization with timeframe "1h"
        blocks the key until the clock reading plus 3 600 000 ms.
    (2) With any other timeframe given, either method logs and changes
        nothing.
    (3) A SmartOpen whose clock reading is before [blockedUntil] is
        rejected: one notification, the entry-block notice; no order; the
        store not touched.
    (4) A reading at or after [blockedUntil] finds the key unblocked and
        drops the entry.
    (5) So a SmartOpen after the window opens as usual: with no position
        open and a cooperating exchange and store, one buy order and then
        [store.open]. *)
Theorem entry_block_window (bot : Bot) (a : Alert) (w : World) :
  (forall t0 e1 m,
      timeframe a = JStr "1h" ->
      clock_port (env w) = (t0, e1) ->
      m = onFixedShortSynchronization bot a
      \/ m = onLiveShortSynchronization bot a ->
      entryBlockStates (m w).2 !! getStateKey (name bot) (symbol a)
        = Some {| eb_symbol := symbol a; eb_botName := name bot;
                  blockedUntil := t0 + 3600000 |})
  /\ (js_truthy (timeframe a) = true ->
      js_is_str (timeframe a) "1h" = false ->
      onFixedShortSynchronization bot a w =
        (Ok tt,
         add_events [ ELog LLog (L_fixed_short (symbol a) (name bot));
                      ELog LLog (L_fixed_short_skipped (timeframe a)) ] w)
      /\ onLiveShortSynchronization bot a w =
        (Ok tt,
         add_events [ ELog LLog (L_live_short (symbol a) (name bot));
                      ELog LLog (L_live_short_skipped (timeframe a)) ] w))
  /\ (forall bs t e1,
        entryBlockStates w !! getStateKey (name bot) (symbol a) = Some bs ->
        clock_port (env w) = (t, e1) ->
        t < blockedUntil bs ->
        exists d tu,
          adds (onOpen bot a) w d
          /\ notices d = [NEntryBlocked (name bot) (symbol a) tu]
          /\ orders d = [] /\ store_calls d = []
          /\ store (onOpen bot a w).2 = store w)
  /\ (forall bs t e1,
        entryBlockStates w !! getStateKey (name bot) (symbol a) = Some bs ->
        clock_port (env w) = (t, e1) ->
        blockedUntil bs <= t ->
        (isEntryBlocked (name bot) (symbol a) w).1 = Ok false
        /\ entryBlockStates (isEntryBlocked (name bot) (symbol a) w).2
             !! getStateKey (name bot) (symbol a) = None)
  /\ (forall bs t e1 pos s',
        entryBlockStates w !! getStateKey (name bot) (symbol a) = Some bs ->
        clock_port (env w) = (t, e1) ->
        blockedUntil bs <= t ->
        timeframe a = JStr "1h" ->
        findOpen_port (store w) (name bot) (symbol a) = Ok None ->
        takes_orders bot -> accepts_orders bot -> prepares_orders bot ->
        usd_unusable (baseUsd bot) = false ->
        open_port (store w) (name bot) (symbol a) (price a)
                  (num_to_string (baseUsd bot)) = (Ok pos, s') ->
        exists d size oid,
          adds (onOpen bot a) w d
          /\ orders d = [EPlaceMarket (name bot) (toBitgetSymbolId (symbol a))
                                      buy size oid (Ok tt)]
          /\ store_mutations d =
               [EStoreOpen (name bot) (symbol a) (price a)
                           (num_to_string (baseUsd bot)) (Ok pos)]
          /\ store (onOpen bot a w).2 = s'
          /\ entryBlockStates (onOpen bot a w).2
               !! getStateKey (name bot) (symbol a) = None).
Proof.
  split; [| split; [| split; [| split]]].
  - intros t0 e1 m Htf Hclock Hm.
    destruct (timeframe_1h_not_4h a Htf) as [H1h _].
    apply (synchronization_blocks bot a w t0 e1 H1h Hclock m Hm).
  - intros Htruthy Hnot.
    assert (timeframe_or_1h a = timeframe a) as Htf
      by (unfold timeframe_or_1h, js_or; rewrite Htruthy; reflexivity).
    rewrite <- Htf in Hnot. rewrite <- Htf.
    apply synchronization_skipped, Hnot.
  - intros bs t e1 Hbs Hclock Hlt.
    destruct (onOpen_blocked bot a w bs t e1 Hbs Hclock Hlt)
      as (t2 & tu & r & e' & E).
    unfold adds. rewrite E.
    do 2 eexists. split; [reflexivity |]. cbn. repeat split; reflexivity.
  - intros bs t e1 Hbs Hclock Hge.
    rewrite (isEntryBlocked_expired _ _ w bs t e1 Hbs Hclock Hge). cbn.
    split; [reflexivity | apply lookup_delete_eq].
  - intros bs t e1 pos s' Hbs Hclock Hge Htf Hfind Htakes Hacc Hprep Husd
      Hopen.
    destruct (timeframe_1h_not_4h a Htf) as [H1h _].
    destruct (onOpen_after_expiry bot a w bs t e1 pos s' Hbs Hclock Hge H1h
                Hfind Htakes Hacc Hprep Husd Hopen)
      as (d & A & (size & oid & O) & M & S & B & _).
    exists d, size, oid. repeat split; assumption.
Qed.

End StrategyFacts.

(** ** The properties at work on the small system *)

Section Examples.
Import Router Strategy Example.

(** C4 at a SmartOpen payload with symbol and price. *)
Lemma toAlert_validates_witness :
  must_fail (payload_of "SmartOpen") = false
  /\ exists a, toAlert (payload_of "SmartOpen") = Ok a
               /\ type a = "SmartOpen" /\ kind a = smartvol.
Proof.
  split; [reflexivity |].
  destruct (toAlert_validates (payload_of "SmartOpen"))
    as (_ & _ & _ & _ & _ & Hok & _).
  destruct (Hok eq_refl) as (a & E & Ht & Hs & _).
  exists a. split; [exact E |]. split; [exact Ht |].
  apply Hs. rewrite Ht. reflexivity.
Defined.

(** On the general fan-out the two bots named "bad" throw an [Error] and
    the bots after them are invoked all the same ("carol" filters the symbol
    out); and on the domination pathway, where "bad" throws before "dora". *)
Lemma router_isolates_bot_failures_witness :
  (exists d,
     returns_adding (handle registry (payload_of "SmartOpen")) quiet d
     /\ List.map name (invoked d) = ["alice"; "bad"; "dave"; "bad"; "dora"]
     /\ failures_logged d)
  /\ (exists d,
        returns_adding (handle registry (payload_of "Buyer domination")) quiet d
        /\ List.map name (invoked d) = ["bad"; "dora"]
        /\ failures_logged d).
Proof.
  split.
  - destruct (router_isolates_bot_failures registry (payload_of "SmartOpen")
                (mkAlert smartvol "SmartOpen" "BTCUSDT" "50000" JUndefined None)
                quiet eq_refl) as (d & R & I & F).
    exists d. rewrite I. repeat split; assumption.
  - destruct (router_isolates_bot_failures registry
                (payload_of "Buyer domination")
                (mkAlert domination "Buyer domination" "BTCUSDT" "50000"
                         JUndefined None)
                quiet eq_refl) as (d & R & I & F).
    exists d. rewrite I. repeat split; assumption.
Defined.


(** C3 at a bot that rejects empty-handed. "bad" is first in the registry
    and its [process] rejects with [undefined]: [handle] rejects with the
    [TypeError], nothing is logged, and alice after it is not invoked. The
    same on the domination pathway, where the strategy rejects with [null]
    for "bad" and dora is not invoked. *)
Lemma nullish_rejection_escapes_router_witness :
  ((exists d,
      Rejections.rejects_adding
        (Rejections.handle [bad; alice] (payload_of "SmartOpen")) still
        (Rejections.TError (Rejections.cannot_read "undefined" "message")) d
      /\ Rejections.invoked d = [bad]
      /\ Rejections.complaints d = [])
   /\ ~ Rejections.isolates [bad; alice] (payload_of "SmartOpen") still
          [alice])
  /\ ((exists d,
         Rejections.rejects_adding
           (Rejections.handle [bad_dom; dora] (payload_of "Buyer domination"))
           still
           (Rejections.TError (Rejections.cannot_read "null" "message")) d
         /\ Rejections.invoked d = [bad_dom]
         /\ Rejections.complaints d = [])
      /\ ~ Rejections.isolates [bad_dom; dora]
             (payload_of "Buyer domination") still [dora]).
Proof.
  split.
  - exact (nullish_rejection_escapes_router bad [alice]
             (payload_of "SmartOpen")
             (mkAlert smartvol "SmartOpen" "BTCUSDT" "50000" JUndefined None)
             still JUndefined 1%nat eq_refl eq_refl eq_refl eq_refl).
  - exact (nullish_rejection_escapes_router bad_dom [dora]
             (payload_of "Buyer domination")
             (mkAlert domination "Buyer domination" "BTCUSDT" "50000"
                      JUndefined None)
             still JNull 1%nat eq_refl eq_refl eq_refl
             (conj eq_refl
                (ex_intro _ Router.onBuyerDomination
                   (conj eq_refl eq_refl)))).
Defined.

Lemma calm_market_takes_orders (b : Bot) :
  exchange b = everything -> takes_orders b.
Proof. intros E. unfold takes_orders. rewrite E. split; reflexivity. Qed.

Lemma calm_market_accepts_orders (b : Bot) : accepts_orders b.
Proof. split; intros; reflexivity. Qed.

Lemma calm_market_prepares_orders (b : Bot) : prepares_orders b.
Proof. repeat split; intros; reflexivity. Qed.

(** C1 for alice's position: after the three alerts the counter has gone
    0, 1, 2 and the store is empty. *)
Lemma three_smart_closes_witness :
  let w1 := (onClose alice smart_close_1h w_open).2 in
  let w2 := (onClose alice smart_close_1h w1).2 in
  let w3 := (onClose alice smart_close_1h w2).2 in
  closeCount w_open "alice" "BTCUSDT" = 0
  /\ closeCount w1 "alice" "BTCUSDT" = 1
  /\ closeCount w2 "alice" "BTCUSDT" = 2
  /\ store w2 = store w_open
  /\ store w3 = []
  /\ partialCloseStates w3 !! "alice:BTCUSDT" = None.
Proof.
  intros w1 w2 w3.
  destruct (three_smart_closes alice smart_close_1h w_open btc []
              eq_refl eq_refl eq_refl
              (calm_market_takes_orders alice eq_refl)
              (calm_market_accepts_orders alice) eq_refl eq_refl)
    as (d1 & d2 & d3 & oid & (_ & _ & _ & C1 & S1)
        & (_ & _ & _ & C2 & _) & (_ & _ & _ & S3 & P3)).
  split; [reflexivity |]. split; [exact C1 |]. split; [exact C2 |].
  split; [reflexivity |]. split; [exact S3 | exact P3].
Defined.

(** C2: a synchronization at clock 1000 blocks alice until 3 601 000; her
    SmartOpen at 2000 is turned away; her SmartOpen at 3 601 000 opens. *)
Lemma entry_block_window_witness :
  entryBlockStates (onFixedShortSynchronization alice synchronization_1h
                      w_empty).2 !! "alice:BTCUSDT"
    = Some (mkEntryBlockState "BTCUSDT" "alice" 3601000)
  /\ (exists d tu,
        adds (onOpen alice smart_open_1h) w_blocked d
        /\ notices d = [NEntryBlocked "alice" "BTCUSDT" tu]
        /\ orders d = [])
  /\ (exists d size oid,
        adds (onOpen alice smart_open_1h) w_expired d
        /\ orders d = [EPlaceMarket "alice" "BTCUSDT" buy size oid (Ok tt)]
        /\ store (onOpen alice smart_open_1h w_expired).2
           = [("alice", "BTCUSDT", mkPosition 0 1 "50000" "100/1")]).
Proof.
  split; [| split].
  - destruct (entry_block_window alice synchronization_1h w_empty)
      as (Hsync & _).
    exact (Hsync 1000 1001 _ eq_refl eq_refl (or_introl eq_refl)).
  - destruct (entry_block_window alice smart_open_1h w_blocked)
      as (_ & _ & Hrej & _).
    destruct (Hrej (mkEntryBlockState "BTCUSDT" "alice" 3601000) 2000 2001
                eq_refl eq_refl ltac:(cbn; lia))
      as (d & tu & A & N & O & _).
    exists d, tu. repeat split; assumption.
  - destruct (entry_block_window alice smart_open_1h w_expired)
      as (_ & _ & _ & _ & Hopen).
    destruct (Hopen (mkEntryBlockState "BTCUSDT" "alice" 3601000)
                3601000 3601001 (mkPosition 0 1 "50000" "100/1")
                [("alice", "BTCUSDT", mkPosition 0 1 "50000" "100/1")]
                eq_refl eq_refl ltac:(cbn; lia) eq_refl
                eq_refl
                (calm_market_takes_orders alice eq_refl)
                (calm_market_accepts_orders alice)
                (calm_market_prepares_orders alice) eq_refl eq_refl)
      as (d & size & oid & A & O & _ & S & _).
    exists d, size, oid. repeat split; assumption.
Defined.


(** There the add throws what the exchange threw, after the order and
    before any call that would change the store. *)
Example add_on_closed_market :
    @onAdd _ closed_market alice smart_add w_open_closed_market =
      (Throw (RuntimeError "exchange closed"),
       @mkWorld _ closed_market 1001 [("alice", "BTCUSDT", btc)] ∅ ∅
         [ ELog LLog (L_onAdd "BTCUSDT" "50000");
           EFindOpen "alice" "BTCUSDT" (Ok (Some btc));
           ECalcSizeFromUsd "alice" "BTCUSDT" (num_of_string "50000")
                            (addUsd alice) (Ok (JStr "1"));
           ENow 1000;
           EPlaceMarket "alice" "BTCUSDT" buy "1"
                        (mkOrderId "alice" "add" 1000)
                        (Throw (RuntimeError "exchange closed")) ]).
Proof. reflexivity. Qed.

(** C5 on the calm market: alice's add passes the order before the store. *)
Example add_orders_then_stores :
    trace (onAdd alice smart_add w_open).2 =
      [ ELog LLog (L_onAdd "BTCUSDT" "50000");
        EFindOpen "alice" "BTCUSDT" (Ok (Some btc));
        ECalcSizeFromUsd "alice" "BTCUSDT" (num_of_string "50000")
                         (addUsd alice) (Ok (JStr "1"));
        ENow 1000;
        EPlaceMarket "alice" "BTCUSDT" buy "1" (mkOrderId "alice" "add" 1000)
                     (Ok tt);
        EStoreAdd btc "50000" "50/1" (Ok tt);
        EFindOpen "alice" "BTCUSDT"
                  (Ok (Some (mkPosition 0 2 "50000" "100")));
        EGetPositionInfo (mkPosition 0 2 "50000" "100")
                         (num_of_string "50000") (Ok (mkPositionInfo None));
        ENotify "alice"
                (NAdded "alice" "BTCUSDT" "50000" (addUsd alice)
                        (mkPositionInfo None)) (Ok tt) ].
Proof. reflexivity. Qed.


(** C6 as the specification words it fails: alice's SmartOpen with
    timeframe "4h", with no position open and no block, is answered with a
    notification. *)
Lemma open_with_other_timeframe_is_not_silent :
  js_truthy (timeframe smart_open_4h) = true
  /\ js_is_str (timeframe smart_open_4h) "1h" = false
  /\ findOpen_port (store w_empty) (name alice) (symbol smart_open_4h) = Ok None
  /\ ~ ignored_in_silence alice smart_open_4h w_empty.
Proof.
  repeat split.
  intros (d & A & _ & _ & N & _).
  assert (trace (onOpen alice smart_open_4h w_empty).2 =
          [ ELog LLog (L_onOpen "BTCUSDT" "50000");
            ELog LLog (L_open_timeframe_skipped (JStr "4h"));
            ENotify "alice" (NTimeframeSkipped "alice" (JStr "4h")) (Ok tt) ])
    as E by reflexivity.
  unfold adds in A. rewrite E in A.
  change (trace w_empty ++ d) with d in A. subst d.
  discriminate N.
Qed.

(** C6 as the code has it: at the same input nothing is ordered and the one
    notice is the skip notice; while alice's block is in force the one
    notice is the entry-block notice. *)
Lemma open_with_other_timeframe_notifies_witness :
  (exists d,
     adds (onOpen alice smart_open_4h) w_empty d
     /\ orders d = [] /\ store_calls d = []
     /\ notices d =
          [NTimeframeSkipped (name alice) (timeframe smart_open_4h)])
  /\ (exists d tu,
        adds (onOpen alice smart_open_4h) w_blocked d
        /\ orders d = [] /\ store_calls d = []
        /\ notices d =
             [NEntryBlocked (name alice) (symbol smart_open_4h) tu]).
Proof.
  split.
  - destruct (open_with_other_timeframe_notifies alice smart_open_4h w_empty
                eq_refl eq_refl)
      as (d & n & A & O & S & N & Hfree & _).
    rewrite (Hfree I) in N.
    exists d. repeat split; assumption.
  - destruct (open_with_other_timeframe_notifies alice smart_open_4h
                w_blocked eq_refl eq_refl)
      as (d & n & A & O & S & N & _ & Hblocked & _).
    destruct Hblocked as [tu ->].
    { eexists. split; [reflexivity | cbn; lia]. }
    exists d, tu. repeat split; assumption.
Defined.

(** C7 as the specification words it fails: alice's position is full and
    her SmartOpen comes with timeframe "4h"; the notice sent is the skip
    notice, not "max fills reached". *)
Lemma full_position_open_without_max_fills_notice :
  findOpen_port (store w_full) (name alice) (symbol smart_open_4h)
    = Ok (Some btc_full)
  /\ maxFills_or_4 alice <= fillsCount btc_full
  /\ ~ refused_as_full (onOpen alice smart_open_4h) alice smart_open_4h w_full.
Proof.
  split; [reflexivity |]. split; [cbn; lia |].
  intros (d & A & _ & _ & _ & N).
  assert (trace (onOpen alice smart_open_4h w_full).2 =
          [ ELog LLog (L_onOpen "BTCUSDT" "50000");
            ELog LLog (L_open_timeframe_skipped (JStr "4h"));
            ENotify "alice" (NTimeframeSkipped "alice" (JStr "4h")) (Ok tt) ])
    as E by reflexivity.
  unfold adds in A. rewrite E in A.
  change (trace w_full ++ d) with d in A. subst d.
  cbn [notices] in N. apply list_elem_of_singleton in N. discriminate N.
Qed.

(** C7 as the code has it, on alice's full position: her SmartVolAdd, and
    her SmartOpen with timeframe "1h", get the "max fills reached" notice
    and no order; her SmartOpen with timeframe "4h" gets the skip notice,
    and her SmartOpen while a block is in force the entry-block notice. *)
Lemma full_position_takes_no_fill_witness :
  (exists r e',
     onAdd alice smart_add w_full =
       (r, {| env := e'; store := store w_full;
              partialCloseStates := partialCloseStates w_full;
              entryBlockStates := entryBlockStates w_full;
              trace := trace w_full ++
                [ ELog LLog (L_onAdd (symbol smart_add) (price smart_add));
                  EFindOpen (name alice) (symbol smart_add)
                            (Ok (Some btc_full));
                  ENotify (name alice)
                          (NMaxFills (name alice) (symbol smart_add)) r ] |}))
  /\ (exists d,
        adds (onOpen alice smart_open_1h) w_full d
        /\ orders d = [] /\ store_mutations d = []
        /\ notices d = [NMaxFills (name alice) (symbol smart_open_1h)])
  /\ (exists d,
        adds (onOpen alice smart_open_4h) w_full d
        /\ orders d = []
        /\ notices d =
             [NTimeframeSkipped (name alice) (timeframe_or_1h smart_open_4h)])
  /\ (let w := world_of 2000 [("alice", "BTCUSDT", btc_full)]
                        (blocked_until 3601000) in
      exists d tu,
        adds (onOpen alice smart_open_1h) w d
        /\ orders d = []
        /\ notices d =
             [NEntryBlocked (name alice) (symbol smart_open_1h) tu]).
Proof.
  split; [| split; [| split]].
  - exact (proj1 (full_position_takes_no_fill alice smart_add w_full btc_full
                    eq_refl ltac:(cbn; lia))).
  - destruct (full_position_takes_no_fill alice smart_open_1h w_full btc_full
                eq_refl ltac:(cbn; lia))
      as (_ & d & n & A & O & M & _ & _ & N & _ & _ & Hn).
    rewrite (Hn I eq_refl) in N.
    exists d. repeat split; assumption.
  - destruct (full_position_takes_no_fill alice smart_open_4h w_full btc_full
                eq_refl ltac:(cbn; lia))
      as (_ & d & n & A & O & _ & _ & _ & N & _ & Hn & _).
    rewrite (Hn I eq_refl) in N.
    exists d. repeat split; assumption.
  - intros w.
    destruct (full_position_takes_no_fill alice smart_open_1h w btc_full
                eq_refl ltac:(cbn; lia))
      as (_ & d & n & A & O & _ & _ & _ & N & Hn & _).
    destruct Hn as [tu ->].
    { eexists. split; [reflexivity | cbn; lia]. }
    exists d, tu. repeat split; assumption.
Defined.

(** C8 with no position in the store. *)
Lemma no_position_no_op_witness :
  onAdd alice smart_add w_empty =
    (Ok tt,
     add_events
       [ ELog LLog (L_onAdd (symbol smart_add) (price smart_add));
         EFindOpen (name alice) (symbol smart_add) (Ok None);
         ELog LLog (L_add_no_position (symbol smart_add) (name alice)) ]
       w_empty).
Proof.
  exact (proj1 (no_position_no_op alice smart_add w_empty eq_refl)).
Defined.

(** So the SmartOpen without a timeframe opens a position. *)
Example open_without_timeframe :
  store (onOpen alice smart_open_unset w_empty).2
  = [("alice", "BTCUSDT", mkPosition 0 1 "50000" "100/1")].
Proof. reflexivity. Qed.

(** C10: alice is blocked and holds a position; her SmartOpen does not
    reach the store. *)
Lemma entry_block_precedes_store_lookup_witness :
  exists d,
    trace (onOpen alice smart_open_1h w_blocked).2 = trace w_blocked ++ d
    /\ store_calls d = []
    /\ orders d = []
    /\ store (onOpen alice smart_open_1h w_blocked).2 = store w_blocked.
Proof.
  destruct (entry_block_precedes_store_lookup alice smart_open_1h w_blocked
              (mkEntryBlockState "BTCUSDT" "alice" 3601000) 2000 2001
              eq_refl eq_refl ltac:(cbn; lia))
    as (d & A & S & O & _ & _ & St & _).
  exists d. repeat split; assumption.
Defined.

End Examples.

(** * Further properties of the strategy *)

Section StrategyMore.
Context `{JsNumber} `{!Strategy.Externals}.
Import Strategy.

Ltac unfold_methods :=
  unfold getOrCreateState, set_close_count,
    clearState, isEntryBlocked, blockEntry, getTimeUntilUnblock,
    notify, not_allowed, ensureLeverage, calcSizeFromUsd, placeMarket,
    flashClose, findOpen, store_open, store_add, store_close, calculatePnL,
    getPositionInfo, get_partialCloseState, set_partialCloseState,
    delete_partialCloseState, get_entryBlockState, set_entryBlockState,
    delete_entryBlockState, date_now, log, env_call, store_call, store_read,
    try_catch, bind, ret, throw, lift.

Ltac reduce :=
  unfold emit, with_env, with_store, with_partialCloseStates,
    with_entryBlockStates, add_events;
  cbn [env store partialCloseStates entryBlockStates trace fst snd].

Ltac waiting_for t :=
  lazymatch t with
  | match ?x with _ => _ end => waiting_for x
  | (match ?x with _ => _ end) _ => waiting_for x
  | _ => t
  end.

(** Split on whatever the run is waiting for, until it has its result. *)
Ltac run_to_end :=
  repeat (reduce;
          lazymatch goal with
          | |- (_, _) = _ -> _ => fail
          | |- ?m = _ -> _ => let x := waiting_for m in destruct x eqn:?
          end).

Ltac run m :=
  let r := fresh "r" in
  let w' := fresh "w'" in
  let Hrun := fresh "Hrun" in
  destruct m as [r w'] eqn:Hrun; revert Hrun.

Ltac unfold_handlers :=
  unfold onOpen, onAdd, onClose, onBigClose, onBigAdd, onSmartVolumeOpen,
    onBullishVolume, onVolumeUp, onFixedShortSynchronization,
    onLiveShortSynchronization.

Ltac pick_handler Hin :=
  unfold handlers, non_closing_handlers, unblockable_handlers,
    passive_handlers in Hin;
  repeat (apply elem_of_cons in Hin as [-> | Hin]);
  [.. | apply elem_of_nil in Hin; destruct Hin].

(** ** The state keys *)

Lemma getStateKey_cons (c : Ascii.ascii) (b s : string) :
  getStateKey (String c b) s = String c (getStateKey b s).
Proof. reflexivity. Qed.

(** Two pairs of a bot name and a symbol get the same key as soon as the
    ':' can be read in two places: the maps of the strategy do not tell
    bot "b:s" on symbol "t" from bot "b" on symbol "s:t". *)
Theorem getStateKey_collides (b s t : string) :
  getStateKey (b +:+ ":" +:+ s) t = getStateKey b (s +:+ ":" +:+ t).
Proof.
  unfold getStateKey.
  induction b as [| c b IH]; [reflexivity |].
  change (String c ((b +:+ ":" +:+ s) +:+ ":" +:+ t)
          = String c (b +:+ ":" +:+ s +:+ ":" +:+ t)).
  rewrite IH. reflexivity.
Qed.

(** Among bots whose names have no ':' the key tells the pair: equal keys
    come from the same bot and the same symbol. *)
Theorem getStateKey_injective (b1 b2 s1 s2 : string) :
  no_colon b1 = true -> no_colon b2 = true ->
  getStateKey b1 s1 = getStateKey b2 s2 ->
  b1 = b2 /\ s1 = s2.
Proof.
  revert b2. induction b1 as [| c1 b1 IH]; intros [| c2 b2] H1 H2 Hk.
  - injection Hk as Hk. change (s1 = s2) in Hk. done.
  - rewrite getStateKey_cons in Hk. injection Hk as Hc _.
    rewrite <- Hc in H2. discriminate H2.
  - rewrite getStateKey_cons in Hk. injection Hk as Hc _.
    rewrite Hc in H1. discriminate H1.
  - rewrite !getStateKey_cons in Hk. injection Hk as -> Hk.
    cbn in H1, H2. apply andb_prop in H1 as [_ H1], H2 as [_ H2].
    destruct (IH b2 H1 H2 Hk) as [-> ->]. done.
Qed.


(** ** The text of the remaining time *)

(** [getTimeUntilUnblock] while the key is blocked: the hours and minutes
    it reports are the remaining time rounded down to the minute; the
    minutes stay below 60, and a block of at most one hour reports one hour
    only when the whole hour is left. Nothing but the clock is touched. *)
Theorem time_until_unblock_rounds_down (botName sym : string) (w : World)
  (bs : EntryBlockState) (t : Z) (e1 : Env) :
  entryBlockStates w !! getStateKey botName sym = Some bs ->
  clock_port (env w) = (t, e1) ->
  t < blockedUntil bs ->
  exists hours minutes,
    getTimeUntilUnblock botName sym w =
      (Ok (Remaining hours minutes),
       {| env := e1; store := store w;
          partialCloseStates := partialCloseStates w;
          entryBlockStates := entryBlockStates w;
          trace := trace w ++ [ENow t] |})
    /\ 0 <= hours /\ 0 <= minutes < 60
    /\ hours * 3600000 + minutes * 60000 <= blockedUntil bs - t
       < hours * 3600000 + (minutes + 1) * 60000
    /\ (blockedUntil bs - t <= 3600000 ->
        hours = 0 \/ (hours = 1 /\ minutes = 0
                      /\ blockedUntil bs - t = 3600000)).
Proof.
  intros Hbs Hclock Hlt.
  unfold getTimeUntilUnblock; unfold_methods; reduce.
  rewrite Hbs. reduce. rewrite Hclock. reduce.
  rewrite Z.geb_leb, (proj2 (Z.leb_gt _ _) Hlt). reduce.
  do 2 eexists. split; [reflexivity |].
  change (1000 * 60 * 60) with 3600000. change (1000 * 60) with 60000.
  set (rem := blockedUntil bs - t). assert (0 < rem) by (subst rem; lia).
  clearbody rem.
  pose proof (Z.div_mod rem 3600000 ltac:(lia)).
  pose proof (Z.mod_pos_bound rem 3600000 ltac:(lia)).
  pose proof (Z.div_mod (rem mod 3600000) 60000 ltac:(lia)).
  pose proof (Z.mod_pos_bound (rem mod 3600000) 60000 ltac:(lia)).
  assert (0 <= rem / 3600000) by (apply Z.div_pos; lia).
  assert (0 <= rem mod 3600000 / 60000) by (apply Z.div_pos; lia).
  repeat split; try lia.
Qed.

(** ** The partial-close state of a key *)

(** [getOrCreateState] hands out the state the map holds under the key
    afterwards; a state that was there is handed out as it is (its counter
    is not reset) and a new one counts 0; asking again returns the same
    state and changes nothing, not even the clock is read. *)
Theorem getOrCreateState_settles (botName sym : string) (w : World) :
  exists st,
    (getOrCreateState botName sym w).1 = Ok st
    /\ partialCloseStates (getOrCreateState botName sym w).2
         !! getStateKey botName sym = Some st
    /\ smartVolCloseCount st = closeCount w botName sym
    /\ getOrCreateState botName sym (getOrCreateState botName sym w).2
       = (Ok st, (getOrCreateState botName sym w).2)
    /\ (forall k, k <> getStateKey botName sym ->
          partialCloseStates (getOrCreateState botName sym w).2 !! k
          = partialCloseStates w !! k).
Proof.
  unfold closeCount.
  unfold getOrCreateState; unfold_methods; reduce.
  destruct (partialCloseStates w !! getStateKey botName sym) as [st |] eqn:Hst.
  - exists st. reduce. rewrite Hst. repeat split; reflexivity.
  - reduce. destruct (clock_port (env w)) as [t e1]. reduce.
    eexists. rewrite !lookup_insert_eq.
    repeat split; try reflexivity.
    intros k Hk. rewrite lookup_insert_ne by done. reflexivity.
Qed.

(** [clearState] forgets the counter of its key and of no other key; the
    next [getOrCreateState] starts again from 0. *)
Theorem clearState_restarts (botName sym : string) (w : World) :
  (clearState botName sym w).1 = Ok tt
  /\ closeCount (clearState botName sym w).2 botName sym = 0
  /\ (forall k, k <> getStateKey botName sym ->
        partialCloseStates (clearState botName sym w).2 !! k
        = partialCloseStates w !! k)
  /\ exists st,
       (getOrCreateState botName sym (clearState botName sym w).2).1 = Ok st
       /\ smartVolCloseCount st = 0.
Proof.
  unfold closeCount, clearState, getOrCreateState; unfold_methods; reduce.
  rewrite !lookup_delete_eq. reduce.
  split; [reflexivity |]. split; [reflexivity |]. split.
  - intros k Hk. rewrite lookup_delete_ne by done. reflexivity.
  - destruct (clock_port (env w)) as [t e1]. reduce.
    eexists. split; reflexivity.
Qed.


(** ** What the handlers leave alone *)

(** A relation between the world before and the world after that holds
    for the primitive steps holds for every computation built from them. *)
Section Keeping.
Variable R : World -> World -> Prop.
Hypothesis R_refl : forall w, R w w.
Hypothesis R_trans : forall w1 w2 w3, R w1 w2 -> R w2 w3 -> R w1 w3.

Lemma keeps_ret {A} (x : A) : keeps R (ret x).
Proof. intros w. apply R_refl. Qed.

Lemma keeps_throw {A} (e : Error) : keeps R (@throw World A e).
Proof. intros w. apply R_refl. Qed.

Lemma keeps_bind {A B} (m : M World A) (k : A -> M World B) :
  keeps R m -> (forall x, keeps R (k x)) -> keeps R (bind m k).
Proof.
  intros Hm Hk w. unfold bind. specialize (Hm w).
  destruct (m w) as [[x | e] w1]; cbn in *; [| exact Hm].
  eapply R_trans; [exact Hm | apply Hk].
Qed.

Lemma keeps_try_catch {A} (m : M World A) (h : Error -> M World A) :
  keeps R m -> (forall e, keeps R (h e)) -> keeps R (try_catch m h).
Proof.
  intros Hm Hh w. unfold try_catch. specialize (Hm w).
  destruct (m w) as [[x | e] w1]; cbn in *; [exact Hm |].
  eapply R_trans; [exact Hm | apply Hh].
Qed.

End Keeping.

Ltac head_of t :=
  lazymatch t with
  | ?f _ => head_of f
  | _ => t
  end.

(** Walk through a computation: [leaf] settles the primitive steps. *)
Ltac keeps_walk refl trans leaf :=
  repeat (cbv zeta;
          first
            [ leaf
            | lazymatch goal with
              | |- keeps _ (bind _ _) =>
                  apply (keeps_bind _ trans); [| intros ?]
              | |- keeps _ (try_catch _ _) =>
                  apply (keeps_try_catch _ trans); [| intros ?]
              | |- keeps _ (ret _) => apply (keeps_ret _ refl)
              | |- keeps _ (throw _) => apply (keeps_throw _ refl)
              | |- keeps _ (if ?b then _ else _) => destruct b
              | |- keeps _ (match ?x with _ => _ end) => destruct x
              | |- keeps _ ?m => let h := head_of m in unfold h
              end ]).

(** A primitive step, run. *)
Ltac run_primitive :=
  unfold keeps, agree_off, bounded_step, same_counts, same_blocks, no_trade;
  intros w;
  unfold log, date_now, env_call, store_call, store_read,
    get_partialCloseState, set_partialCloseState, delete_partialCloseState,
    get_entryBlockState, set_entryBlockState, delete_entryBlockState;
  cbv beta;
  repeat match goal with
         | |- context [let '(_, _) := ?x in _] => destruct x
         end;
  reduce.

Ltac is_primitive :=
  lazymatch goal with
  | |- keeps _ (log _ _) => idtac
  | |- keeps _ date_now => idtac
  | |- keeps _ (env_call _ _) => idtac
  | |- keeps _ (store_call _ _) => idtac
  | |- keeps _ (store_read _ _) => idtac
  | |- keeps _ (get_partialCloseState _) => idtac
  | |- keeps _ (set_partialCloseState _ _) => idtac
  | |- keeps _ (delete_partialCloseState _) => idtac
  | |- keeps _ (get_entryBlockState _) => idtac
  | |- keeps _ (set_entryBlockState _ _) => idtac
  | |- keeps _ (delete_entryBlockState _) => idtac
  end.

(** *** Other keys *)

Lemma agree_off_refl (key : string) (w : World) : agree_off key w w.
Proof. intros k Hk. done. Qed.

Lemma agree_off_trans (key : string) (w1 w2 w3 : World) :
  agree_off key w1 w2 -> agree_off key w2 w3 -> agree_off key w1 w3.
Proof.
  intros H12 H23 k Hk. destruct (H12 k Hk), (H23 k Hk). split; congruence.
Qed.

(** Whatever the ports answer, a handler changes the two maps of the
    strategy under the key of its own bot and symbol at most: the counters
    and the entry blocks of every other key stay as they are. *)
Theorem handlers_keep_to_their_key (bot : Bot) (a : Alert) (w : World)
  (m : M World unit) (k : string) :
  m ∈ handlers bot a ->
  k <> getStateKey (name bot) (symbol a) ->
  partialCloseStates (m w).2 !! k = partialCloseStates w !! k
  /\ entryBlockStates (m w).2 !! k = entryBlockStates w !! k.
Proof.
  intros Hin Hk.
  enough (keeps (agree_off (getStateKey (name bot) (symbol a))) m) as Hm
    by exact (Hm w k Hk).
  clear w k Hk. pick_handler Hin.
  all: keeps_walk (agree_off_refl (getStateKey (name bot) (symbol a)))
                  (agree_off_trans (getStateKey (name bot) (symbol a)))
                  ltac:(is_primitive; run_primitive; intros k Hk;
                        rewrite ?lookup_insert_ne, ?lookup_delete_ne by done;
                        done).
Qed.


(** *** The counters *)

Lemma bounded_step_refl (w : World) : bounded_step w w.
Proof. intros Hb. exact Hb. Qed.

Lemma bounded_step_trans (w1 w2 w3 : World) :
  bounded_step w1 w2 -> bounded_step w2 w3 -> bounded_step w1 w3.
Proof. unfold bounded_step. auto. Qed.

(** The close counters never leave 0, 1, 2: if every counter held is in
    that range, it still is after any handler, whatever the ports answer. *)
Theorem close_counters_stay_bounded (bot : Bot) (a : Alert) (w : World)
  (m : M World unit) :
  m ∈ handlers bot a ->
  counts_bounded w -> counts_bounded (m w).2.
Proof.
  intros Hin.
  enough (keeps bounded_step m) as Hm by exact (Hm w).
  clear w. pick_handler Hin.
  all: keeps_walk bounded_step_refl bounded_step_trans
         ltac:(is_primitive; run_primitive; intros Hb k st Hl; cbn in Hl;
               try (apply lookup_insert_Some in Hl as [[_ <-] | [_ Hl]];
                    [cbn; lia |]);
               try (apply lookup_delete_Some in Hl as [_ Hl]);
               exact (Hb k st Hl)).
Qed.

Lemma same_counts_refl (w : World) : same_counts w w.
Proof. intros b s. reflexivity. Qed.

Lemma same_counts_trans (w1 w2 w3 : World) :
  same_counts w1 w2 -> same_counts w2 w3 -> same_counts w1 w3.
Proof. intros H12 H23 b s. rewrite H23. apply H12. Qed.

Lemma getOrCreateState_same_counts (botName sym : string) :
  keeps same_counts (getOrCreateState botName sym).
Proof.
  intros w b s. unfold closeCount.
  unfold getOrCreateState; unfold_methods; reduce.
  destruct (partialCloseStates w !! getStateKey botName sym) as [st |] eqn:Hst;
    [reflexivity |].
  reduce. destruct (clock_port (env w)) as [t e1]. reduce.
  destruct (decide (getStateKey b s = getStateKey botName sym)) as [-> | Hne].
  - rewrite lookup_insert_eq, Hst. reflexivity.
  - rewrite lookup_insert_ne by done. reflexivity.
Qed.

(** Only the two closes move a close counter: an open, an add, a big add,
    the volume alerts and the synchronizations leave the counter of every
    key at its value (a key without state counts 0 before and after, also
    when [onOpen] creates its state). *)
Theorem only_closes_move_the_counter (bot : Bot) (a : Alert) (w : World)
  (m : M World unit) (botName sym : string) :
  m ∈ non_closing_handlers bot a ->
  closeCount (m w).2 botName sym = closeCount w botName sym.
Proof.
  intros Hin.
  enough (keeps same_counts m) as Hm by exact (Hm w botName sym).
  clear w botName sym. pick_handler Hin.
  all: keeps_walk same_counts_refl same_counts_trans
         ltac:(first [ apply getOrCreateState_same_counts
                     | is_primitive; run_primitive; intros ? ?;
                       reflexivity ]).
Qed.

(** *** The store and the exchange *)

Lemma no_trade_refl (w : World) : no_trade w w.
Proof. split; [reflexivity |]. exists []. rewrite app_nil_r. done. Qed.

Lemma no_trade_trans (w1 w2 w3 : World) :
  no_trade w1 w2 -> no_trade w2 w3 -> no_trade w1 w3.
Proof.
  intros [S12 (d1 & T1 & X1 & C1)] [S23 (d2 & T2 & X2 & C2)].
  split; [congruence |]. exists (d1 ++ d2).
  unfold exchange_calls, store_calls in *.
  rewrite T2, T1, app_assoc, !List.filter_app, X1, X2, C1, C2. done.
Qed.

(** A big add, the volume alerts and the synchronizations ask nothing of
    the exchange and nothing of the store, whatever the notifier answers. *)
Theorem passive_handlers_do_not_trade (bot : Bot) (a : Alert) (w : World)
  (m : M World unit) :
  m ∈ passive_handlers bot a ->
  store (m w).2 = store w
  /\ exists d, adds m w d /\ exchange_calls d = [] /\ store_calls d = [].
Proof.
  intros Hin.
  enough (keeps no_trade m) as Hm by exact (Hm w).
  clear w. pick_handler Hin.
  all: keeps_walk no_trade_refl no_trade_trans
         ltac:(is_primitive; run_primitive;
               split; [reflexivity |];
               first [ exists []; rewrite app_nil_r; done
                     | eexists; split; [reflexivity |]; split; reflexivity ]).
Qed.

(** *** The entry blocks *)

Lemma blind_ret {A} (x : A) : blind_to_blocks (@ret World A x).
Proof. intros blocks w. reflexivity. Qed.

Lemma blind_throw {A} (e : Error) : blind_to_blocks (@throw World A e).
Proof. intros blocks w. reflexivity. Qed.

Lemma blind_bind {A B} (m : M World A) (k : A -> M World B) :
  blind_to_blocks m -> (forall x, blind_to_blocks (k x)) ->
  blind_to_blocks (bind m k).
Proof.
  intros Hm Hk blocks w. unfold bind. rewrite Hm.
  destruct (m w) as [[x | e] w1]; cbn; [apply Hk | reflexivity].
Qed.

Lemma blind_try_catch {A} (m : M World A) (h : Error -> M World A) :
  blind_to_blocks m -> (forall e, blind_to_blocks (h e)) ->
  blind_to_blocks (try_catch m h).
Proof.
  intros Hm Hh blocks w. unfold try_catch. rewrite Hm.
  destruct (m w) as [[x | e] w1]; cbn; [reflexivity | apply Hh].
Qed.

Ltac blind_walk :=
  repeat (cbv zeta;
          first
            [ lazymatch goal with
              | |- blind_to_blocks (bind _ _) =>
                  apply blind_bind; [| intros ?]
              | |- blind_to_blocks (try_catch _ _) =>
                  apply blind_try_catch; [| intros ?]
              | |- blind_to_blocks (ret _) => apply blind_ret
              | |- blind_to_blocks (throw _) => apply blind_throw
              | |- blind_to_blocks (if ?b then _ else _) => destruct b
              | |- blind_to_blocks (match ?x with _ => _ end) => destruct x
              | |- blind_to_blocks (get_entryBlockState _) => fail
              | |- blind_to_blocks (set_entryBlockState _ _) => fail
              | |- blind_to_blocks (delete_entryBlockState _) => fail
              | |- blind_to_blocks (log _ _) => intros ? ?; reflexivity
              | |- blind_to_blocks (get_partialCloseState _) =>
                  intros ? ?; reflexivity
              | |- blind_to_blocks (set_partialCloseState _ _) =>
                  intros ? ?; reflexivity
              | |- blind_to_blocks (delete_partialCloseState _) =>
                  intros ? ?; reflexivity
              | |- blind_to_blocks (store_read _ _) => intros ? ?; reflexivity
              | |- blind_to_blocks date_now =>
                  intros ? w; unfold date_now; reduce;
                  destruct (clock_port (env w)); reflexivity
              | |- blind_to_blocks (env_call ?p _) =>
                  intros ? w; unfold env_call; reduce;
                  destruct (p (env w)); reflexivity
              | |- blind_to_blocks (store_call ?p _) =>
                  intros ? w; unfold store_call; reduce;
                  destruct (p (store w)); reflexivity
              | |- blind_to_blocks ?m => let h := head_of m in unfold h
              end ]).

Lemma with_own_entryBlockStates (w : World) :
  with_entryBlockStates (entryBlockStates w) w = w.
Proof. destruct w. reflexivity. Qed.

(** The entry block gates opening only. An add, a close, a big close and a
    big add never look at the entry blocks and never change them: run with
    any other entry blocks they return the same, do the same calls and
    leave the same state, the entry blocks apart, which they hand on. *)
Theorem entry_blocks_gate_opening_only (bot : Bot) (a : Alert) (w : World)
  (m : M World unit) :
  m ∈ unblockable_handlers bot a ->
  entryBlockStates (m w).2 = entryBlockStates w
  /\ forall blocks,
       m (with_entryBlockStates blocks w)
       = ((m w).1, with_entryBlockStates blocks (m w).2).
Proof.
  intros Hin.
  enough (blind_to_blocks m) as Hm.
  { split; [| intros blocks; apply Hm].
    pose proof (Hm (entryBlockStates w) w) as E.
    rewrite with_own_entryBlockStates in E.
    destruct (m w) as [r w1]. cbn in *. injection E as E.
    rewrite E at 1. reflexivity. }
  clear w. pick_handler Hin.
  all: blind_walk.
Qed.


(** ** Full closes *)

(** Put what is assumed of a port in place of its call. *)
Ltac assumed_answer :=
  match goal with
  | Hp : forall sid e, (isAllowed_port ?b sid e).1 = Ok _
    |- context [isAllowed_port ?b ?s ?e] =>
      let X := fresh in
      pose proof (Hp s e) as X;
      destruct (isAllowed_port b s e) as [? ?]; cbn [fst] in X; subst
  | Hp : forall sid lev e, (ensureLeverage_port ?b sid lev e).1 = Ok tt
    |- context [ensureLeverage_port ?b ?s ?l ?e] =>
      let X := fresh in
      pose proof (Hp s l e) as X;
      destruct (ensureLeverage_port b s l e) as [? ?]; cbn [fst] in X; subst
  | Hp : forall sid p u e, is_ok (calcSizeFromUsd_port ?b sid p u e).1 = true
    |- context [calcSizeFromUsd_port ?b ?s ?p ?u ?e] =>
      let X := fresh in
      pose proof (Hp s p u e) as X;
      destruct (calcSizeFromUsd_port b s p u e) as [[? | ?] ?];
      cbn [fst is_ok] in X; [clear X | discriminate X]
  | Hp : forall sid side size oid e,
           (placeMarket_port ?b sid side size oid e).1 = Ok tt
    |- context [placeMarket_port ?b ?s ?d ?z ?o ?e] =>
      let X := fresh in
      pose proof (Hp s d z o e) as X;
      destruct (placeMarket_port b s d z o e) as [? ?]; cbn [fst] in X; subst
  | Hp : forall sym hold e, (flashClose_port ?b sym hold e).1 = Ok tt
    |- context [flashClose_port ?b ?s ?h ?e] =>
      let X := fresh in
      pose proof (Hp s h e) as X;
      destruct (flashClose_port b s h e) as [? ?]; cbn [fst] in X; subst
  end.

Ltac any_notify :=
  match goal with
  | |- context [notify_port ?b ?n ?e] =>
      destruct (notify_port b n e) as [[[] | ?] ?]
  end.

Ltac any_clock :=
  match goal with
  | |- context [clock_port ?e] => destruct (clock_port e) as [? ?]
  end.

Ltac tidy := rewrite <- ?app_assoc; cbn [app].

(** A SmartClose with timeframe "4h" closes the whole position at once,
    whatever the close counter of the key says: flash-close, then
    [store.close], the counter dropped, and the 4h notice. *)
Theorem close_4h_closes_everything (bot : Bot) (a : Alert) (w : World)
  (pos : Position) (s' : Store) :
  timeframe a = JStr "4h" ->
  findOpen_port (store w) (name bot) (symbol a) = Ok (Some pos) ->
  takes_orders bot -> accepts_orders bot ->
  is_ok (calculatePnL_port (store w) pos (num_of_string (price a))) = true ->
  close_port (store w) pos (price a) = (Ok tt, s') ->
  exists d final,
    adds (onClose bot a) w d
    /\ orders d = [EFlashClose (name bot) (symbol a) "long" (Ok tt)]
    /\ store_mutations d = [EStoreClose pos (price a) (Ok tt)]
    /\ notices d = [NClosed4h (name bot) (symbol a) (price a) final]
    /\ store (onClose bot a w).2 = s'
    /\ partialCloseStates (onClose bot a w).2
       = delete (getStateKey (name bot) (symbol a)) (partialCloseStates w)
    /\ entryBlockStates (onClose bot a w).2 = entryBlockStates w.
Proof.
  intros Htf Hfind [_ Hfc] [_ Hacc] Hpnl Hclose.
  assert (js_is_str (timeframe_or_1h a) "4h" = true) as H4h
    by (unfold timeframe_or_1h; rewrite Htf; reflexivity).
  unfold adds.
  unfold onClose; unfold_methods; reduce.
  rewrite Hfind. reduce. rewrite H4h. reduce. rewrite Hfc. reduce.
  assumed_answer. reduce.
  destruct (calculatePnL_port _ _ _) as [pl | ?]; [| discriminate Hpnl].
  reduce. rewrite Hclose. reduce.
  any_notify; reduce; tidy;
    (do 2 eexists; split; [reflexivity |]; cbn; repeat split; reflexivity).
Qed.

(** A SmartBigClose closes the whole position, whatever the timeframe of
    the alert and whatever the close counter: flash-close, then
    [store.close], the counter dropped, and the big-close notice. *)
Theorem big_close_closes_everything (bot : Bot) (a : Alert) (w : World)
  (pos : Position) (s' : Store) :
  findOpen_port (store w) (name bot) (symbol a) = Ok (Some pos) ->
  takes_orders bot -> accepts_orders bot ->
  is_ok (calculatePnL_port (store w) pos (num_of_string (price a))) = true ->
  close_port (store w) pos (price a) = (Ok tt, s') ->
  exists d final,
    adds (onBigClose bot a) w d
    /\ orders d = [EFlashClose (name bot) (symbol a) "long" (Ok tt)]
    /\ store_mutations d = [EStoreClose pos (price a) (Ok tt)]
    /\ notices d = [NBigClose (name bot) (symbol a) (price a) final]
    /\ store (onBigClose bot a w).2 = s'
    /\ partialCloseStates (onBigClose bot a w).2
       = delete (getStateKey (name bot) (symbol a)) (partialCloseStates w)
    /\ entryBlockStates (onBigClose bot a w).2 = entryBlockStates w.
Proof.
  intros Hfind [_ Hfc] [_ Hacc] Hpnl Hclose.
  unfold adds.
  unfold onBigClose; unfold_methods; reduce.
  rewrite Hfind. reduce. rewrite Hfc. reduce.
  assumed_answer. reduce.
  destruct (calculatePnL_port _ _ _) as [pl | ?]; [| discriminate Hpnl].
  reduce. rewrite Hclose. reduce.
  any_notify; reduce; tidy;
    (do 2 eexists; split; [reflexivity |]; cbn; repeat split; reflexivity).
Qed.


(** ** Opening and adding *)

(** [onOpen] sends the buy order before it looks at the bot's base USD: with
    a base USD of 0 or NaN, on a key that is free and has no position, the
    order goes to the exchange all the same, and only then the method
    stops, with the configuration notice and without storing a position. *)
Theorem open_orders_before_usd_check (bot : Bot) (a : Alert) (w : World) :
  entryBlockStates w !! getStateKey (name bot) (symbol a) = None ->
  js_is_str (timeframe_or_1h a) "1h" = true ->
  findOpen_port (store w) (name bot) (symbol a) = Ok None ->
  takes_orders bot -> accepts_orders bot -> prepares_orders bot ->
  usd_unusable (baseUsd bot) = true ->
  exists d size oid,
    adds (onOpen bot a) w d
    /\ orders d = [EPlaceMarket (name bot) (toBitgetSymbolId (symbol a))
                                buy size oid (Ok tt)]
    /\ store_mutations d = []
    /\ notices d = [NBaseUsdMissing (name bot)]
    /\ store (onOpen bot a w).2 = store w
    /\ partialCloseStates (onOpen bot a w).2 = partialCloseStates w.
Proof.
  intros Hbs Htf Hfind [Hpm _] [Hacc _] (Hall & Hlev & Hsize) Husd.
  unfold adds.
  unfold onOpen; unfold_methods; reduce.
  rewrite Hbs. reduce. rewrite Htf. cbn [negb]. reduce.
  rewrite Hfind. reduce. rewrite Hpm, Husd.
  destruct (has_isAllowed (exchange bot)); reduce;
    [assumed_answer; cbn [negb]; reduce |];
    (destruct (has_ensureLeverage (exchange bot)); reduce;
       [assumed_answer; reduce |]);
    (destruct (has_calcSizeFromUsd (exchange bot)); reduce;
       [assumed_answer; reduce |]);
    any_clock; reduce; assumed_answer; reduce;
    any_notify; reduce; tidy;
    (do 3 eexists; split; [reflexivity |]; cbn; repeat split; reflexivity).
Qed.

(** [onAdd] looks at the bot's add USD first: with an add USD of 0 or NaN
    nothing is asked of the exchange and nothing is stored; the method
    logs the error and sends the configuration notice. *)
Theorem add_checks_usd_before_order (bot : Bot) (a : Alert) (w : World)
  (pos : Position) :
  findOpen_port (store w) (name bot) (symbol a) = Ok (Some pos) ->
  fillsCount pos < maxFills_or_4 bot ->
  usd_unusable (addUsd bot) = true ->
  exists r e',
    onAdd bot a w =
      (r, {| env := e'; store := store w;
             partialCloseStates := partialCloseStates w;
             entryBlockStates := entryBlockStates w;
             trace := trace w ++
               [ ELog LLog (L_onAdd (symbol a) (price a));
                 EFindOpen (name bot) (symbol a) (Ok (Some pos));
                 ELog LError (L_addUsd_error (addUsd bot));
                 ENotify (name bot) (NAddUsdMissing (name bot)) r ] |}).
Proof.
  intros Hfind Hfills Husd.
  unfold onAdd; unfold_methods; reduce.
  rewrite Hfind. reduce.
  rewrite Z.geb_leb, (proj2 (Z.leb_gt _ _) Hfills), Husd. reduce.
  any_notify; reduce; tidy; do 2 eexists; reflexivity.
Qed.

(** A symbol the exchange does not allow is not opened: after the one
    question to the exchange, no order, nothing stored, the "not allowed"
    notice. *)
Theorem open_refuses_disallowed_symbol (bot : Bot) (a : Alert) (w : World) :
  entryBlockStates w !! getStateKey (name bot) (symbol a) = None ->
  js_is_str (timeframe_or_1h a) "1h" = true ->
  findOpen_port (store w) (name bot) (symbol a) = Ok None ->
  has_isAllowed (exchange bot) = true ->
  (forall sid e, (isAllowed_port bot sid e).1 = Ok false) ->
  exists d,
    adds (onOpen bot a) w d
    /\ exchange_calls d =
         [EIsAllowed (name bot) (toBitgetSymbolId (symbol a)) (Ok false)]
    /\ store_mutations d = []
    /\ notices d = [NNotAllowed (name bot) (toBitgetSymbolId (symbol a))]
    /\ store (onOpen bot a w).2 = store w
    /\ partialCloseStates (onOpen bot a w).2 = partialCloseStates w.
Proof.
  intros Hbs Htf Hfind Has Hno.
  unfold adds.
  unfold onOpen; unfold_methods; reduce.
  rewrite Hbs. reduce. rewrite Htf. cbn [negb]. reduce.
  rewrite Hfind. reduce. rewrite Has. reduce.
  assumed_answer. cbn [negb]. reduce.
  any_notify; reduce; tidy;
    (eexists; split; [reflexivity |]; cbn; repeat split; reflexivity).
Qed.

(** A SmartOpen for a key that is free and has a position with room left
    is an add: after its own log lines and its store lookup, [onOpen] does
    exactly what [onAdd] does. *)
Theorem open_on_position_is_add (bot : Bot) (a : Alert) (w : World)
  (pos : Position) :
  entryBlockStates w !! getStateKey (name bot) (symbol a) = None ->
  js_is_str (timeframe_or_1h a) "1h" = true ->
  findOpen_port (store w) (name bot) (symbol a) = Ok (Some pos) ->
  fillsCount pos < maxFills_or_4 bot ->
  onOpen bot a w =
    onAdd bot a
      (add_events
         [ ELog LLog (L_onOpen (symbol a) (price a));
           ELog LLog (L_checking_existing (symbol a));
           EFindOpen (name bot) (symbol a) (Ok (Some pos));
           ELog LLog (L_found_existing (fillsCount pos) (maxFills_or_4 bot));
           ELog LLog L_going_to_add ]
         w).
Proof.
  intros Hbs Htf Hfind Hfills.
  unfold onOpen.
  unfold isEntryBlocked, findOpen, get_entryBlockState, log, store_read,
    bind at 1 2 3 4 5 6 7.
  reduce. rewrite Hbs. unfold ret at 1. reduce.
  rewrite Htf. cbn [negb]. unfold bind at 1 2 3 4. reduce.
  rewrite Hfind. reduce.
  rewrite Z.geb_leb, (proj2 (Z.leb_gt _ _) Hfills).
  unfold bind at 1. reduce. tidy. reflexivity.
Qed.

(** An add that goes through: one buy order, sized by the exchange from the
    bot's add USD and tagged "add", then [store.add] on the position found,
    then one notice. The close counters are not touched. *)
Theorem add_fills_position (bot : Bot) (a : Alert) (w : World)
  (pos : Position) (s' : Store) :
  findOpen_port (store w) (name bot) (symbol a) = Ok (Some pos) ->
  fillsCount pos < maxFills_or_4 bot ->
  usd_unusable (addUsd bot) = false ->
  takes_orders bot -> accepts_orders bot -> prepares_orders bot ->
  add_port (store w) pos (price a) (num_to_string (addUsd bot))
    = (Ok tt, s') ->
  exists d size oid,
    adds (onAdd bot a) w d
    /\ orders d = [EPlaceMarket (name bot) (toBitgetSymbolId (symbol a))
                                buy size oid (Ok tt)]
    /\ oid_tag oid = "add"
    /\ store_mutations d =
         [EStoreAdd pos (price a) (num_to_string (addUsd bot)) (Ok tt)]
    /\ (length (notices d) <= 1)%nat
    /\ store (onAdd bot a w).2 = s'
    /\ partialCloseStates (onAdd bot a w).2 = partialCloseStates w.
Proof.
  intros Hfind Hfills Husd [Hpm _] [Hacc _] (Hall & Hlev & Hsize) Hadd.
  unfold adds.
  unfold onAdd; unfold_methods; reduce.
  rewrite Hfind. reduce.
  rewrite Z.geb_leb, (proj2 (Z.leb_gt _ _) Hfills), Husd, Hpm. reduce.
  destruct (has_calcSizeFromUsd (exchange bot)); reduce;
    [assumed_answer; reduce |];
    any_clock; reduce; assumed_answer; reduce;
    rewrite Hadd; reduce;
    (destruct (findOpen_port s' (name bot) (symbol a)) as [[upd |] | ?];
     reduce;
     [ destruct (getPositionInfo_port s' upd (num_of_string (price a)))
         as [info | ?]; reduce; [any_notify |]
     | any_notify
     | ]);
    reduce; tidy;
    (do 3 eexists; split; [reflexivity |]; cbn;
     repeat split; solve [reflexivity | lia]).
Qed.


(** [onOpen] past its guards, step by step: no entry for the key among the
    blocks, "1h" as the timeframe in force, no position in the store. *)
Lemma onOpen_first_open (bot : Bot) (a : Alert) (w : World)
  (pos : Position) (s' : Store) :
  entryBlockStates w !! getStateKey (name bot) (symbol a) = None ->
  js_is_str (timeframe_or_1h a) "1h" = true ->
  findOpen_port (store w) (name bot) (symbol a) = Ok None ->
  takes_orders bot -> accepts_orders bot -> prepares_orders bot ->
  usd_unusable (baseUsd bot) = false ->
  open_port (store w) (name bot) (symbol a) (price a)
            (num_to_string (baseUsd bot)) = (Ok pos, s') ->
  exists d size oid,
    adds (onOpen bot a) w d
    /\ orders d = [EPlaceMarket (name bot) (toBitgetSymbolId (symbol a))
                                buy size oid (Ok tt)]
    /\ oid_tag oid = "open"
    /\ store_mutations d =
         [EStoreOpen (name bot) (symbol a) (price a)
                     (num_to_string (baseUsd bot)) (Ok pos)]
    /\ store (onOpen bot a w).2 = s'
    /\ entryBlockStates (onOpen bot a w).2 = entryBlockStates w.
Proof.
  intros Hbs Htf Hfind [Hpm _] [Hacc _] (Hall & Hlev & Hsize) Husd Hopen.
  unfold adds.
  unfold onOpen; unfold_methods; reduce.
  rewrite Hbs. reduce. rewrite Htf. cbn [negb]. reduce.
  rewrite Hfind. reduce. rewrite Hpm, Husd.
  destruct (has_isAllowed (exchange bot)); reduce;
    [assumed_answer; cbn [negb]; reduce |];
    (destruct (has_ensureLeverage (exchange bot)); reduce;
       [assumed_answer; reduce |]);
    (destruct (has_calcSizeFromUsd (exchange bot)); reduce;
       [assumed_answer; reduce |]);
    any_clock; reduce; assumed_answer; reduce;
    rewrite Hopen; reduce;
    (destruct (partialCloseStates w !! getStateKey (name bot) (symbol a))
       as [st |] eqn:Hst; reduce; [| any_clock; reduce]);
    (destruct (getPositionInfo_port s' pos (num_of_string (price a)))
       as [info | ?]; reduce; [any_notify |]);
    reduce; tidy;
    (do 3 eexists; split; [reflexivity |]; cbn;
     repeat split; eauto).
Qed.

(** C9. An alert that gives no timeframe (the field is absent, null, empty
    or otherwise falsy) is handled by [onOpen], [onClose] and the two
    synchronization methods exactly as the same alert with timeframe "1h":
    same result, same calls, same state. In particular:
    - a SmartOpen without timeframe passes the timeframe guard and opens a
      position: on a key with no entry block and no position, with a usable
      base USD and a cooperating exchange and store, [onOpen] sends the buy
      order tagged "open" and stores the position;
    - a SmartClose without timeframe is not turned away and is not a "4h"
      full close, it takes the counting path: at count 0 it sends no order
      and moves the counter to 1 with the first-close notice, at count 1 it
      sells half of the position and moves the counter to 2;
    - a synchronization alert without timeframe passes the "1h" guard and
      blocks the key for one hour from the clock reading. *)
Theorem unset_timeframe_is_1h (bot : Bot) (a : Alert) (w : World) :
  timeframe_unset a ->
  let a1h := with_timeframe a (JStr "1h") in
  (onOpen bot a w = onOpen bot a1h w
   /\ onClose bot a w = onClose bot a1h w
   /\ onFixedShortSynchronization bot a w
      = onFixedShortSynchronization bot a1h w
   /\ onLiveShortSynchronization bot a w
      = onLiveShortSynchronization bot a1h w)
  /\ (forall (pos : Position) (s' : Store),
        entryBlockStates w !! getStateKey (name bot) (symbol a) = None ->
        findOpen_port (store w) (name bot) (symbol a) = Ok None ->
        takes_orders bot -> accepts_orders bot -> prepares_orders bot ->
        usd_unusable (baseUsd bot) = false ->
        open_port (store w) (name bot) (symbol a) (price a)
                  (num_to_string (baseUsd bot)) = (Ok pos, s') ->
        exists d size oid,
          adds (onOpen bot a) w d
          /\ orders d = [EPlaceMarket (name bot) (toBitgetSymbolId (symbol a))
                                      buy size oid (Ok tt)]
          /\ oid_tag oid = "open"
          /\ store_mutations d =
               [EStoreOpen (name bot) (symbol a) (price a)
                           (num_to_string (baseUsd bot)) (Ok pos)]
          /\ store (onOpen bot a w).2 = s')
  /\ (forall pos : Position,
        findOpen_port (store w) (name bot) (symbol a) = Ok (Some pos) ->
        closeCount w (name bot) (symbol a) = 0 ->
        exists d,
          adds (onClose bot a) w d
          /\ orders d = [] /\ store_mutations d = []
          /\ notices d = [NFirstClose (name bot) (symbol a)]
          /\ closeCount (onClose bot a w).2 (name bot) (symbol a) = 1
          /\ store (onClose bot a w).2 = store w)
  /\ (forall pos : Position,
        findOpen_port (store w) (name bot) (symbol a) = Ok (Some pos) ->
        closeCount w (name bot) (symbol a) = 1 ->
        takes_orders bot -> accepts_orders bot ->
        exists d oid,
          adds (onClose bot a) w d
          /\ orders d =
               [EPlaceMarket (name bot) (toBitgetSymbolId (symbol a)) sell
                  (toFixed
                     (num_div (num_mul (parseFloat (amountUsd pos)) num_half)
                              (parseFloat (avgEntryPrice pos))) 8)
                  oid (Ok tt)]
          /\ oid_tag oid = "partial-close"
          /\ store_mutations d = []
          /\ closeCount (onClose bot a w).2 (name bot) (symbol a) = 2
          /\ store (onClose bot a w).2 = store w)
  /\ (forall m,
        m = onFixedShortSynchronization bot a
        \/ m = onLiveShortSynchronization bot a ->
        entryBlockStates (m w).2 !! getStateKey (name bot) (symbol a)
          = Some {| eb_symbol := symbol a; eb_botName := name bot;
                    blockedUntil := (clock_port (env w)).1 + 3600000 |}
        /\ store (m w).2 = store w
        /\ partialCloseStates (m w).2 = partialCloseStates w).
Proof.
  intros Hunset a1h.
  assert (js_is_str (timeframe_or_1h a) "1h" = true
          /\ js_is_str (timeframe_or_1h a) "4h" = false) as [H1h H4h]
    by (rewrite (timeframe_unset_is_1h a Hunset); split; reflexivity).
  split; [| split; [| split; [| split]]].
  - destruct (unset_timeframe_runs_as_1h bot a w Hunset)
      as (Ho & Hc & Hf & Hl & _).
    repeat split; assumption.
  - intros pos s' Hbs Hfind Htakes Hacc Hprep Husd Hopen.
    destruct (onOpen_first_open bot a w pos s' Hbs H1h Hfind Htakes Hacc
                Hprep Husd Hopen)
      as (d & size & oid & A & O & T & M & S & _).
    exists d, size, oid. repeat split; assumption.
  - intros pos Hfind Hcount.
    destruct (onClose_first bot a w pos H4h Hfind Hcount)
      as (d & A & O & M & N & C & S & _).
    exists d. repeat split; assumption.
  - intros pos Hfind Hcount Htakes Hacc.
    destruct (onClose_second bot a w pos H4h Hfind Hcount Htakes Hacc)
      as (d & oid & A & O & T & M & C & S & _).
    exists d, oid. repeat split; assumption.
  - intros m Hm.
    destruct (clock_port (env w)) as [t0 e1] eqn:Hclock.
    exact (synchronization_blocks bot a w t0 e1 H1h Hclock m Hm).
Qed.


(** A first open: on a key that is free, with timeframe "1h" or none, no
    position in the store, a usable base USD and a cooperating exchange and
    store, [onOpen] sends one buy order tagged "open", stores the position
    with the alert's price and the base USD, and makes sure the key has a
    partial-close state, whose counter is what the key counted before. *)
Theorem open_stores_new_position (bot : Bot) (a : Alert) (w : World)
  (pos : Position) (s' : Store) :
  entryBlockStates w !! getStateKey (name bot) (symbol a) = None ->
  js_is_str (timeframe_or_1h a) "1h" = true ->
  findOpen_port (store w) (name bot) (symbol a) = Ok None ->
  takes_orders bot -> accepts_orders bot -> prepares_orders bot ->
  usd_unusable (baseUsd bot) = false ->
  open_port (store w) (name bot) (symbol a) (price a)
            (num_to_string (baseUsd bot)) = (Ok pos, s') ->
  exists d size oid,
    adds (onOpen bot a) w d
    /\ orders d = [EPlaceMarket (name bot) (toBitgetSymbolId (symbol a))
                                buy size oid (Ok tt)]
    /\ oid_tag oid = "open"
    /\ store_mutations d =
         [EStoreOpen (name bot) (symbol a) (price a)
                     (num_to_string (baseUsd bot)) (Ok pos)]
    /\ store (onOpen bot a w).2 = s'
    /\ (exists st,
          partialCloseStates (onOpen bot a w).2
            !! getStateKey (name bot) (symbol a) = Some st
          /\ smartVolCloseCount st = closeCount w (name bot) (symbol a))
    /\ entryBlockStates (onOpen bot a w).2 = entryBlockStates w.
Proof.
  intros Hbs Htf Hfind [Hpm _] [Hacc _] (Hall & Hlev & Hsize) Husd Hopen.
  unfold adds, closeCount.
  unfold onOpen; unfold_methods; reduce.
  rewrite Hbs. reduce. rewrite Htf. cbn [negb]. reduce.
  rewrite Hfind. reduce. rewrite Hpm, Husd.
  destruct (has_isAllowed (exchange bot)); reduce;
    [assumed_answer; cbn [negb]; reduce |];
    (destruct (has_ensureLeverage (exchange bot)); reduce;
       [assumed_answer; reduce |]);
    (destruct (has_calcSizeFromUsd (exchange bot)); reduce;
       [assumed_answer; reduce |]);
    any_clock; reduce; assumed_answer; reduce;
    rewrite Hopen; reduce;
    (destruct (partialCloseStates w !! getStateKey (name bot) (symbol a))
       as [st |] eqn:Hst; reduce; [| any_clock; reduce]);
    (destruct (getPositionInfo_port s' pos (num_of_string (price a)))
       as [info | ?]; reduce; [any_notify |]);
    reduce; tidy;
    (do 3 eexists; split; [reflexivity |]; cbn;
     rewrite ?lookup_insert_eq, ?Hst;
     repeat split; eauto).
Qed.

(** ** Counting closes *)

(** [onClose] tells "4h" from everything else and nothing more: a
    SmartClose with any other timeframe ("15m", "1d", ...) is counted as a
    "1h" close is. From 0 it is recorded without an order; from 1 it sells
    half of the position. *)
Theorem close_counts_every_timeframe_but_4h (bot : Bot) (a : Alert)
  (w : World) (pos : Position) :
  js_is_str (timeframe_or_1h a) "4h" = false ->
  findOpen_port (store w) (name bot) (symbol a) = Ok (Some pos) ->
  (closeCount w (name bot) (symbol a) = 0 ->
   exists d,
     adds (onClose bot a) w d
     /\ orders d = [] /\ store_mutations d = []
     /\ closeCount (onClose bot a w).2 (name bot) (symbol a) = 1)
  /\ (closeCount w (name bot) (symbol a) = 1 ->
      takes_orders bot -> accepts_orders bot ->
      exists d oid,
        adds (onClose bot a) w d
        /\ orders d =
             [EPlaceMarket (name bot) (toBitgetSymbolId (symbol a)) sell
                (toFixed
                   (num_div (num_mul (parseFloat (amountUsd pos)) num_half)
                            (parseFloat (avgEntryPrice pos))) 8)
                oid (Ok tt)]
        /\ store_mutations d = []
        /\ closeCount (onClose bot a w).2 (name bot) (symbol a) = 2).
Proof.
  intros Htf Hfind. split.
  - intros Hc.
    destruct (onClose_first bot a w pos Htf Hfind Hc)
      as (d & A & O & M & _ & C & _).
    exists d. repeat split; assumption.
  - intros Hc Htakes Hacc.
    destruct (onClose_second bot a w pos Htf Hfind Hc Htakes Hacc)
      as (d & oid & A & O & _ & M & C & _).
    exists d, oid. repeat split; assumption.
Qed.

(** ** Synchronizations *)

(** A synchronization at "1h" overwrites whatever block the key had: the
    new [blockedUntil] is the clock reading plus one hour, earlier blocks
    are neither kept nor added up. The notice carries a second clock
    reading plus one hour. No order, no store call. *)
Theorem synchronization_renews_block (bot : Bot) (a : Alert) (w : World)
  (t0 : Z) (e1 : Env) :
  js_is_str (timeframe_or_1h a) "1h" = true ->
  clock_port (env w) = (t0, e1) ->
  (exists t1 r e',
     onFixedShortSynchronization bot a w =
       (r, {| env := e'; store := store w;
              partialCloseStates := partialCloseStates w;
              entryBlockStates :=
                <[getStateKey (name bot) (symbol a) :=
                    {| eb_symbol := symbol a; eb_botName := name bot;
                       blockedUntil := t0 + 3600000 |}]>
                  (entryBlockStates w);
              trace := trace w ++
                [ ELog LLog (L_fixed_short (symbol a) (name bot));
                  ENow t0;
                  ELog LLog (L_entry_block_set (symbol a) (name bot)
                               "Fixed Short Synchronization"
                               (t0 + 3600000));
                  ENow t1;
                  ENotify (name bot)
                    (NFixedShortSync (name bot) (symbol a) (price a)
                                     (t1 + 3600000)) r ] |}))
  /\ (exists t1 r e',
        onLiveShortSynchronization bot a w =
          (r, {| env := e'; store := store w;
                 partialCloseStates := partialCloseStates w;
                 entryBlockStates :=
                   <[getStateKey (name bot) (symbol a) :=
                       {| eb_symbol := symbol a; eb_botName := name bot;
                          blockedUntil := t0 + 3600000 |}]>
                     (entryBlockStates w);
                 trace := trace w ++
                   [ ELog LLog (L_live_short (symbol a) (name bot));
                     ENow t0;
                     ELog LLog (L_entry_block_set (symbol a) (name bot)
                                  "Live Short Synchronization"
                                  (t0 + 3600000));
                     ENow t1;
                     ENotify (name bot)
                       (NLiveShortSync (name bot) (symbol a) (price a)
                                       (t1 + 3600000)) r ] |})).
Proof.
  intros Htf Hclock.
  split;
    unfold onFixedShortSynchronization, onLiveShortSynchronization;
    unfold_methods; reduce;
    rewrite Htf; cbn [negb]; reduce;
    rewrite Hclock; reduce;
    any_clock; reduce; any_notify; reduce; tidy;
    do 3 eexists; reflexivity.
Qed.

End StrategyMore.

(** * Further properties of the classifier and the router *)

Section RouterMore.
Context `{JsNumber} `{!Router.Handlers}.
Import Router.

(** The fields of a classified alert, read off [toAlert]. *)
Lemma toAlert_returns (p : JsVal) (a : Alert) :
  toAlert p = Ok a ->
  symbol a = js_String (js_get p "symbol")
  /\ price a = js_String (js_get p "price")
  /\ js_truthy (js_get p "symbol") = true
  /\ js_nullish (js_get p "price") = false
  /\ (type a = "VolumeUp" ->
      timeframe a = JStr (js_String (js_get p "timeframe"))
      /\ volume a = Some (js_Number (js_get p "volume")))
  /\ (type a <> "VolumeUp" ->
      timeframe a = js_get p "timeframe" /\ volume a = None)
  /\ (kind a = smartvol -> type a ∈ smartvol_types)
  /\ (kind a = domination ->
      type a ∈ domination_types
      /\ exists h, domination_handler_of (type a) = Some h).
Proof.
  unfold toAlert.
  destruct p as [| | b | n | s | fs]; try discriminate.
  cbn [js_get].
  destruct (has_field "alertName" fs); cbn [negb]; [| discriminate].
  destruct (includes smartvol_types _) eqn:Hsv.
  - destruct (js_truthy (get_field "symbol" fs)) eqn:Hsym; cbn [negb orb];
      [| discriminate].
    destruct (js_nullish (get_field "price" fs)) eqn:Hpr; [discriminate |].
    apply includes_true in Hsv.
    case_decide as Hvu.
    + destruct (js_nullish (get_field "volume" fs)); [discriminate |].
      destruct (negb (js_truthy (get_field "timeframe" fs)));
        [discriminate |].
      intros [= <-]. cbn. repeat split; try done.
    + intros [= <-]. cbn. repeat split; try done.
  - destruct (includes domination_types _) eqn:Hdom; [| discriminate].
    destruct (js_truthy (get_field "symbol" fs)) eqn:Hsym; cbn [negb orb];
      [| discriminate].
    destruct (js_nullish (get_field "price" fs)) eqn:Hpr; [discriminate |].
    apply includes_true in Hdom.
    intros [= <-]. cbn. repeat split; try done.
    + exfalso.
      match goal with Hvu : _ = "VolumeUp" |- _ => rewrite Hvu in Hsv end.
      discriminate Hsv.
    + exfalso.
      match goal with Hvu : _ = "VolumeUp" |- _ => rewrite Hvu in Hsv end.
      discriminate Hsv.
    + unfold domination_types in Hdom.
      rewrite !elem_of_cons, elem_of_nil in Hdom.
      unfold domination_handler_of.
      repeat (destruct Hdom as [-> | Hdom]; [eexists; reflexivity |]).
      destruct Hdom.
Qed.

(** What classification hands on: symbol and price are the payload's, as
    strings, and the symbol was given; a VolumeUp alert always has its
    timeframe as a string and a volume; any other alert has no volume and
    the payload's timeframe as it came, which may be missing. The type is
    one of the twelve known ones, and a domination type has its entry
    point. *)
Theorem toAlert_fields (p : JsVal) (a : Alert) :
  toAlert p = Ok a ->
  symbol a = js_String (js_get p "symbol")
  /\ price a = js_String (js_get p "price")
  /\ js_truthy (js_get p "symbol") = true
  /\ js_nullish (js_get p "price") = false
  /\ (type a = "VolumeUp" ->
      timeframe a = JStr (js_String (js_get p "timeframe"))
      /\ volume a = Some (js_Number (js_get p "volume")))
  /\ (type a <> "VolumeUp" ->
      timeframe a = js_get p "timeframe" /\ volume a = None)
  /\ (kind a = smartvol -> type a ∈ smartvol_types)
  /\ (kind a = domination ->
      type a ∈ domination_types
      /\ exists h, domination_handler_of (type a) = Some h).
Proof. apply toAlert_returns. Qed.






(** A domination alert with no bot tagged "domination" in the registry:
    two log lines (the second a warning), no bot is called, the router
    returns normally. *)
Theorem domination_alert_without_bots (registry : list Bot) (a : Alert)
  (w : RWorld) :
  kind a = domination ->
  List.filter is_domination_bot registry = [] ->
  dispatch registry a w =
    (Ok tt,
     {| sys := sys w;
        rtrace := rtrace w ++
          [ RLog LLog (RL_domination_alert (type a) (symbol a));
            RLog LWarn RL_no_domination_bots ] |}).
Proof.
  intros Hk Hnone. unfold dispatch, handleDominationAlert.
  rewrite Hk, Hnone. unfold bind, rlog. cbn. rewrite <- app_assoc.
  reflexivity.
Qed.

End RouterMore.

(** ** The further properties at work on the small system *)

Section MoreExamples.
Import Router Strategy Example.

Lemma getStateKey_injective_witness :
  name alice = name alice /\ symbol smart_add = symbol smart_open_1h.
Proof.
  exact (getStateKey_injective (name alice) (name alice) (symbol smart_add)
           (symbol smart_open_1h) eq_refl eq_refl eq_refl).
Defined.

(** At clock 2000 a block until 3 601 000 has 3 599 000 ms left. *)
Lemma time_until_unblock_rounds_down_witness :
  exists hours minutes,
    (getTimeUntilUnblock (name alice) (symbol smart_open_1h) w_blocked).1
      = Ok (Remaining hours minutes)
    /\ 0 <= minutes < 60
    /\ hours * 3600000 + minutes * 60000 <= 3601000 - 2000.
Proof.
  destruct (time_until_unblock_rounds_down (name alice) (symbol smart_open_1h)
              w_blocked (mkEntryBlockState "BTCUSDT" "alice" 3601000)
              2000 2001 eq_refl eq_refl ltac:(cbn; lia))
    as (h & m & E & _ & Hm & [Hlo _] & _).
  exists h, m. rewrite E. repeat split; solve [reflexivity | lia | exact Hlo].
Defined.

Lemma handlers_keep_to_their_key_witness :
  partialCloseStates (onClose alice smart_close_1h w_counted).2
    !! "bob:ETHUSDT"
  = partialCloseStates w_counted !! "bob:ETHUSDT".
Proof.
  exact (proj1 (handlers_keep_to_their_key alice smart_close_1h w_counted
                  (onClose alice smart_close_1h) "bob:ETHUSDT"
                  ltac:(do 2 apply list_elem_of_further;
                        apply list_elem_of_here)
                  ltac:(intros E; discriminate E))).
Defined.

Lemma w_counted_bounded : counts_bounded w_counted.
Proof.
  intros k st Hl. unfold w_counted in Hl. cbn [partialCloseStates] in Hl.
  apply lookup_singleton_Some in Hl as [_ <-]. cbn. lia.
Qed.

Lemma close_counters_stay_bounded_witness :
  counts_bounded (onClose alice smart_close_1h w_counted).2.
Proof.
  exact (close_counters_stay_bounded alice smart_close_1h w_counted
           (onClose alice smart_close_1h)
           ltac:(do 2 apply list_elem_of_further; apply list_elem_of_here)
           w_counted_bounded).
Defined.

Lemma only_closes_move_the_counter_witness :
  closeCount (onOpen alice smart_open_1h w_counted).2
             (name alice) (symbol smart_open_1h)
  = closeCount w_counted (name alice) (symbol smart_open_1h).
Proof.
  exact (only_closes_move_the_counter alice smart_open_1h w_counted
           (onOpen alice smart_open_1h) (name alice) (symbol smart_open_1h)
           ltac:(apply list_elem_of_here)).
Defined.

Lemma passive_handlers_do_not_trade_witness :
  store (onBigAdd alice smart_big_add w_open).2 = store w_open.
Proof.
  exact (proj1 (passive_handlers_do_not_trade alice smart_big_add w_open
                  (onBigAdd alice smart_big_add)
                  ltac:(apply list_elem_of_here))).
Defined.

(** Alice's add runs the same when she is blocked. *)
Lemma entry_blocks_gate_opening_only_witness :
  onAdd alice smart_add
        (with_entryBlockStates (blocked_until 3601000) w_open)
  = ((onAdd alice smart_add w_open).1,
     with_entryBlockStates (blocked_until 3601000)
                           (onAdd alice smart_add w_open).2).
Proof.
  exact (proj2 (entry_blocks_gate_opening_only alice smart_add w_open
                  (onAdd alice smart_add)
                  ltac:(apply list_elem_of_here))
               (blocked_until 3601000)).
Defined.

(** With one close counted, the 4h close and the big close close all. *)
Lemma close_4h_closes_everything_witness :
  store (onClose alice smart_close_4h w_counted).2 = []
  /\ partialCloseStates (onClose alice smart_close_4h w_counted).2
     = delete (getStateKey (name alice) (symbol smart_close_4h))
              (partialCloseStates w_counted).
Proof.
  destruct (close_4h_closes_everything alice smart_close_4h w_counted btc []
              eq_refl eq_refl (calm_market_takes_orders alice eq_refl)
              (calm_market_accepts_orders alice) eq_refl eq_refl)
    as (d & final & _ & _ & _ & _ & S & P & _).
  split; [exact S | exact P].
Defined.

Lemma big_close_closes_everything_witness :
  store (onBigClose alice smart_big_close w_counted).2 = []
  /\ partialCloseStates (onBigClose alice smart_big_close w_counted).2
     = delete (getStateKey (name alice) (symbol smart_big_close))
              (partialCloseStates w_counted).
Proof.
  destruct (big_close_closes_everything alice smart_big_close w_counted btc []
              eq_refl (calm_market_takes_orders alice eq_refl)
              (calm_market_accepts_orders alice) eq_refl eq_refl)
    as (d & final & _ & _ & _ & _ & S & P & _).
  split; [exact S | exact P].
Defined.


(** Zoe's base USD is NaN: her SmartOpen still sends the order. *)
Lemma open_orders_before_usd_check_witness :
  exists d size oid,
    adds (onOpen zoe smart_open_1h) w_empty d
    /\ orders d = [EPlaceMarket (name zoe)
                     (toBitgetSymbolId (symbol smart_open_1h))
                     buy size oid (Ok tt)]
    /\ store_mutations d = [].
Proof.
  destruct (open_orders_before_usd_check zoe smart_open_1h w_empty
              eq_refl eq_refl eq_refl
              (calm_market_takes_orders zoe eq_refl)
              (calm_market_accepts_orders zoe)
              (calm_market_prepares_orders zoe) eq_refl)
    as (d & size & oid & A & O & M & _).
  exists d, size, oid. repeat split; assumption.
Defined.

Lemma add_checks_usd_before_order_witness :
  exists r e',
    onAdd zoe smart_add w_zoe =
      (r, {| env := e'; store := store w_zoe;
             partialCloseStates := partialCloseStates w_zoe;
             entryBlockStates := entryBlockStates w_zoe;
             trace := trace w_zoe ++
               [ ELog LLog (L_onAdd (symbol smart_add) (price smart_add));
                 EFindOpen (name zoe) (symbol smart_add) (Ok (Some btc));
                 ELog LError (L_addUsd_error (addUsd zoe));
                 ENotify (name zoe) (NAddUsdMissing (name zoe)) r ] |}).
Proof.
  exact (add_checks_usd_before_order zoe smart_add w_zoe btc
           eq_refl ltac:(cbn; lia) eq_refl).
Defined.

Lemma open_refuses_disallowed_symbol_witness :
  exists d,
    adds (@onOpen _ picky_market alice smart_open_1h) w_empty_picky_market d
    /\ store_mutations d = []
    /\ notices d =
         [NNotAllowed (name alice)
            (@toBitgetSymbolId _ picky_market (symbol smart_open_1h))].
Proof.
  destruct (@open_refuses_disallowed_symbol _ picky_market alice
              smart_open_1h w_empty_picky_market
              eq_refl eq_refl eq_refl eq_refl (fun _ _ => eq_refl))
    as (d & A & _ & M & N & _).
  exists d. repeat split; assumption.
Defined.

Lemma open_on_position_is_add_witness :
  onOpen alice smart_open_1h w_open =
    onAdd alice smart_open_1h
      (add_events
         [ ELog LLog (L_onOpen (symbol smart_open_1h) (price smart_open_1h));
           ELog LLog (L_checking_existing (symbol smart_open_1h));
           EFindOpen (name alice) (symbol smart_open_1h) (Ok (Some btc));
           ELog LLog (L_found_existing (fillsCount btc)
                                       (maxFills_or_4 alice));
           ELog LLog L_going_to_add ]
         w_open).
Proof.
  exact (open_on_position_is_add alice smart_open_1h w_open btc
           eq_refl eq_refl eq_refl ltac:(cbn; lia)).
Defined.

Lemma add_fills_position_witness :
  store (onAdd alice smart_add w_open).2
  = [("alice", "BTCUSDT", mkPosition 0 2 "50000" "100")].
Proof.
  destruct (add_fills_position alice smart_add w_open btc
              [("alice", "BTCUSDT", mkPosition 0 2 "50000" "100")]
              eq_refl ltac:(cbn; lia) eq_refl
              (calm_market_takes_orders alice eq_refl)
              (calm_market_accepts_orders alice)
              (calm_market_prepares_orders alice) eq_refl)
    as (d & size & oid & _ & _ & _ & _ & _ & S & _).
  exact S.
Defined.

(** C9: alice's SmartOpen without a timeframe runs as the "1h" alert does
    and opens her position; her SmartClose with an empty timeframe runs as
    the "1h" alert does and is counted as the first close. *)
Lemma unset_timeframe_is_1h_witness :
  (onOpen alice smart_open_unset w_empty
     = onOpen alice (with_timeframe smart_open_unset (JStr "1h")) w_empty
   /\ exists d size oid,
        adds (onOpen alice smart_open_unset) w_empty d
        /\ orders d =
             [EPlaceMarket (name alice)
                (toBitgetSymbolId (symbol smart_open_unset))
                buy size oid (Ok tt)]
        /\ store (onOpen alice smart_open_unset w_empty).2
           = [("alice", "BTCUSDT", mkPosition 0 1 "50000" "100/1")])
  /\ (onClose alice smart_close_unset w_open
        = onClose alice (with_timeframe smart_close_unset (JStr "1h")) w_open
      /\ exists d,
           adds (onClose alice smart_close_unset) w_open d
           /\ orders d = []
           /\ notices d =
                [NFirstClose (name alice) (symbol smart_close_unset)]
           /\ closeCount (onClose alice smart_close_unset w_open).2
                (name alice) (symbol smart_close_unset) = 1).
Proof.
  split.
  - destruct (unset_timeframe_is_1h alice smart_open_unset w_empty eq_refl)
      as ((E & _) & Hopen & _).
    split; [exact E |].
    destruct (Hopen (mkPosition 0 1 "50000" "100/1")
                [("alice", "BTCUSDT", mkPosition 0 1 "50000" "100/1")]
                eq_refl eq_refl
                (calm_market_takes_orders alice eq_refl)
                (calm_market_accepts_orders alice)
                (calm_market_prepares_orders alice) eq_refl eq_refl)
      as (d & size & oid & A & O & _ & _ & S).
    exists d, size, oid. repeat split; assumption.
  - destruct (unset_timeframe_is_1h alice smart_close_unset w_open eq_refl)
      as ((_ & E & _) & _ & Hclose & _).
    split; [exact E |].
    destruct (Hclose btc eq_refl eq_refl) as (d & A & O & _ & N & C & _).
    exists d. repeat split; assumption.
Defined.

Lemma open_stores_new_position_witness :
  store (onOpen alice smart_open_1h w_empty).2
  = [("alice", "BTCUSDT", mkPosition 0 1 "50000" "100/1")].
Proof.
  destruct (open_stores_new_position alice smart_open_1h w_empty
              (mkPosition 0 1 "50000" "100/1")
              [("alice", "BTCUSDT", mkPosition 0 1 "50000" "100/1")]
              eq_refl eq_refl eq_refl
              (calm_market_takes_orders alice eq_refl)
              (calm_market_accepts_orders alice)
              (calm_market_prepares_orders alice) eq_refl eq_refl)
    as (d & size & oid & _ & _ & _ & _ & S & _).
  exact S.
Defined.

(** A SmartClose with timeframe "15m" is counted. *)
Lemma close_counts_every_timeframe_but_4h_witness :
  exists d,
    adds (onClose alice smart_close_15m) w_open d
    /\ orders d = []
    /\ closeCount (onClose alice smart_close_15m w_open).2
                  (name alice) (symbol smart_close_15m) = 1.
Proof.
  destruct (close_counts_every_timeframe_but_4h alice smart_close_15m w_open
              btc eq_refl eq_refl) as [Hfirst _].
  destruct (Hfirst eq_refl) as (d & A & O & _ & C).
  exists d. repeat split; assumption.
Defined.

(** Blocked until 3 601 000, alice is blocked anew at clock 2000. *)
Lemma synchronization_renews_block_witness :
  exists t1 r e',
    onFixedShortSynchronization alice synchronization_1h w_blocked =
      (r, {| env := e'; store := store w_blocked;
             partialCloseStates := partialCloseStates w_blocked;
             entryBlockStates :=
               <[getStateKey (name alice) (symbol synchronization_1h) :=
                   {| eb_symbol := symbol synchronization_1h;
                      eb_botName := name alice;
                      blockedUntil := 2000 + 3600000 |}]>
                 (entryBlockStates w_blocked);
             trace := trace w_blocked ++
               [ ELog LLog (L_fixed_short (symbol synchronization_1h)
                                          (name alice));
                 ENow 2000;
                 ELog LLog (L_entry_block_set (symbol synchronization_1h)
                              (name alice) "Fixed Short Synchronization"
                              (2000 + 3600000));
                 ENow t1;
                 ENotify (name alice)
                   (NFixedShortSync (name alice) (symbol synchronization_1h)
                      (price synchronization_1h) (t1 + 3600000)) r ] |}).
Proof.
  exact (proj1 (synchronization_renews_block alice synchronization_1h
                  w_blocked 2000 2001 eq_refl eq_refl)).
Defined.

Lemma toAlert_fields_witness :
  exists a,
    toAlert volume_up_payload = Ok a
    /\ timeframe a = JStr "1h"
    /\ volume a = Some (js_Number (JStr "7")).
Proof.
  eexists. split; [reflexivity |].
  destruct (toAlert_fields volume_up_payload _ eq_refl)
    as (_ & _ & _ & _ & Hvu & _).
  exact (Hvu eq_refl).
Defined.


Lemma domination_alert_without_bots_witness :
  dispatch [alice; carol]
    (mkAlert domination "Buyer domination" "BTCUSDT" "50000" JUndefined None)
    quiet
  = (Ok tt,
     {| sys := sys quiet;
        rtrace := rtrace quiet ++
          [ RLog LLog (RL_domination_alert "Buyer domination" "BTCUSDT");
            RLog LWarn RL_no_domination_bots ] |}).
Proof.
  exact (domination_alert_without_bots [alice; carol]
           (mkAlert domination "Buyer domination" "BTCUSDT" "50000"
                    JUndefined None)
           quiet eq_refl eq_refl).
Defined.

End MoreExamples.
